(** * drm_gralloc: buffer-object lifecycle, handle validation and the
      lock/unlock coordinator of [gralloc_drm.c]

    The C code works on three kinds of heap objects that point to one
    another: buffer handles ([struct gralloc_drm_handle_t]), buffer objects
    ([struct gralloc_drm_bo_t]) and device contexts ([struct gralloc_drm_t]).
    The embedding keeps the pointers: a pointer is an address in [Z] with
    [NULL = 0], each kind of object lives in its own finite map from
    addresses to records, and every C function becomes a computation in a
    state-and-fault monad over that store.  Dereferencing [NULL] or an
    address that is not (or no longer) allocated is a fault, so that a read
    of a destroyed object is visible in the model.

    The allocation backend ([drm->drv->alloc/free/map/unmap]) is external:
    its answers are given by an oracle that sees the history of backend
    calls, and every call is appended to a trace. *)

From Stdlib Require Import ZArith List Bool Lia.
From stdpp Require Import base option list gmap strings.

Local Open Scope Z_scope.

(** ** Machine integers *)

(** [int] and [unsigned int] are 32 bits wide; arithmetic that can leave the
    range is wrapped explicitly. *)
Definition wrap_int (z : Z) : Z := (z + 2 ^ 31) mod 2 ^ 32 - 2 ^ 31.
Definition wrap_uint (z : Z) : Z := z mod 2 ^ 32.

Definition NULL : Z := 0.
Definition EINVAL : Z := 22.

(** Usage bits of Android's [hardware/gralloc.h], the platform header the
    file compiles against (it is not part of the repository). *)
Definition GRALLOC_USAGE_SW_READ_OFTEN : Z := 0x3.
Definition GRALLOC_USAGE_SW_READ_MASK : Z := 0xF.
Definition GRALLOC_USAGE_SW_WRITE_MASK : Z := 0xF0.
Definition GRALLOC_USAGE_HW_TEXTURE : Z := 0x100.
Definition GRALLOC_USAGE_HW_FB : Z := 0x1000.
Definition GRALLOC_USAGE_HW_VIDEO_ENCODER : Z := 0x10000.

(** ** Data model *)

(** [struct gralloc_drm_handle_t], with the fields the file uses (the
    declaration is in [gralloc_drm_handle.h], which is not among the
    sources); [base_*] are the fields of the embedded [native_handle_t
    base]. *)
Record gralloc_drm_handle_t := mk_handle {
  base_version : Z;
  base_numFds : Z;
  base_numInts : Z;
  prime_fd : Z;
  magic : Z;
  width : Z;
  height : Z;
  format : Z;
  usage : Z;
  plane_mask : Z;
  name : Z;
  stride : Z;
  data_owner : Z;
  data : Z
}.

(** [struct gralloc_drm_bo_t], with the fields the file uses (the
    declaration is in [gralloc_drm_priv.h], which is not among the sources);
    [refcount] is taken as an [unsigned int], the other scalars as [int]. *)
Record gralloc_drm_bo_t := mk_bo {
  drm : Z;
  handle : Z;
  imported : Z;
  fb_handle : Z;
  fb_id : Z;
  lock_count : Z;
  locked_for : Z;
  refcount : Z
}.

(** [struct gralloc_drm_t], as far as this file uses it. *)
Record gralloc_drm_t := mk_drm {
  fd : Z;
  drv : Z;
  first_post : Z
}.

(** Calls that leave the core. *)
Inductive event :=
| EvAlloc (drv handle bo : Z)
| EvFree (drv bo : Z)
| EvMap (drv bo x y w h write : Z)
| EvUnmap (drv bo : Z)
| EvRmFB (bo fb : Z)
| EvResolveFormat (drv bo : Z).

(** What a successful backend [alloc] produces: the backend's part of the
    new object and the identifiers it stores into the handle. *)
Record alloc_out := mk_alloc_out {
  out_bo : gralloc_drm_bo_t;
  out_name : Z;
  out_stride : Z;
  out_prime_fd : Z
}.

(** Everything the file takes from outside: the process id, the constants
    of [gralloc_drm_handle.h], [planes_for_format], the C allocator and the
    backend of a device context. *)
Record platform := mk_platform {
  getpid : Z;
  sizeof_native_handle : Z;
  GRALLOC_DRM_HANDLE_MAGIC : Z;
  GRALLOC_DRM_HANDLE_NUM_INTS : Z;
  GRALLOC_DRM_HANDLE_NUM_FDS : Z;
  planes_for_format : Z -> Z -> Z;
  calloc_ok : positive -> bool;
  drv_alloc : list event -> Z -> gralloc_drm_handle_t -> option alloc_out;
  drv_map : list event -> Z -> Z -> Z -> Z -> Z -> Z -> Z -> Z * Z;
  drv_resolve_format : Z -> bool
}.

(** The store.  [gralloc_drm_pid] is the file's static variable, [brk] the
    next address the allocator hands out. *)
Record state := mk_state {
  gralloc_drm_pid : Z;
  handles : gmap Z gralloc_drm_handle_t;
  bos : gmap Z gralloc_drm_bo_t;
  drms : gmap Z gralloc_drm_t;
  brk : positive;
  trace : list event
}.

(** Field assignments. *)
Definition set_plane_mask (v : Z) (h : gralloc_drm_handle_t) :=
  mk_handle (base_version h) (base_numFds h) (base_numInts h) (prime_fd h)
    (magic h) (width h) (height h) (format h) (usage h) v (name h)
    (stride h) (data_owner h) (data h).
Definition set_backend_ids (n st pf : Z) (h : gralloc_drm_handle_t) :=
  mk_handle (base_version h) (base_numFds h) (base_numInts h) pf
    (magic h) (width h) (height h) (format h) (usage h) (plane_mask h) n
    st (data_owner h) (data h).
Definition set_data_owner (v : Z) (h : gralloc_drm_handle_t) :=
  mk_handle (base_version h) (base_numFds h) (base_numInts h) (prime_fd h)
    (magic h) (width h) (height h) (format h) (usage h) (plane_mask h)
    (name h) (stride h) v (data h).
Definition set_data (v : Z) (h : gralloc_drm_handle_t) :=
  mk_handle (base_version h) (base_numFds h) (base_numInts h) (prime_fd h)
    (magic h) (width h) (height h) (format h) (usage h) (plane_mask h)
    (name h) (stride h) (data_owner h) v.

Definition set_drm (v : Z) (b : gralloc_drm_bo_t) :=
  mk_bo v (handle b) (imported b) (fb_handle b) (fb_id b) (lock_count b)
    (locked_for b) (refcount b).
Definition set_handle (v : Z) (b : gralloc_drm_bo_t) :=
  mk_bo (drm b) v (imported b) (fb_handle b) (fb_id b) (lock_count b)
    (locked_for b) (refcount b).
Definition set_imported (v : Z) (b : gralloc_drm_bo_t) :=
  mk_bo (drm b) (handle b) v (fb_handle b) (fb_id b) (lock_count b)
    (locked_for b) (refcount b).
Definition set_fb_id (v : Z) (b : gralloc_drm_bo_t) :=
  mk_bo (drm b) (handle b) (imported b) (fb_handle b) v (lock_count b)
    (locked_for b) (refcount b).
Definition set_lock_count (v : Z) (b : gralloc_drm_bo_t) :=
  mk_bo (drm b) (handle b) (imported b) (fb_handle b) (fb_id b) v
    (locked_for b) (refcount b).
Definition set_locked_for (v : Z) (b : gralloc_drm_bo_t) :=
  mk_bo (drm b) (handle b) (imported b) (fb_handle b) (fb_id b)
    (lock_count b) v (refcount b).
Definition set_refcount (v : Z) (b : gralloc_drm_bo_t) :=
  mk_bo (drm b) (handle b) (imported b) (fb_handle b) (fb_id b)
    (lock_count b) (locked_for b) v.

Definition with_pid (v : Z) (s : state) :=
  mk_state v (handles s) (bos s) (drms s) (brk s) (trace s).
Definition with_handles (m : gmap Z gralloc_drm_handle_t) (s : state) :=
  mk_state (gralloc_drm_pid s) m (bos s) (drms s) (brk s) (trace s).
Definition with_bos (m : gmap Z gralloc_drm_bo_t) (s : state) :=
  mk_state (gralloc_drm_pid s) (handles s) m (drms s) (brk s) (trace s).
Definition with_brk (v : positive) (s : state) :=
  mk_state (gralloc_drm_pid s) (handles s) (bos s) (drms s) v (trace s).
Definition with_trace (t : list event) (s : state) :=
  mk_state (gralloc_drm_pid s) (handles s) (bos s) (drms s) (brk s) t.

(** ** The monad: state plus memory faults *)

Inductive fault := NullDeref | InvalidDeref.

Inductive outcome (A : Type) :=
| Ok (a : A) (s : state)
| Fault (f : fault).
Arguments Ok {A} a s.
Arguments Fault {A} f.

Definition M (A : Type) := state -> outcome A.

Definition ret {A} (a : A) : M A := fun s => Ok a s.
Definition bind {A B} (m : M A) (k : A -> M B) : M B :=
  fun s => match m s with
           | Ok a s' => k a s'
           | Fault f => Fault f
           end.

Notation "x <- m ; k" := (bind m (fun x => k))
  (at level 20, m at level 100, k at level 200, only parsing).

(** Memory accesses. *)
Definition load_handle (p : Z) : M gralloc_drm_handle_t := fun s =>
  if p =? NULL then Fault NullDeref
  else match handles s !! p with
       | Some h => Ok h s
       | None => Fault InvalidDeref
       end.

Definition store_handle (p : Z)
    (f : gralloc_drm_handle_t -> gralloc_drm_handle_t) : M unit :=
  h <- load_handle p;
  fun s => Ok tt (with_handles (<[p := f h]> (handles s)) s).

Definition load_bo (p : Z) : M gralloc_drm_bo_t := fun s =>
  if p =? NULL then Fault NullDeref
  else match bos s !! p with
       | Some b => Ok b s
       | None => Fault InvalidDeref
       end.

Definition store_bo (p : Z) (f : gralloc_drm_bo_t -> gralloc_drm_bo_t)
  : M unit :=
  b <- load_bo p;
  fun s => Ok tt (with_bos (<[p := f b]> (bos s)) s).

Definition load_drm (p : Z) : M gralloc_drm_t := fun s =>
  if p =? NULL then Fault NullDeref
  else match drms s !! p with
       | Some d => Ok d s
       | None => Fault InvalidDeref
       end.

(** [drm->drv]: the driver pointer of a context, about to be called through. *)
Definition load_drv (drm : Z) : M Z :=
  d <- load_drm drm;
  if drv d =? NULL then (fun _ => Fault NullDeref) else ret (drv d).

Definition emit (e : event) : M unit := fun s =>
  Ok tt (with_trace (trace s ++ [e]) s).

Definition get_trace : M (list event) := fun s => Ok (trace s) s.

(** [free(p)] of the C library: nothing for [NULL], a fault for an address
    that is not allocated. *)
Definition free_handle (p : Z) : M unit := fun s =>
  if p =? NULL then Ok tt s
  else match handles s !! p with
       | Some _ => Ok tt (with_handles (delete p (handles s)) s)
       | None => Fault InvalidDeref
       end.

(** ** The functions of [gralloc_drm.c] *)

Section Gralloc.

Variable p : platform.

(** [gralloc_drm_get_pid]: the pid is read once and kept in the static. *)
Definition gralloc_drm_get_pid : M Z := fun s =>
  if gralloc_drm_pid s =? 0
  then let s' := with_pid (wrap_int (getpid p)) s in Ok (gralloc_drm_pid s') s'
  else Ok (gralloc_drm_pid s) s.

(** The four fields [create_bo_handle] stamps on every handle. *)
Definition handle_check (h : gralloc_drm_handle_t) : bool :=
  (base_version h =? sizeof_native_handle p)
  && (base_numInts h =? GRALLOC_DRM_HANDLE_NUM_INTS p)
  && (base_numFds h =? GRALLOC_DRM_HANDLE_NUM_FDS p)
  && (magic h =? GRALLOC_DRM_HANDLE_MAGIC p).

(** Modelled from the spec: [gralloc_drm_handle] is the inline function of
    [gralloc_drm_handle.h] that casts a [buffer_handle_t]; the header is not
    part of the sources.  It is the structural/magic check: a null handle
    stays null, and a handle whose version tag, field counts or magic differ
    from what [create_bo_handle] writes is turned into [NULL]. *)
Definition gralloc_drm_handle (_handle : Z) : M Z :=
  if _handle =? NULL then ret NULL
  else
    h <- load_handle _handle;
    if handle_check h then ret _handle else ret NULL.

(** [drm->drv->alloc(drm->drv, handle)]. *)
Definition call_alloc (drm handle : Z) : M Z :=
  drv <- load_drv drm;
  hd <- load_handle handle;
  tr <- get_trace;
  match drv_alloc p tr drv hd with
  | None => _ <- emit (EvAlloc drv handle NULL); ret NULL
  | Some out =>
      fun s =>
        let bo := Z.pos (brk s) in
        Ok bo
          (with_trace (trace s ++ [EvAlloc drv handle bo])
             (with_brk (Pos.succ (brk s))
                (with_handles
                   (<[handle := set_backend_ids (out_name out) (out_stride out)
                                  (out_prime_fd out) hd]> (handles s))
                   (with_bos (<[bo := out_bo out]> (bos s)) s))))
  end.

(** [validate_handle] *)
Definition validate_handle (_handle drm : Z) : M Z :=
  handle <- gralloc_drm_handle _handle;
  if handle =? NULL then ret NULL
  else
    hd <- load_handle handle;
    pid <- gralloc_drm_get_pid;
    if negb (data_owner hd =? pid) then
      if drm =? NULL then ret NULL
      else
        bo <- (if negb (name hd =? 0) then call_alloc drm handle
               else ret NULL);
        _ <- (if negb (bo =? NULL) then
                _ <- store_bo bo (set_drm drm);
                _ <- store_bo bo (set_imported 1);
                _ <- store_bo bo (set_handle handle);
                store_bo bo (set_refcount 1)
              else ret tt);
        pid' <- gralloc_drm_get_pid;
        _ <- store_handle handle (set_data_owner pid');
        _ <- store_handle handle (set_data bo);
        hd' <- load_handle handle;
        ret (data hd')
    else ret (data hd).

(** [gralloc_drm_handle_register] *)
Definition gralloc_drm_handle_register (handle drm : Z) : M Z :=
  bo <- validate_handle handle drm;
  if bo =? NULL then ret (- EINVAL)
  else
    b <- load_bo bo;
    _ <- store_bo bo (set_refcount (wrap_uint (refcount b + 1)));
    ret 0.

(** Modelled from the spec: [gralloc_drm_bo_rm_fb] lives in the KMS part of
    the repository, which is not part of the sources.  It removes an active
    display binding of the object, if there is one. *)
Definition gralloc_drm_bo_rm_fb (bo : Z) : M unit :=
  b <- load_bo bo;
  if negb (fb_id b =? 0) then
    _ <- emit (EvRmFB bo (fb_id b));
    store_bo bo (set_fb_id 0)
  else ret tt.

(** [bo->drm->drv->free(bo->drm->drv, bo)]: the backend releases the object
    and its memory. *)
Definition call_free (bo : Z) : M unit :=
  b <- load_bo bo;
  drv <- load_drv (drm b);
  _ <- emit (EvFree drv bo);
  fun s => Ok tt (with_bos (delete bo (bos s)) s).

(** [gralloc_drm_bo_destroy] *)
Definition gralloc_drm_bo_destroy (bo : Z) : M unit :=
  b <- load_bo bo;
  let handle := handle b in
  let imported := imported b in
  if negb (refcount b =? 0) then ret tt
  else
    _ <- gralloc_drm_bo_rm_fb bo;
    _ <- call_free bo;
    if negb (imported =? 0) then
      _ <- store_handle handle (set_data_owner 0);
      store_handle handle (set_data 0)
    else free_handle handle.

(** [gralloc_drm_bo_decref] *)
Definition gralloc_drm_bo_decref (bo : Z) : M unit :=
  b <- load_bo bo;
  let r := wrap_uint (refcount b - 1) in
  _ <- store_bo bo (set_refcount r);
  if r =? 0 then gralloc_drm_bo_destroy bo else ret tt.

(** [gralloc_drm_handle_unregister] *)
Definition gralloc_drm_handle_unregister (handle : Z) : M Z :=
  bo <- validate_handle handle NULL;
  if bo =? NULL then ret (- EINVAL)
  else
    _ <- gralloc_drm_bo_decref bo;
    b <- load_bo bo;
    _ <- (if negb (imported b =? 0) then gralloc_drm_bo_decref bo
          else ret tt);
    ret 0.

(** The contents [create_bo_handle] gives a handle: zeroes from [calloc]
    and the assigned fields. *)
Definition new_handle (width height format usage : Z) : gralloc_drm_handle_t :=
  mk_handle (sizeof_native_handle p) (GRALLOC_DRM_HANDLE_NUM_FDS p)
    (GRALLOC_DRM_HANDLE_NUM_INTS p) (-1) (GRALLOC_DRM_HANDLE_MAGIC p)
    width height format usage 0 0 0 0 NULL.

(** [create_bo_handle] *)
Definition create_bo_handle (width height format usage : Z) : M Z := fun s =>
  let s' := with_brk (Pos.succ (brk s)) s in
  if calloc_ok p (brk s) then
    let handle := Z.pos (brk s) in
    Ok handle
      (with_handles
         (<[handle := new_handle width height format usage]> (handles s')) s')
  else Ok NULL s'.

(** [gralloc_drm_bo_create] *)
Definition gralloc_drm_bo_create (drm width height format usage : Z) : M Z :=
  handle <- create_bo_handle width height format usage;
  if handle =? NULL then ret NULL
  else
    _ <- store_handle handle (set_plane_mask (planes_for_format p drm format));
    bo <- call_alloc drm handle;
    if bo =? NULL then _ <- free_handle handle; ret NULL
    else
      _ <- store_bo bo (set_drm drm);
      _ <- store_bo bo (set_imported 0);
      _ <- store_bo bo (set_handle handle);
      _ <- store_bo bo (set_fb_id 0);
      _ <- store_bo bo (set_refcount 1);
      pid <- gralloc_drm_get_pid;
      _ <- store_handle handle (set_data_owner pid);
      _ <- store_handle handle (set_data bo);
      ret bo.

(** [gralloc_drm_bo_from_handle] *)
Definition gralloc_drm_bo_from_handle (handle : Z) : M Z :=
  validate_handle handle NULL.

(** [gralloc_drm_get_gem_handle] *)
Definition gralloc_drm_get_gem_handle (_handle : Z) : M Z :=
  handle <- gralloc_drm_handle _handle;
  if negb (handle =? NULL) then hd <- load_handle handle; ret (name hd)
  else ret 0.

(** [gralloc_drm_get_prime_fd] *)
Definition gralloc_drm_get_prime_fd (_handle : Z) : M Z :=
  handle <- gralloc_drm_handle _handle;
  if negb (handle =? NULL) then hd <- load_handle handle; ret (prime_fd hd)
  else ret (-1).

(** [gralloc_drm_resolve_format]: the three initialisers run before the
    test of [handle]. *)
Definition gralloc_drm_resolve_format (_handle : Z) : M unit :=
  handle <- gralloc_drm_handle _handle;
  hd <- load_handle handle;
  let bo := data hd in
  b <- load_bo bo;
  let drm := drm b in
  if negb (handle =? NULL) then
    drv <- load_drv drm;
    if drv_resolve_format p drv then emit (EvResolveFormat drv bo)
    else ret tt
  else ret tt.

(** The usage bits that make the capability check of [gralloc_drm_bo_lock]
    permissive, and the bits that stand for access by the CPU. *)
Definition lock_exception_flags : Z :=
  Z.lor GRALLOC_USAGE_SW_READ_OFTEN
    (Z.lor GRALLOC_USAGE_HW_FB
       (Z.lor GRALLOC_USAGE_HW_TEXTURE GRALLOC_USAGE_HW_VIDEO_ENCODER)).
Definition sw_access_mask : Z :=
  Z.lor GRALLOC_USAGE_SW_WRITE_MASK GRALLOC_USAGE_SW_READ_MASK.

(** [bo->drm->drv->map(bo->drm->drv, bo, x, y, w, h, write, addr)]: the
    error code, and the address when there is none. *)
Definition call_map (bo x y w h write : Z) : M (Z * option Z) :=
  b <- load_bo bo;
  drv <- load_drv (drm b);
  tr <- get_trace;
  _ <- emit (EvMap drv bo x y w h write);
  let r := drv_map p tr drv bo x y w h write in
  if fst r =? 0 then ret (0, Some (snd r)) else ret (fst r, None).

(** The parameter [usage] of the lock hides the field of the handle. *)
Local Abbreviation handle_usage := usage (only parsing).

(** [gralloc_drm_bo_lock]: the return value and what was stored through
    [addr], if anything. *)
Definition gralloc_drm_bo_lock (bo usage x y w h : Z) : M (Z * option Z) :=
  b <- load_bo bo;
  hd <- load_handle (handle b);
  if negb (Z.land (handle_usage hd) usage =? usage)
     && (Z.land (handle_usage hd) lock_exception_flags =? 0)
  then ret (- EINVAL, None)
  else if negb (lock_count b =? 0)
          && negb (Z.land (locked_for b) usage =? usage)
  then ret (- EINVAL, None)
  else
    let usage := Z.lor usage (locked_for b) in
    r <- (if negb (Z.land usage sw_access_mask =? 0) then
            let write :=
              if Z.land usage GRALLOC_USAGE_SW_WRITE_MASK =? 0 then 0 else 1 in
            call_map bo x y w h write
          else ret (0, None));
    if negb (fst r =? 0) then ret r
    else
      b' <- load_bo bo;
      _ <- store_bo bo (set_lock_count (wrap_int (lock_count b' + 1)));
      _ <- store_bo bo (fun c => set_locked_for (Z.lor (locked_for c) usage) c);
      ret (0, snd r).

(** [bo->drm->drv->unmap(bo->drm->drv, bo)] *)
Definition call_unmap (bo : Z) : M unit :=
  b <- load_bo bo;
  drv <- load_drv (drm b);
  emit (EvUnmap drv bo).

(** [gralloc_drm_bo_unlock] *)
Definition gralloc_drm_bo_unlock (bo : Z) : M unit :=
  b <- load_bo bo;
  let mapped := Z.land (locked_for b) sw_access_mask in
  if lock_count b =? 0 then ret tt
  else
    _ <- (if negb (mapped =? 0) then call_unmap bo else ret tt);
    b' <- load_bo bo;
    _ <- store_bo bo (set_lock_count (wrap_int (lock_count b' - 1)));
    b'' <- load_bo bo;
    if lock_count b'' =? 0 then store_bo bo (set_locked_for 0) else ret tt.

End Gralloc.

(** [gralloc_drm_bo_get_handle]: the handle of an object and, when the
    caller passes a place for it, the stride.  [base] is the first member of
    the handle, so [&bo->handle->base] is the address of the handle. *)
Definition gralloc_drm_bo_get_handle (bo : Z) (want_stride : bool)
  : M (Z * option Z) :=
  b <- load_bo bo;
  st <- (if want_stride then
           hd <- load_handle (handle b);
           ret (Some (stride hd))
         else ret None);
  ret (handle b, st).

(** ** The device context

    [gralloc_drm_create] and its neighbours talk to the kernel through
    libdrm and to the backends through their constructors.  Those calls are
    recorded in a second trace, next to the store of the core. *)

(** The backends [init_drv_from_fd] can build. *)
Inductive backend_kind := Freedreno | Intel | Radeon | Nouveau | Pipe.

Inductive syscall :=
| SysOpenByFB (fd : Z)
| SysGetVersion (fd : Z)
| SysFreeVersion (fd : Z)
| SysClose (fd : Z)
| SysDrvCreate (kind : backend_kind) (fd drv : Z)
| SysDrvDestroy (drv : Z)
| SysGetMagic (fd : Z)
| SysAuthMagic (fd magic : Z)
| SysSetMaster (fd : Z)
| SysDropMaster (fd : Z).

(** The [ENABLE_*] macros the file is compiled with. *)
Record build_config := mk_build_config {
  ENABLE_FREEDRENO : bool;
  ENABLE_INTEL : bool;
  ENABLE_RADEON : bool;
  ENABLE_NOUVEAU : bool;
  ENABLE_PIPE : bool
}.

(** libdrm and the backend constructors.  [drmGetVersion] answers nothing
    (a null version), a version without a name, or a version with the name
    of the kernel module; [drv_create] stands for the functions
    [gralloc_drm_drv_create_for_*], which return a driver or [NULL]. *)
Record transport := mk_transport {
  drmOpenByFB : list syscall -> Z;
  drmGetVersion : list syscall -> Z -> option (option string);
  drv_create : list syscall -> backend_kind -> Z -> string -> Z;
  drmGetMagic : list syscall -> Z -> Z * Z;
  drmAuthMagic : list syscall -> Z -> Z -> Z
}.

Record world := mk_world {
  core : state;
  calls : list syscall
}.

Inductive woutcome (A : Type) :=
| WOk (a : A) (w : world)
| WFault (f : fault).
Arguments WOk {A} a w.
Arguments WFault {A} f.

Definition W (A : Type) := world -> woutcome A.

Definition wret {A} (a : A) : W A := fun w => WOk a w.
Definition wbind {A B} (m : W A) (k : A -> W B) : W B :=
  fun w => match m w with
           | WOk a w' => k a w'
           | WFault f => WFault f
           end.

Notation "x <~ m ; k" := (wbind m (fun x => k))
  (at level 20, m at level 100, k at level 200, only parsing).

(** A computation of the core, run on the store of the world. *)
Definition lift {A} (m : M A) : W A := fun w =>
  match m (core w) with
  | Ok a s => WOk a (mk_world s (calls w))
  | Fault f => WFault f
  end.

Definition sys (e : syscall) : W unit := fun w =>
  WOk tt (mk_world (core w) (calls w ++ [e])).

Definition get_calls : W (list syscall) := fun w => WOk (calls w) w.

Definition set_fd (v : Z) (d : gralloc_drm_t) :=
  mk_drm v (drv d) (first_post d).
Definition set_drv (v : Z) (d : gralloc_drm_t) :=
  mk_drm (fd d) v (first_post d).
Definition set_first_post (v : Z) (d : gralloc_drm_t) :=
  mk_drm (fd d) (drv d) v.

Definition with_drms (m : gmap Z gralloc_drm_t) (s : state) :=
  mk_state (gralloc_drm_pid s) (handles s) (bos s) m (brk s) (trace s).

Definition store_drm (p : Z) (f : gralloc_drm_t -> gralloc_drm_t) : M unit :=
  d <- load_drm p;
  fun s => Ok tt (with_drms (<[p := f d]> (drms s)) s).

Definition free_drm (p : Z) : M unit := fun s =>
  if p =? NULL then Ok tt s
  else match drms s !! p with
       | Some _ => Ok tt (with_drms (delete p (drms s)) s)
       | None => Fault InvalidDeref
       end.

(** Local names hide the fields [fd] of a context and [drm] of an object
    in places. *)
Local Abbreviation drm_fd := fd (only parsing).
Local Abbreviation drm_of := drm (only parsing).

Section Device.

Variable p : platform.
Variable t : transport.
Variable cfg : build_config.

(** The [calloc] of a context, all fields zero. *)
Definition calloc_drm : M Z := fun s =>
  let s' := with_brk (Pos.succ (brk s)) s in
  if calloc_ok p (brk s) then
    Ok (Z.pos (brk s))
       (with_drms (<[Z.pos (brk s) := mk_drm 0 0 0]> (drms s')) s')
  else Ok NULL s'.

(** A call of one of the backend constructors. *)
Definition call_drv_create (kind : backend_kind) (fd : Z) (nm : string)
  : W Z :=
  cs <~ get_calls;
  let drv := drv_create t cs kind fd nm in
  _ <~ sys (SysDrvCreate kind fd drv);
  wret drv.

(** [init_drv_from_fd]: the chain of [#ifdef]ed comparisons, each enabled
    one followed by [else]; the pipe backend, when enabled, is the last
    [else]. *)
Definition init_drv_from_fd (fd : Z) : W Z :=
  cs <~ get_calls;
  _ <~ sys (SysGetVersion fd);
  match drmGetVersion t cs fd with
  | None => wret NULL
  | Some name =>
      drv <~ match name with
             | Some nm =>
                 if ENABLE_FREEDRENO cfg && String.eqb nm "msm" then
                   call_drv_create Freedreno fd nm
                 else if ENABLE_INTEL cfg && String.eqb nm "i915" then
                   call_drv_create Intel fd nm
                 else if ENABLE_RADEON cfg && String.eqb nm "radeon" then
                   call_drv_create Radeon fd nm
                 else if ENABLE_NOUVEAU cfg && String.eqb nm "nouveau" then
                   call_drv_create Nouveau fd nm
                 else if ENABLE_PIPE cfg then
                   call_drv_create Pipe fd nm
                 else wret NULL
             | None => wret NULL
             end;
      _ <~ sys (SysFreeVersion fd);
      wret drv
  end.

(** [gralloc_drm_create] *)
Definition gralloc_drm_create : W Z :=
  drm <~ lift calloc_drm;
  if drm =? NULL then wret NULL
  else
    cs <~ get_calls;
    let fd := drmOpenByFB t cs in
    _ <~ sys (SysOpenByFB fd);
    _ <~ lift (store_drm drm (set_fd fd));
    _ <~ (if fd <? 0 then wret tt
          else
            drv <~ init_drv_from_fd fd;
            lift (store_drm drm (set_drv drv)));
    d <~ lift (load_drm drm);
    if drv d =? NULL then
      _ <~ sys (SysClose (drm_fd d));
      _ <~ lift (free_drm drm);
      wret NULL
    else wret drm.

(** [gralloc_drm_destroy] *)
Definition gralloc_drm_destroy (drm : Z) : W unit :=
  d <~ lift (load_drm drm);
  _ <~ (if negb (drv d =? NULL) then sys (SysDrvDestroy (drv d))
        else wret tt);
  _ <~ sys (SysClose (drm_fd d));
  lift (free_drm drm).

(** [gralloc_drm_get_fd] *)
Definition gralloc_drm_get_fd (drm : Z) : M Z :=
  d <- load_drm drm;
  ret (drm_fd d).

(** [gralloc_drm_get_magic]: the return value and the magic stored through
    the pointer. *)
Definition gralloc_drm_get_magic (drm : Z) : W (Z * Z) :=
  d <~ lift (load_drm drm);
  cs <~ get_calls;
  _ <~ sys (SysGetMagic (drm_fd d));
  wret (drmGetMagic t cs (drm_fd d)).

(** [gralloc_drm_auth_magic] *)
Definition gralloc_drm_auth_magic (drm magic : Z) : W Z :=
  d <~ lift (load_drm drm);
  cs <~ get_calls;
  _ <~ sys (SysAuthMagic (drm_fd d) magic);
  wret (drmAuthMagic t cs (drm_fd d) magic).

(** [gralloc_drm_set_master]: the result of [drmSetMaster] is dropped. *)
Definition gralloc_drm_set_master (drm : Z) : W Z :=
  d <~ lift (load_drm drm);
  _ <~ sys (SysSetMaster (drm_fd d));
  _ <~ lift (store_drm drm (set_first_post 1));
  wret 0.

(** [gralloc_drm_drop_master] *)
Definition gralloc_drm_drop_master (drm : Z) : W unit :=
  d <~ lift (load_drm drm);
  sys (SysDropMaster (drm_fd d)).

End Device.

(** ** Vocabulary of the statements *)

(** What [gralloc_drm_get_pid] answers in a state, and the state it
    leaves: the static is filled in on first use. *)
Definition current_pid (p : platform) (s : state) : Z :=
  if gralloc_drm_pid s =? 0 then wrap_int (getpid p) else gralloc_drm_pid s.
Definition cache_pid (p : platform) (s : state) : state :=
  with_pid (current_pid p s) s.

(** An import attempt for the handle contents [hd] through the context
    [drm] fails: the handle carries no backend name, or the backend's
    [alloc] returns nothing. *)
Definition import_fails (p : platform) (s : state) (drm : Z)
    (hd : gralloc_drm_handle_t) : Prop :=
  name hd = 0 \/
  exists d, drms s !! drm = Some d /\ drv d <> NULL /\
    drv_alloc p (trace s) (drv d) hd = None.

(** Later calls on a handle: validations and registrations, each with a
    context of its own (possibly none). *)
Inductive handle_call :=
| CallValidate (drm : Z)
| CallRegister (drm : Z).

Definition do_call (p : platform) (h : Z) (c : handle_call) : M Z :=
  match c with
  | CallValidate drm => validate_handle p h drm
  | CallRegister drm => gralloc_drm_handle_register p h drm
  end.

Fixpoint run_calls (p : platform) (h : Z) (cs : list handle_call)
  : M (list Z) :=
  match cs with
  | [] => ret []
  | c :: cs' =>
      r <- do_call p h c;
      rs <- run_calls p h cs';
      ret (r :: rs)
  end.

(** The failure answer of each kind of call. *)
Definition failure_of (c : handle_call) : Z :=
  match c with
  | CallValidate _ => NULL
  | CallRegister _ => - EINVAL
  end.

(** The display binding [gralloc_drm_bo_rm_fb] removes for an object. *)
Definition rm_fb_events (bo : Z) (b : gralloc_drm_bo_t) : list event :=
  if fb_id b =? 0 then [] else [EvRmFB bo (fb_id b)].

(** What destruction does to the handle of the object: an imported object
    resets the process-local fields, a local one frees the handle. *)
Definition release_handle (b : gralloc_drm_bo_t) (hd : gralloc_drm_handle_t)
    (m : gmap Z gralloc_drm_handle_t) : gmap Z gralloc_drm_handle_t :=
  if imported b =? 0 then delete (handle b) m
  else <[handle b := set_data 0 (set_data_owner 0 hd)]> m.

(** The state after the destruction sequence of the object [b] at [bo]. *)
Definition destroyed (bo : Z) (b : gralloc_drm_bo_t) (d : gralloc_drm_t)
    (hd : gralloc_drm_handle_t) (s : state) : state :=
  with_handles (release_handle b hd (handles s))
    (with_bos (delete bo (bos s))
       (with_trace (trace s ++ rm_fb_events bo b ++ [EvFree (drv d) bo]) s)).

(** Successful backend allocations minus backend frees, as a test double
    of the backend would count them. *)
Definition alloc_delta (e : event) : Z :=
  match e with
  | EvAlloc _ _ bo => if bo =? NULL then 0 else 1
  | EvFree _ _ => -1
  | _ => 0
  end.

Fixpoint live_allocations (tr : list event) : Z :=
  match tr with
  | [] => 0
  | e :: tr' => alloc_delta e + live_allocations tr'
  end.

(** A usage bitmask asks for access by the CPU. *)
Definition cpu_access (u : Z) : bool := negb (Z.land u sw_access_mask =? 0).

(** The [write] argument the lock derives for the backend's [map]. *)
Definition write_flag (u : Z) : Z :=
  if Z.land u GRALLOC_USAGE_SW_WRITE_MASK =? 0 then 0 else 1.

(** The object after one more lock for [u], and after one lock less. *)
Definition locked_bo (u : Z) (b : gralloc_drm_bo_t) : gralloc_drm_bo_t :=
  set_locked_for (Z.lor (locked_for b) (Z.lor u (locked_for b)))
    (set_lock_count (wrap_int (lock_count b + 1)) b).

Definition unlocked_bo (b : gralloc_drm_bo_t) : gralloc_drm_bo_t :=
  let n := wrap_int (lock_count b - 1) in
  if n =? 0 then set_locked_for 0 (set_lock_count n b)
  else set_lock_count n b.

(** Calls of the backend's [map] and [unmap] in a trace. *)
Definition is_map (e : event) : bool :=
  match e with EvMap _ _ _ _ _ _ _ => true | _ => false end.
Definition is_unmap (e : event) : bool :=
  match e with EvUnmap _ _ => true | _ => false end.
Definition map_calls (tr : list event) : nat :=
  length (List.filter is_map tr).
Definition unmap_calls (tr : list event) : nat :=
  length (List.filter is_unmap tr).

(** The state [s] with the pid cached and the reference count of the
    object [b] at [bo] set to [r]. *)
Definition rc_state (p : platform) (s : state) (bo : Z)
    (b : gralloc_drm_bo_t) (r : Z) : state :=
  mk_state (current_pid p s) (handles s) (<[bo := set_refcount r b]> (bos s))
    (drms s) (brk s) (trace s).


(** In state [s] the handle at [h], with contents [hd], is well formed and
    belongs to the current process, and the object it caches is live at
    [bo] with contents [b]. *)
Definition owns (p : platform) (s : state) (h : Z)
    (hd : gralloc_drm_handle_t) (bo : Z) (b : gralloc_drm_bo_t) : Prop :=
  h <> NULL /\ handles s !! h = Some hd /\ handle_check p hd = true /\
  data_owner hd = current_pid p s /\ data hd = bo /\
  bo <> NULL /\ bos s !! bo = Some b.

(** The context and the handle of the object [b] are live in [s]. *)
Definition destructible (s : state) (b : gralloc_drm_bo_t)
    (d : gralloc_drm_t) (hd : gralloc_drm_handle_t) : Prop :=
  drm b <> NULL /\ drms s !! drm b = Some d /\ drv d <> NULL /\
  handle b <> NULL /\ handles s !! handle b = Some hd.

(** What an import leaves: the object the backend made for the handle at
    [h], bound to the context [drm], marked imported and holding [r]
    references; and the handle, stamped with the process [pid] and the
    object [bo]. *)
Definition imported_bo (drm h : Z) (out : alloc_out) (r : Z)
  : gralloc_drm_bo_t :=
  set_refcount r (set_handle h (set_imported 1 (set_drm drm (out_bo out)))).

Definition imported_handle (pid bo : Z) (out : alloc_out)
    (hd : gralloc_drm_handle_t) : gralloc_drm_handle_t :=
  set_data bo (set_data_owner pid
    (set_backend_ids (out_name out) (out_stride out) (out_prime_fd out) hd)).

(** A handle that arrived from another process and can be imported
    through the context at [drm]. *)
Definition importable (p : platform) (s : state) (h : Z)
    (hd : gralloc_drm_handle_t) (drm : Z) (d : gralloc_drm_t)
    (out : alloc_out) : Prop :=
  h <> NULL /\ handles s !! h = Some hd /\ handle_check p hd = true /\
  data_owner hd <> current_pid p s /\ name hd <> 0 /\
  drm <> NULL /\ drms s !! drm = Some d /\ drv d <> NULL /\
  drv_alloc p (trace s) (drv d) hd = Some out.

(** ** A concrete platform and concrete stores

    Process 1234; a backend that always allocates, names unnamed buffers 7
    and maps at address 28672; one device context at address 100 with its
    driver at 200; a handle at address 1 and its object at address 2. *)

Definition demo_platform : platform :=
  mk_platform 1234 12 0x12345678 12 1 (fun _ _ => 1) (fun _ => true)
    (fun _ _ hd =>
       Some (mk_alloc_out (mk_bo 0 0 0 0 0 0 0 0)
               (if name hd =? 0 then 7 else name hd) 2560 (-1)))
    (fun _ _ _ _ _ _ _ _ => (0, 28672))
    (fun _ => false).

Definition demo_drm : gralloc_drm_t := mk_drm 3 200 0.

(** A well-formed 640x480 handle with the given usage, backend name, owner
    and cached object. *)
Definition demo_handle (u nm owner bo : Z) : gralloc_drm_handle_t :=
  mk_handle 12 1 12 (-1) 0x12345678 640 480 1 u 1 nm 2560 owner bo.

(** An object of the context at 100 for the handle at 1. *)
Definition demo_bo (imp rc lc lf : Z) : gralloc_drm_bo_t :=
  mk_bo 100 1 imp 0 0 lc lf rc.

(** The store of process 1234 holding the handle and its object. *)
Definition demo_state (hd : gralloc_drm_handle_t) (b : gralloc_drm_bo_t)
  : state :=
  mk_state 1234 {[ 1 := hd ]} {[ 2 := b ]} {[ 100 := demo_drm ]} 3 [].

(** The store of process 1234 after a handle arrived from process 999:
    the process-local fields are stale and there is no object yet. *)
Definition arrived_state (hd : gralloc_drm_handle_t) : state :=
  mk_state 1234 {[ 1 := hd ]} ∅ {[ 100 := demo_drm ]} 2 [].

(** Reading an outcome: the value returned, and what the store then says
    about the object at [bo]. *)
Definition returned {A} (o : outcome A) : option A :=
  match o with Ok a _ => Some a | Fault _ => None end.


Definition lock_count_after {A} (bo : Z) (o : outcome A) : option Z :=
  match o with Ok _ s => lock_count <$> bos s !! bo | Fault _ => None end.

Definition unmap_calls_after {A} (o : outcome A) : option nat :=
  match o with Ok _ s => Some (unmap_calls (trace s)) | Fault _ => None end.

(** The lock state of an object is sound: the count is not negative, and
    an unlocked object has no accumulated usage. *)
Definition lock_inv (b : gralloc_drm_bo_t) : Prop :=
  0 <= lock_count b /\ (lock_count b = 0 -> locked_for b = 0).

(** [n] nested locks for the same usage and rectangle, released in turn:
    [n] calls of the lock followed by [n] calls of the unlock.  A lock that
    fails ends the sequence. *)
Fixpoint lock_session (p : platform) (bo u x y w h : Z) (n : nat) : M Z :=
  match n with
  | O => ret 0
  | S n' =>
      r <- gralloc_drm_bo_lock p bo u x y w h;
      if fst r =? 0 then
        e <- lock_session p bo u x y w h n';
        _ <- gralloc_drm_bo_unlock bo;
        ret e
      else ret (fst r)
  end.

(** The kernel-module name a dedicated backend answers to, and whether the
    build has the backend. *)
Definition dedicated_name (k : backend_kind) : option string :=
  match k with
  | Freedreno => Some "msm"%string
  | Intel => Some "i915"%string
  | Radeon => Some "radeon"%string
  | Nouveau => Some "nouveau"%string
  | Pipe => None
  end.

Definition enabled (cfg : build_config) (k : backend_kind) : bool :=
  match k with
  | Freedreno => ENABLE_FREEDRENO cfg
  | Intel => ENABLE_INTEL cfg
  | Radeon => ENABLE_RADEON cfg
  | Nouveau => ENABLE_NOUVEAU cfg
  | Pipe => ENABLE_PIPE cfg
  end.

(** No enabled dedicated backend answers to the name [nm]. *)
Definition no_dedicated (cfg : build_config) (nm : string) : Prop :=
  forall k, enabled cfg k = true -> dedicated_name k <> Some nm.

(** A build with the i915 and the pipe backends, and a kernel that opens
    descriptor 5 for the module i915; the constructors return the driver
    200. *)
Definition demo_config : build_config :=
  mk_build_config false true false false true.

Definition demo_transport : transport :=
  mk_transport (fun _ => 5) (fun _ _ => Some (Some "i915"%string))
    (fun _ _ _ _ => 200) (fun _ _ => (0, 77)) (fun _ _ _ => 0).

(** A process that has no context yet and has made no call. *)
Definition demo_world : world :=
  mk_world (mk_state 1234 ∅ ∅ ∅ 100 []) [].

(** A process whose context at 100 is live, with the handle and its
    object, and that has made no call. *)
Definition live_world (hd : gralloc_drm_handle_t) (b : gralloc_drm_bo_t)
  : world :=
  mk_world (demo_state hd b) [].

(** A build with the pipe backend only. *)
Definition pipe_only_config : build_config :=
  mk_build_config false false false false true.

(** What the backend of [demo_platform] returns for a buffer named [nm]. *)
Definition demo_out (nm : Z) : alloc_out :=
  mk_alloc_out (mk_bo 0 0 0 0 0 0 0 0) nm 2560 (-1).

(** A handle whose magic is not the one of this library. *)
Definition foreign_handle : gralloc_drm_handle_t :=
  mk_handle 12 1 12 (-1) 0xdead 640 480 1 3 1 7 2560 999 77.

(** The platform of [demo_platform] with a backend that cannot allocate. *)
Definition exhausted_platform : platform :=
  mk_platform 1234 12 0x12345678 12 1 (fun _ _ => 1) (fun _ => true)
    (fun _ _ _ => None)
    (fun _ _ _ _ _ _ _ _ => (0, 28672))
    (fun _ => false).

(** A kernel without a device for the framebuffer. *)
Definition no_device_transport : transport :=
  mk_transport (fun _ => -1) (fun _ _ => None)
    (fun _ _ _ _ => 0) (fun _ _ => (-1, 0)) (fun _ _ _ => -1).

(** The object [b] at [bo] is live in [s], and so are its handle, with
    contents [hd], and its context [d] with a driver. *)
Definition live_bo (s : state) (bo : Z) (b : gralloc_drm_bo_t)
    (hd : gralloc_drm_handle_t) (d : gralloc_drm_t) : Prop :=
  bo <> NULL /\ bos s !! bo = Some b /\
  handle b <> NULL /\ handles s !! handle b = Some hd /\
  drm b <> NULL /\ drms s !! drm b = Some d /\ drv d <> NULL.

(** The two checks of the lock let the usage [u] through. *)
Definition lock_admitted (hd : gralloc_drm_handle_t) (b : gralloc_drm_bo_t)
    (u : Z) : Prop :=
  (Z.land (usage hd) u = u \/
   Z.land (usage hd) lock_exception_flags <> 0) /\
  (lock_count b = 0 \/ Z.land (locked_for b) u = u).

(** The backend's [map] of this object never fails. *)
Definition map_succeeds (p : platform) (d : gralloc_drm_t) (bo : Z) : Prop :=
  forall tr x y w h write, fst (drv_map p tr (drv d) bo x y w h write) = 0.

(** ** Running the monad *)

Lemma bind_Ok {A B} (m : M A) (k : A -> M B) s a s' :
  m s = Ok a s' -> bind m k s = k a s'.
Proof. intros H. unfold bind. now rewrite H. Qed.

Lemma bind_Fault {A B} (m : M A) (k : A -> M B) s f :
  m s = Fault f -> bind m k s = Fault f.
Proof. intros H. unfold bind. now rewrite H. Qed.

Lemma bind_inv {A B} (m : M A) (k : A -> M B) s b s' :
  bind m k s = Ok b s' -> exists a s1, m s = Ok a s1 /\ k a s1 = Ok b s'.
Proof.
  unfold bind. destruct (m s) as [a s1|f]; [|discriminate].
  intros H. now exists a, s1.
Qed.

Lemma ret_bind {A B} (a : A) (k : A -> M B) s : bind (ret a) k s = k a s.
Proof. reflexivity. Qed.

Lemma get_trace_eq s : get_trace s = Ok (trace s) s.
Proof. reflexivity. Qed.

Lemma emit_eq e s : emit e s = Ok tt (with_trace (trace s ++ [e]) s).
Proof. reflexivity. Qed.

Lemma load_handle_Ok s h hd :
  h <> NULL -> handles s !! h = Some hd -> load_handle h s = Ok hd s.
Proof.
  intros Hn Hl. unfold load_handle.
  destruct (Z.eqb_spec h NULL); [contradiction|]. now rewrite Hl.
Qed.

Lemma load_handle_NULL s : load_handle NULL s = Fault NullDeref.
Proof. reflexivity. Qed.

Lemma load_handle_inv s h hd s' :
  load_handle h s = Ok hd s' -> s' = s /\ h <> NULL /\ handles s !! h = Some hd.
Proof.
  unfold load_handle. destruct (Z.eqb_spec h NULL); [discriminate|].
  destruct (handles s !! h); [|discriminate].
  intros H. injection H as -> ->. auto.
Qed.

Lemma load_bo_Ok s bo b :
  bo <> NULL -> bos s !! bo = Some b -> load_bo bo s = Ok b s.
Proof.
  intros Hn Hl. unfold load_bo.
  destruct (Z.eqb_spec bo NULL); [contradiction|]. now rewrite Hl.
Qed.

Lemma load_bo_freed s bo :
  bo <> NULL -> bos s !! bo = None -> load_bo bo s = Fault InvalidDeref.
Proof.
  intros Hn Hl. unfold load_bo.
  destruct (Z.eqb_spec bo NULL); [contradiction|]. now rewrite Hl.
Qed.

Lemma store_bo_Ok s bo b f :
  bo <> NULL -> bos s !! bo = Some b ->
  store_bo bo f s = Ok tt (with_bos (<[bo := f b]> (bos s)) s).
Proof.
  intros Hn Hl. unfold store_bo.
  now rewrite (bind_Ok _ _ _ _ _ (load_bo_Ok _ _ _ Hn Hl)).
Qed.

Lemma store_handle_Ok s h hd f :
  h <> NULL -> handles s !! h = Some hd ->
  store_handle h f s = Ok tt (with_handles (<[h := f hd]> (handles s)) s).
Proof.
  intros Hn Hl. unfold store_handle.
  now rewrite (bind_Ok _ _ _ _ _ (load_handle_Ok _ _ _ Hn Hl)).
Qed.

Lemma free_handle_Ok s h hd :
  h <> NULL -> handles s !! h = Some hd ->
  free_handle h s = Ok tt (with_handles (delete h (handles s)) s).
Proof.
  intros Hn Hl. unfold free_handle.
  destruct (Z.eqb_spec h NULL); [contradiction|]. now rewrite Hl.
Qed.

Lemma load_drv_Ok s drm d :
  drm <> NULL -> drms s !! drm = Some d -> drv d <> NULL ->
  load_drv drm s = Ok (drv d) s.
Proof.
  intros Hn Hl Hd. unfold load_drv, bind, load_drm.
  destruct (Z.eqb_spec drm NULL); [contradiction|]. rewrite Hl.
  now destruct (Z.eqb_spec (drv d) NULL).
Qed.

(** ** The structural check *)

Section Check.

Variable p : platform.

Lemma gralloc_drm_handle_NULL s : gralloc_drm_handle p NULL s = Ok NULL s.
Proof. reflexivity. Qed.

Lemma gralloc_drm_handle_good s h hd :
  h <> NULL -> handles s !! h = Some hd -> handle_check p hd = true ->
  gralloc_drm_handle p h s = Ok h s.
Proof.
  intros Hn Hl Hc. unfold gralloc_drm_handle.
  destruct (Z.eqb_spec h NULL); [contradiction|].
  rewrite (bind_Ok _ _ _ _ _ (load_handle_Ok _ _ _ Hn Hl)). now rewrite Hc.
Qed.

Lemma gralloc_drm_handle_bad s h hd :
  handles s !! h = Some hd -> handle_check p hd = false ->
  gralloc_drm_handle p h s = Ok NULL s.
Proof.
  intros Hl Hc. unfold gralloc_drm_handle.
  destruct (Z.eqb_spec h NULL); [reflexivity|].
  rewrite (bind_Ok _ _ _ _ _ (load_handle_Ok _ _ _ n Hl)). now rewrite Hc.
Qed.

(** Whatever the check answers, it leaves the store alone, and a non-null
    answer is the argument itself, live and well formed. *)
Lemma gralloc_drm_handle_inv s h r s' :
  gralloc_drm_handle p h s = Ok r s' ->
  s' = s /\
  (r = NULL \/
   r = h /\ h <> NULL /\
   exists hd, handles s !! h = Some hd /\ handle_check p hd = true).
Proof.
  unfold gralloc_drm_handle. destruct (Z.eqb_spec h NULL) as [->|Hn].
  - intros H. injection H as <- <-. auto.
  - intros H. apply bind_inv in H as (hd & s1 & H1 & H2).
    apply load_handle_inv in H1 as (-> & _ & Hl).
    destruct (handle_check p hd) eqn:Hc; injection H2 as <- <-; eauto 10.
Qed.

End Check.

(** ** Queries *)

(** C10. The two queries answer a handle that fails the structural check
    with their sentinels, 0 for the backend name and -1 for the prime file
    descriptor, and a well-formed handle with the stored field; in both
    cases the store is left as it was. *)
Theorem query_sentinels (p : platform) (s : state) (_handle : Z) :
  (forall s', gralloc_drm_handle p _handle s = Ok NULL s' ->
     gralloc_drm_get_gem_handle p _handle s = Ok 0 s /\
     gralloc_drm_get_prime_fd p _handle s = Ok (-1) s) /\
  (forall hd, _handle <> NULL -> handles s !! _handle = Some hd ->
     handle_check p hd = true ->
     gralloc_drm_get_gem_handle p _handle s = Ok (name hd) s /\
     gralloc_drm_get_prime_fd p _handle s = Ok (prime_fd hd) s).
Proof.
  split.
  - intros s' H. pose proof (gralloc_drm_handle_inv _ _ _ _ _ H) as [-> _].
    unfold gralloc_drm_get_gem_handle, gralloc_drm_get_prime_fd.
    now rewrite !(bind_Ok _ _ _ _ _ H).
  - intros hd Hn Hl Hc.
    pose proof (gralloc_drm_handle_good p _ _ _ Hn Hl Hc) as H.
    unfold gralloc_drm_get_gem_handle, gralloc_drm_get_prime_fd.
    rewrite !(bind_Ok _ _ _ _ _ H).
    destruct (Z.eqb_spec _handle NULL); [contradiction|]. cbn [negb].
    now rewrite !(bind_Ok _ _ _ _ _ (load_handle_Ok _ _ _ Hn Hl)).
Qed.

(** C9. [gralloc_drm_resolve_format] reads [handle->data] before it tests
    [handle]: whenever the structural check yields no handle the call ends
    in a null dereference, and a call that does return had a handle that
    passed the check, so the test of [handle] never decides anything. *)
Theorem resolve_format_null_deref (p : platform) (s : state) (_handle : Z) :
  (forall s', gralloc_drm_handle p _handle s = Ok NULL s' ->
     gralloc_drm_resolve_format p _handle s = Fault NullDeref) /\
  (forall s', gralloc_drm_resolve_format p _handle s = Ok tt s' ->
     gralloc_drm_handle p _handle s = Ok _handle s /\ _handle <> NULL).
Proof.
  split.
  - intros s' H. unfold gralloc_drm_resolve_format.
    rewrite (bind_Ok _ _ _ _ _ H). reflexivity.
  - intros s' H. unfold gralloc_drm_resolve_format in H.
    apply bind_inv in H as (r & s1 & H1 & H2).
    pose proof (gralloc_drm_handle_inv _ _ _ _ _ H1) as [-> Hr].
    destruct Hr as [->|(-> & Hn & _)].
    + rewrite (bind_Fault _ _ _ _ (load_handle_NULL s)) in H2. discriminate.
    + auto.
Qed.

(** ** Handle validation *)

Section Validate.

Variable p : platform.

Lemma get_pid_eq s :
  gralloc_drm_get_pid p s = Ok (current_pid p s) (cache_pid p s).
Proof.
  unfold gralloc_drm_get_pid, current_pid, cache_pid, current_pid.
  destruct (gralloc_drm_pid s =? 0); [reflexivity|]. now destruct s.
Qed.

Lemma current_pid_mk_same s h b d k t :
  current_pid p (mk_state (gralloc_drm_pid s) h b d k t) = current_pid p s.
Proof. reflexivity. Qed.

Lemma current_pid_mk_cached s h b d k t :
  current_pid p (mk_state (current_pid p s) h b d k t) = current_pid p s.
Proof.
  unfold current_pid. cbn [gralloc_drm_pid].
  destruct (gralloc_drm_pid s =? 0) eqn:E; [|now rewrite E].
  now destruct (wrap_int (getpid p) =? 0).
Qed.

Lemma current_pid_cache s : current_pid p (cache_pid p s) = current_pid p s.
Proof. apply current_pid_mk_cached. Qed.

Lemma cache_pid_idem s : cache_pid p (cache_pid p s) = cache_pid p s.
Proof.
  unfold cache_pid at 1. rewrite current_pid_cache. reflexivity.
Qed.

Lemma handles_cache_pid s : handles (cache_pid p s) = handles s.
Proof. reflexivity. Qed.
Lemma bos_cache_pid s : bos (cache_pid p s) = bos s.
Proof. reflexivity. Qed.
Lemma drms_cache_pid s : drms (cache_pid p s) = drms s.
Proof. reflexivity. Qed.
Lemma trace_cache_pid s : trace (cache_pid p s) = trace s.
Proof. reflexivity. Qed.
Lemma brk_cache_pid s : brk (cache_pid p s) = brk s.
Proof. reflexivity. Qed.

(** A handle of this process: the cached reference is the answer. *)
Lemma validate_owned s h hd drm :
  h <> NULL -> handles s !! h = Some hd -> handle_check p hd = true ->
  data_owner hd = current_pid p s ->
  validate_handle p h drm s = Ok (data hd) (cache_pid p s).
Proof.
  intros Hn Hl Hc Ho. unfold validate_handle.
  rewrite (bind_Ok _ _ _ _ _ (gralloc_drm_handle_good p _ _ _ Hn Hl Hc)).
  destruct (Z.eqb_spec h NULL); [contradiction|].
  rewrite (bind_Ok _ _ _ _ _ (load_handle_Ok _ _ _ Hn Hl)).
  rewrite (bind_Ok _ _ _ _ _ (get_pid_eq s)).
  rewrite Ho, Z.eqb_refl. reflexivity.
Qed.

(** A handle of another process, looked up without a context. *)
Lemma validate_foreign_lookup s h hd :
  h <> NULL -> handles s !! h = Some hd -> handle_check p hd = true ->
  data_owner hd <> current_pid p s ->
  validate_handle p h NULL s = Ok NULL (cache_pid p s).
Proof.
  intros Hn Hl Hc Ho. unfold validate_handle.
  rewrite (bind_Ok _ _ _ _ _ (gralloc_drm_handle_good p _ _ _ Hn Hl Hc)).
  destruct (Z.eqb_spec h NULL); [contradiction|].
  rewrite (bind_Ok _ _ _ _ _ (load_handle_Ok _ _ _ Hn Hl)).
  rewrite (bind_Ok _ _ _ _ _ (get_pid_eq s)).
  destruct (Z.eqb_spec (data_owner hd) (current_pid p s)); [contradiction|].
  reflexivity.
Qed.

Lemma validate_malformed s h s' drm :
  gralloc_drm_handle p h s = Ok NULL s' ->
  validate_handle p h drm s = Ok NULL s.
Proof.
  intros H. pose proof (gralloc_drm_handle_inv _ _ _ _ _ H) as [-> _].
  unfold validate_handle. now rewrite (bind_Ok _ _ _ _ _ H).
Qed.

End Validate.

Lemma validate_dangling (p : platform) s h drm :
  h <> NULL -> handles s !! h = None ->
  validate_handle p h drm s = Fault InvalidDeref.
Proof.
  intros Hn Hl. unfold validate_handle, gralloc_drm_handle.
  destruct (Z.eqb_spec h NULL); [contradiction|].
  unfold bind at 1. unfold bind at 1. unfold load_handle.
  destruct (Z.eqb_spec h NULL); [contradiction|]. now rewrite Hl.
Qed.

(** The possible runs of a lookup-only validation. *)
Lemma validate_lookup_cases (p : platform) s h :
  validate_handle p h NULL s = Fault InvalidDeref /\
    h <> NULL /\ handles s !! h = None \/
  validate_handle p h NULL s = Ok NULL s \/
  validate_handle p h NULL s = Ok NULL (cache_pid p s) \/
  exists hd, h <> NULL /\ handles s !! h = Some hd /\
    handle_check p hd = true /\ data_owner hd = current_pid p s /\
    validate_handle p h NULL s = Ok (data hd) (cache_pid p s).
Proof.
  destruct (Z.eq_dec h NULL) as [->|Hn].
  { right; left. eapply validate_malformed, gralloc_drm_handle_NULL. }
  destruct (handles s !! h) as [hd|] eqn:Hl.
  2:{ left. repeat split; auto. eapply validate_dangling; eassumption. }
  destruct (handle_check p hd) eqn:Hc.
  2:{ right; left. eapply validate_malformed, gralloc_drm_handle_bad; eauto. }
  destruct (Z.eq_dec (data_owner hd) (current_pid p s)) as [Ho|Ho].
  - right; right; right. exists hd. repeat split; auto.
    eapply validate_owned; eassumption.
  - right; right; left. eapply validate_foreign_lookup; eassumption.
Qed.

(** What a lookup-only validation returns for a live handle with contents
    [hd]: the cached reference when the handle is well formed and stamped
    by the current process, and nothing otherwise. *)
Lemma validate_lookup_value (p : platform) s h hd :
  h <> NULL -> handles s !! h = Some hd ->
  exists s',
    validate_handle p h NULL s
    = Ok (if handle_check p hd && (data_owner hd =? current_pid p s)
          then data hd else NULL) s'.
Proof.
  intros Hn Hl. destruct (handle_check p hd) eqn:Hc; cbn [andb].
  - destruct (Z.eqb_spec (data_owner hd) (current_pid p s)) as [Ho|Ho].
    + eexists. eapply validate_owned; eassumption.
    + eexists. eapply validate_foreign_lookup; eassumption.
  - eexists. eapply validate_malformed, gralloc_drm_handle_bad; eauto.
Qed.

(** C7. For a well-formed handle owned by the current process, validation
    returns the cached object reference as it is and allocates nothing;
    and a validation without a context never calls the backend and never
    changes a handle (nor an object), whatever the handle: it returns the
    cached reference or nothing, and it does return for every handle that
    is null or allocated.  What it returns is fixed by the handle: the
    reference the handle holds when the handle is well formed and stamped
    by the current process, and nothing for a null handle, a malformed one
    and one stamped by another process, whatever stale reference that one
    carries. *)
Theorem validate_cached_and_lookup_only (p : platform) (s : state)
    (_handle : Z) :
  (forall hd drm, _handle <> NULL -> handles s !! _handle = Some hd ->
     handle_check p hd = true -> data_owner hd = current_pid p s ->
     exists s', validate_handle p _handle drm s = Ok (data hd) s' /\
       trace s' = trace s /\ handles s' = handles s /\ bos s' = bos s /\
       brk s' = brk s) /\
  (forall r s', validate_handle p _handle NULL s = Ok r s' ->
     trace s' = trace s /\ handles s' = handles s /\ bos s' = bos s /\
     brk s' = brk s /\
     (r = NULL \/ exists hd, handles s !! _handle = Some hd /\ r = data hd) /\
     (_handle = NULL -> r = NULL) /\
     (forall hd, _handle <> NULL -> handles s !! _handle = Some hd ->
        r = if handle_check p hd && (data_owner hd =? current_pid p s)
            then data hd else NULL)) /\
  (_handle = NULL \/ is_Some (handles s !! _handle) ->
     exists r s', validate_handle p _handle NULL s = Ok r s').
Proof.
  pose proof (handles_cache_pid p s) as Fh.
  pose proof (bos_cache_pid p s) as Fb.
  pose proof (brk_cache_pid p s) as Fk. pose proof (trace_cache_pid p s) as Ft.
  split; [|split].
  - intros hd drm Hn Hl Hc Ho. exists (cache_pid p s).
    rewrite (validate_owned p s _handle hd drm Hn Hl Hc Ho).
    repeat split; auto.
  - intros r s' H.
    assert (Hnull : _handle = NULL -> r = NULL).
    { intros ->.
      rewrite (validate_malformed p s NULL s NULL
                 (gralloc_drm_handle_NULL p s)) in H.
      now injection H as <- _. }
    assert (Hval : forall hd, _handle <> NULL ->
              handles s !! _handle = Some hd ->
              r = if handle_check p hd
                     && (data_owner hd =? current_pid p s)
                  then data hd else NULL).
    { intros hd Hn Hl.
      destruct (validate_lookup_value p s _handle hd Hn Hl) as [s'' E].
      rewrite E in H. now injection H as <- _. }
    destruct (validate_lookup_cases p s _handle)
      as [(E & _)|[E|[E|(hd & _ & Hl & _ & _ & E)]]];
      rewrite E in H; try discriminate; injection H as <- <-;
      repeat split; eauto.
  - intros Hlive.
    destruct (validate_lookup_cases p s _handle)
      as [(_ & Hn & Hl)|[E|[E|(hd & _ & _ & _ & _ & E)]]]; eauto.
    destruct Hlive as [->|[hd Hhd]]; [contradiction|congruence].
Qed.

(** ** Stepping through a function *)

Ltac store_simpl :=
  cbn [handles bos drms trace brk gralloc_drm_pid
       with_pid with_handles with_bos with_brk with_trace].

(** States are kept as one [mk_state] over the fields of the initial one. *)
Ltac norm :=
  try unfold cache_pid;
  try unfold with_pid; try unfold with_handles; try unfold with_bos;
  try unfold with_brk; try unfold with_trace;
  store_simpl;
  rewrite ?current_pid_mk_same, ?current_pid_mk_cached.

Ltac side :=
  norm; rewrite ?lookup_insert_eq;
  first [eassumption | reflexivity | congruence].

Ltac mstep lem := (erewrite bind_Ok by (eapply lem; side)); norm.

Ltac mpid p := rewrite (bind_Ok _ _ _ _ _ (get_pid_eq p _)); norm.

(** ** A failed import *)

Section FailedImport.

Variable p : platform.

Lemma call_alloc_None s drm d h hd :
  drm <> NULL -> drms s !! drm = Some d -> drv d <> NULL ->
  h <> NULL -> handles s !! h = Some hd ->
  drv_alloc p (trace s) (drv d) hd = None ->
  call_alloc p drm h s
  = Ok NULL (with_trace (trace s ++ [EvAlloc (drv d) h NULL]) s).
Proof.
  intros Hd Hdm Hdv Hn Hl Hal. unfold call_alloc.
  mstep load_drv_Ok. mstep load_handle_Ok.
  rewrite (bind_Ok _ _ _ _ _ (get_trace_eq _)), Hal.
  now rewrite (bind_Ok _ _ _ _ _ (emit_eq _ _)).
Qed.

Lemma call_alloc_Some s drm d h hd out :
  drm <> NULL -> drms s !! drm = Some d -> drv d <> NULL ->
  h <> NULL -> handles s !! h = Some hd ->
  drv_alloc p (trace s) (drv d) hd = Some out ->
  call_alloc p drm h s
  = Ok (Z.pos (brk s))
      (with_trace (trace s ++ [EvAlloc (drv d) h (Z.pos (brk s))])
         (with_brk (Pos.succ (brk s))
            (with_handles
               (<[h := set_backend_ids (out_name out) (out_stride out)
                         (out_prime_fd out) hd]> (handles s))
               (with_bos (<[Z.pos (brk s) := out_bo out]> (bos s)) s)))).
Proof.
  intros Hd Hdm Hdv Hn Hl Hal. unfold call_alloc.
  mstep load_drv_Ok. mstep load_handle_Ok.
  now rewrite (bind_Ok _ _ _ _ _ (get_trace_eq _)), Hal.
Qed.

Lemma validate_failed_import s h hd drm :
  h <> NULL -> handles s !! h = Some hd -> handle_check p hd = true ->
  data_owner hd <> current_pid p s -> drm <> NULL ->
  import_fails p s drm hd ->
  exists s1,
    validate_handle p h drm s = Ok NULL s1 /\
    handles s1 !! h
      = Some (set_data NULL (set_data_owner (current_pid p s) hd)) /\
    current_pid p s1 = current_pid p s /\
    bos s1 = bos s /\
    (trace s1 = trace s \/ exists d, trace s1 = trace s ++ [EvAlloc d h NULL]).
Proof.
  intros Hn Hl Hc Ho Hd Hf. eexists. split.
  { unfold validate_handle.
    mstep gralloc_drm_handle_good.
    destruct (Z.eqb_spec h NULL); [contradiction|].
    mstep load_handle_Ok. mpid p.
    destruct (Z.eqb_spec (data_owner hd) (current_pid p s)); [contradiction|].
    destruct (Z.eqb_spec drm NULL); [contradiction|]. cbn [negb].
    instantiate (1 :=
      with_handles
        (<[h := set_data NULL (set_data_owner (current_pid p s) hd)]>
           (handles s))
        (with_trace
           (trace s ++
            (if name hd =? 0 then []
             else match drms s !! drm with
                  | Some d => [EvAlloc (drv d) h NULL]
                  | None => []
                  end))
           (cache_pid p s))).
    destruct (Z.eqb_spec (name hd) 0) as [Hname|Hname]; cbn [negb].
    - rewrite ret_bind. cbn [Z.eqb NULL negb]. rewrite ret_bind. mpid p.
      mstep store_handle_Ok. mstep store_handle_Ok. mstep load_handle_Ok.
      cbn [data set_data ret]. rewrite insert_insert_eq, app_nil_r.
      reflexivity.
    - destruct Hf as [?|(d & Hdm & Hdv & Hal)]; [contradiction|].
      erewrite bind_Ok by (eapply call_alloc_None; side). norm.
      cbn [Z.eqb NULL negb]. rewrite ret_bind. mpid p.
      mstep store_handle_Ok. mstep store_handle_Ok. mstep load_handle_Ok.
      cbn [data set_data ret]. rewrite insert_insert_eq, Hdm.
      reflexivity. }
  norm. rewrite lookup_insert_eq. repeat split.
  destruct (name hd =? 0); [left; apply app_nil_r|].
  destruct (drms s !! drm) as [d|]; [eauto|left; apply app_nil_r].
Qed.

(** Once the handle caches "no object" for this process, every call on
    it fails at once. *)
Lemma do_call_null_cached s h hd c :
  h <> NULL -> handles s !! h = Some hd -> handle_check p hd = true ->
  data_owner hd = current_pid p s -> data hd = NULL ->
  do_call p h c s = Ok (failure_of c) (cache_pid p s).
Proof.
  intros Hn Hl Hc Ho Hdata. destruct c as [drm|drm]; cbn [do_call failure_of].
  - rewrite (validate_owned p s h hd drm Hn Hl Hc Ho). now rewrite Hdata.
  - unfold gralloc_drm_handle_register.
    rewrite (bind_Ok _ _ _ _ _ (validate_owned p s h hd drm Hn Hl Hc Ho)).
    now rewrite Hdata.
Qed.

Lemma run_calls_null_cached h hd cs : forall s,
  h <> NULL -> handles s !! h = Some hd -> handle_check p hd = true ->
  data_owner hd = current_pid p s -> data hd = NULL ->
  exists s2, run_calls p h cs s = Ok (map failure_of cs) s2 /\
    (s2 = s \/ s2 = cache_pid p s).
Proof.
  induction cs as [|c cs IH]; intros s Hn Hl Hc Ho Hdata.
  - exists s. auto.
  - cbn [run_calls map].
    rewrite (bind_Ok _ _ _ _ _
               (do_call_null_cached s h hd c Hn Hl Hc Ho Hdata)).
    destruct (IH (cache_pid p s)) as (s2 & Hrun & Hs2); auto.
    + now rewrite current_pid_cache.
    + rewrite (bind_Ok _ _ _ _ _ Hrun). exists s2. split; [reflexivity|].
      right. rewrite cache_pid_idem in Hs2. now destruct Hs2.
Qed.

End FailedImport.

(** C8. When validation with a context cannot import (the handle carries no
    backend name, or the backend's [alloc] returns nothing), the handle is
    nevertheless stamped with the current process id and a null object
    reference; the failed attempt is reported as failure (invalid argument
    by [register]), and every later validation or registration of that
    handle in this process, with whatever context, fails in the same way
    without a further call to the backend. *)
Theorem failed_import_sticks (p : platform) (s : state) (_handle drm : Z)
    (hd : gralloc_drm_handle_t) (calls : list handle_call) :
  _handle <> NULL -> handles s !! _handle = Some hd ->
  handle_check p hd = true ->
  data_owner hd <> current_pid p s -> drm <> NULL ->
  import_fails p s drm hd ->
  exists s1 s2,
    validate_handle p _handle drm s = Ok NULL s1 /\
    gralloc_drm_handle_register p _handle drm s = Ok (- EINVAL) s1 /\
    handles s1 !! _handle
      = Some (set_data NULL (set_data_owner (current_pid p s) hd)) /\
    bos s1 = bos s /\
    (trace s1 = trace s \/
     exists d, trace s1 = trace s ++ [EvAlloc d _handle NULL]) /\
    run_calls p _handle calls s1 = Ok (map failure_of calls) s2 /\
    trace s2 = trace s1 /\ handles s2 = handles s1 /\ bos s2 = bos s1.
Proof.
  intros Hn Hl Hc Ho Hd Hf.
  destruct (validate_failed_import p s _handle hd drm Hn Hl Hc Ho Hd Hf)
    as (s1 & Hv & Hh1 & Hp1 & Hb1 & Ht1).
  destruct (run_calls_null_cached p _handle _ calls s1 Hn Hh1)
    as (s2 & Hrun & Hs2); [exact Hc|now rewrite Hp1|reflexivity|].
  exists s1, s2. repeat split; auto.
  - unfold gralloc_drm_handle_register. now rewrite (bind_Ok _ _ _ _ _ Hv).
  - now destruct Hs2 as [->| ->].
  - now destruct Hs2 as [->| ->].
  - now destruct Hs2 as [->| ->].
Qed.

(** ** Reference counting and destruction *)

Lemma state_eta s :
  mk_state (gralloc_drm_pid s) (handles s) (bos s) (drms s) (brk s) (trace s)
  = s.
Proof. now destruct s. Qed.

Lemma live_allocations_app tr tr' :
  live_allocations (tr ++ tr')
  = live_allocations tr + live_allocations tr'.
Proof. induction tr as [|e tr IH]; cbn [app live_allocations]; lia. Qed.

Lemma wrap_uint_small z : 0 <= z < 2 ^ 32 -> wrap_uint z = z.
Proof. intros H. unfold wrap_uint. now apply Z.mod_small. Qed.

Lemma rm_fb_eq s bo b :
  bo <> NULL -> bos s !! bo = Some b ->
  gralloc_drm_bo_rm_fb bo s
  = Ok tt (with_bos (<[bo := set_fb_id 0 b]> (bos s))
             (with_trace (trace s ++ rm_fb_events bo b) s)).
Proof.
  intros Hn Hl. unfold gralloc_drm_bo_rm_fb, rm_fb_events.
  mstep load_bo_Ok. destruct (Z.eqb_spec (fb_id b) 0) as [E|E]; cbn [negb].
  - unfold ret. f_equal. rewrite app_nil_r.
    replace (set_fb_id 0 b) with b by (destruct b; cbn in *; now subst).
    rewrite insert_id by assumption. now destruct s.
  - rewrite (bind_Ok _ _ _ _ _ (emit_eq _ _)). norm.
    erewrite store_bo_Ok by side. reflexivity.
Qed.

Lemma call_free_eq s bo b d :
  bo <> NULL -> bos s !! bo = Some b ->
  drm b <> NULL -> drms s !! drm b = Some d -> drv d <> NULL ->
  call_free bo s
  = Ok tt (with_bos (delete bo (bos s))
             (with_trace (trace s ++ [EvFree (drv d) bo]) s)).
Proof.
  intros Hn Hl Hd Hdm Hdv. unfold call_free.
  mstep load_bo_Ok. mstep load_drv_Ok.
  now rewrite (bind_Ok _ _ _ _ _ (emit_eq _ _)).
Qed.

(** The guard of [gralloc_drm_bo_destroy]: an object that is still
    referenced is left alone. *)
Lemma bo_destroy_referenced s bo b :
  bo <> NULL -> bos s !! bo = Some b -> refcount b <> 0 ->
  gralloc_drm_bo_destroy bo s = Ok tt s.
Proof.
  intros Hn Hl Hr. unfold gralloc_drm_bo_destroy. mstep load_bo_Ok.
  now destruct (Z.eqb_spec (refcount b) 0).
Qed.

Lemma bo_destroy_zero s bo b d hd :
  bo <> NULL -> bos s !! bo = Some b -> refcount b = 0 ->
  drm b <> NULL -> drms s !! drm b = Some d -> drv d <> NULL ->
  handle b <> NULL -> handles s !! handle b = Some hd ->
  gralloc_drm_bo_destroy bo s = Ok tt (destroyed bo b d hd s).
Proof.
  intros Hn Hl Hr Hd Hdm Hdv Hh Hhl. unfold gralloc_drm_bo_destroy.
  mstep load_bo_Ok. rewrite Hr. cbn [Z.eqb negb].
  rewrite (bind_Ok _ _ _ _ _ (rm_fb_eq s bo b Hn Hl)). norm.
  erewrite bind_Ok by (eapply call_free_eq; side). norm.
  unfold destroyed, release_handle. norm.
  destruct (Z.eqb_spec (imported b) 0) as [E|E]; cbn [negb].
  - erewrite free_handle_Ok by side. norm.
    rewrite delete_insert_eq, <- app_assoc. reflexivity.
  - mstep store_handle_Ok. erewrite store_handle_Ok by side. norm.
    rewrite delete_insert_eq, <- app_assoc, insert_insert_eq. reflexivity.
Qed.

Lemma bo_decref_keep s bo b :
  bo <> NULL -> bos s !! bo = Some b -> wrap_uint (refcount b - 1) <> 0 ->
  gralloc_drm_bo_decref bo s
  = Ok tt (with_bos
             (<[bo := set_refcount (wrap_uint (refcount b - 1)) b]> (bos s)) s).
Proof.
  intros Hn Hl Hr. unfold gralloc_drm_bo_decref.
  mstep load_bo_Ok. mstep store_bo_Ok.
  now destruct (Z.eqb_spec (wrap_uint (refcount b - 1)) 0).
Qed.

Lemma bo_decref_last s bo b d hd :
  bo <> NULL -> bos s !! bo = Some b -> wrap_uint (refcount b - 1) = 0 ->
  drm b <> NULL -> drms s !! drm b = Some d -> drv d <> NULL ->
  handle b <> NULL -> handles s !! handle b = Some hd ->
  gralloc_drm_bo_decref bo s = Ok tt (destroyed bo b d hd s).
Proof.
  intros Hn Hl Hr Hd Hdm Hdv Hh Hhl. unfold gralloc_drm_bo_decref.
  mstep load_bo_Ok. mstep store_bo_Ok. rewrite Hr. cbn [Z.eqb].
  erewrite bo_destroy_zero by (side || exact Hdv).
  unfold destroyed, release_handle, rm_fb_events. norm.
  cbn [imported handle fb_id set_refcount]. now rewrite delete_insert_eq.
Qed.

(** ** Creation *)

Section Create.

Variable p : platform.

Lemma Zpos_not_NULL k : Z.pos k <> NULL.
Proof. discriminate. Qed.

(** The object and the handle a successful creation leaves behind. *)
Lemma bo_create_Some s drm d width height format usage out :
  drm <> NULL -> drms s !! drm = Some d -> drv d <> NULL ->
  calloc_ok p (brk s) = true ->
  drv_alloc p (trace s) (drv d)
    (set_plane_mask (planes_for_format p drm format)
       (new_handle p width height format usage)) = Some out ->
  gralloc_drm_bo_create p drm width height format usage s
  = Ok (Z.pos (Pos.succ (brk s)))
      (mk_state (current_pid p s)
         (<[Z.pos (brk s) :=
              set_data (Z.pos (Pos.succ (brk s)))
                (set_data_owner (current_pid p s)
                   (set_backend_ids (out_name out) (out_stride out)
                      (out_prime_fd out)
                      (set_plane_mask (planes_for_format p drm format)
                         (new_handle p width height format usage))))]>
            (handles s))
         (<[Z.pos (Pos.succ (brk s)) :=
              set_refcount 1 (set_fb_id 0 (set_handle (Z.pos (brk s))
                (set_imported 0 (set_drm drm (out_bo out)))))]> (bos s))
         (drms s) (Pos.succ (Pos.succ (brk s)))
         (trace s ++ [EvAlloc (drv d) (Z.pos (brk s))
                        (Z.pos (Pos.succ (brk s)))])).
Proof.
  intros Hd Hdm Hdv Hc Hal.
  pose proof (Zpos_not_NULL (brk s)) as Hh.
  pose proof (Zpos_not_NULL (Pos.succ (brk s))) as Hb.
  unfold gralloc_drm_bo_create.
  unfold bind at 1. unfold create_bo_handle. rewrite Hc. norm.
  destruct (Z.eqb_spec (Z.pos (brk s)) NULL) as [E|_]; [discriminate E|].
  mstep store_handle_Ok.
  erewrite bind_Ok by (eapply call_alloc_Some; side). norm.
  destruct (Z.eqb_spec (Z.pos (Pos.succ (brk s))) NULL) as [E|_];
    [discriminate E|].
  mstep store_bo_Ok. mstep store_bo_Ok. mstep store_bo_Ok.
  mstep store_bo_Ok. mstep store_bo_Ok. mpid p.
  mstep store_handle_Ok. mstep store_handle_Ok.
  unfold ret. now rewrite !insert_insert_eq.
Qed.

(** The two ways a creation fails: no memory for the handle, or a backend
    that allocates nothing; the handle is gone again in both. *)
Lemma bo_create_calloc_fails s drm width height format usage :
  calloc_ok p (brk s) = false ->
  gralloc_drm_bo_create p drm width height format usage s
  = Ok NULL (with_brk (Pos.succ (brk s)) s).
Proof.
  intros Hc. unfold gralloc_drm_bo_create.
  unfold bind at 1. unfold create_bo_handle. now rewrite Hc.
Qed.

Lemma bo_create_alloc_fails s drm d width height format usage :
  drm <> NULL -> drms s !! drm = Some d -> drv d <> NULL ->
  calloc_ok p (brk s) = true ->
  drv_alloc p (trace s) (drv d)
    (set_plane_mask (planes_for_format p drm format)
       (new_handle p width height format usage)) = None ->
  gralloc_drm_bo_create p drm width height format usage s
  = Ok NULL
      (with_handles (delete (Z.pos (brk s)) (handles s))
         (with_trace (trace s ++ [EvAlloc (drv d) (Z.pos (brk s)) NULL])
            (with_brk (Pos.succ (brk s)) s))).
Proof.
  intros Hd Hdm Hdv Hc Hal.
  pose proof (Zpos_not_NULL (brk s)) as Hh.
  unfold gralloc_drm_bo_create.
  unfold bind at 1. unfold create_bo_handle. rewrite Hc. norm.
  destruct (Z.eqb_spec (Z.pos (brk s)) NULL) as [E|_]; [discriminate E|].
  mstep store_handle_Ok.
  erewrite bind_Ok by (eapply call_alloc_None; side). norm.
  cbn [Z.eqb NULL]. erewrite bind_Ok by (eapply free_handle_Ok; side). norm.
  unfold ret. now rewrite !delete_insert_eq.
Qed.

End Create.

(** C6. [gralloc_drm_bo_decref] takes one reference away and, exactly when
    none is left, runs the destruction sequence at once: the display
    binding is removed, the backend frees the object, and the handle is
    reset (imported object) or freed (local object).  So an object that
    [gralloc_drm_bo_create] returns is gone after one [gralloc_drm_bo_decref],
    the backend having freed what it allocated; a creation that returns
    nothing leaves no allocation either.  [gralloc_drm_bo_destroy] on an
    object that is still referenced does nothing. *)
Theorem decref_destroys_at_zero (p : platform) (s : state) :
  (forall bo b d hd,
     bo <> NULL -> bos s !! bo = Some b -> 1 <= refcount b < 2 ^ 32 ->
     drm b <> NULL -> drms s !! drm b = Some d -> drv d <> NULL ->
     handle b <> NULL -> handles s !! handle b = Some hd ->
     gralloc_drm_bo_decref bo s
     = Ok tt (if refcount b - 1 =? 0 then destroyed bo b d hd s
              else with_bos
                     (<[bo := set_refcount (refcount b - 1) b]> (bos s)) s)) /\
  (forall drm d width height format usage,
     drm <> NULL -> drms s !! drm = Some d -> drv d <> NULL ->
     exists bo s1,
       gralloc_drm_bo_create p drm width height format usage s = Ok bo s1 /\
       (bo = NULL ->
          live_allocations (trace s1) = live_allocations (trace s) /\
          bos s1 = bos s) /\
       (bo <> NULL ->
          exists s2,
            gralloc_drm_bo_decref bo s1 = Ok tt s2 /\
            trace s2 = trace s ++ [EvAlloc (drv d) (Z.pos (brk s)) bo;
                                   EvFree (drv d) bo] /\
            live_allocations (trace s2) = live_allocations (trace s) /\
            bos s2 !! bo = None /\ handles s2 !! Z.pos (brk s) = None)) /\
  (forall bo b,
     bo <> NULL -> bos s !! bo = Some b -> refcount b <> 0 ->
     gralloc_drm_bo_destroy bo s = Ok tt s).
Proof.
  split; [|split].
  - intros bo b d hd Hn Hl Hr Hd Hdm Hdv Hh Hhl.
    assert (Hw : wrap_uint (refcount b - 1) = refcount b - 1)
      by (apply wrap_uint_small; lia).
    destruct (Z.eqb_spec (refcount b - 1) 0) as [E|E].
    + apply bo_decref_last; auto. now rewrite Hw.
    + rewrite bo_decref_keep with (b := b); auto; rewrite Hw; auto.
  - intros dm d width height fmt usage Hd Hdm Hdv.
    destruct (calloc_ok p (brk s)) eqn:Hc.
    2:{ eexists _, _. split; [apply bo_create_calloc_fails, Hc|].
        split; [|intros []; reflexivity]. intros _. norm.
        split; reflexivity. }
    destruct (drv_alloc p (trace s) (drv d)
                (set_plane_mask (planes_for_format p dm fmt)
                   (new_handle p width height fmt usage)))
      as [out|] eqn:Hal.
    2:{ eexists _, _. split; [eapply bo_create_alloc_fails; eassumption|].
        split; [|intros []; reflexivity]. intros _. norm.
        rewrite live_allocations_app. cbn. split; [lia|reflexivity]. }
    eexists _, _. split; [eapply bo_create_Some; eassumption|].
    split; [discriminate|]. intros _.
    eexists. split.
    { eapply bo_decref_last; norm; rewrite ?lookup_insert_eq;
        try reflexivity; try eassumption; try discriminate.
      all: cbn [handle drm set_refcount set_fb_id set_handle set_imported
                set_drm]; rewrite ?lookup_insert_eq;
        try reflexivity; try eassumption; try discriminate. }
    unfold destroyed, release_handle, rm_fb_events. norm.
    cbn [imported handle fb_id set_refcount set_fb_id set_handle
         set_imported set_drm Z.eqb app].
    rewrite !lookup_delete_eq, <- app_assoc, !live_allocations_app.
    cbn. repeat split. lia.
  - intros bo b. apply bo_destroy_referenced.
Qed.

(** ** Lock and unlock *)

Section Lock.

Variable p : platform.

Lemma call_map_eq s bo b d x y w h write :
  bo <> NULL -> bos s !! bo = Some b ->
  drm b <> NULL -> drms s !! drm b = Some d -> drv d <> NULL ->
  call_map p bo x y w h write s
  = let r := drv_map p (trace s) (drv d) bo x y w h write in
    Ok (if fst r =? 0 then (0, Some (snd r)) else (fst r, None))
       (with_trace (trace s ++ [EvMap (drv d) bo x y w h write]) s).
Proof.
  intros Hn Hl Hd Hdm Hdv. unfold call_map.
  mstep load_bo_Ok. mstep load_drv_Ok.
  rewrite (bind_Ok _ _ _ _ _ (get_trace_eq _)).
  rewrite (bind_Ok _ _ _ _ _ (emit_eq _ _)). cbn zeta.
  now destruct (fst (drv_map p (trace s) (drv d) bo x y w h write) =? 0).
Qed.

Lemma call_unmap_eq s bo b d :
  bo <> NULL -> bos s !! bo = Some b ->
  drm b <> NULL -> drms s !! drm b = Some d -> drv d <> NULL ->
  call_unmap bo s = Ok tt (with_trace (trace s ++ [EvUnmap (drv d) bo]) s).
Proof.
  intros Hn Hl Hd Hdm Hdv. unfold call_unmap.
  mstep load_bo_Ok. mstep load_drv_Ok. reflexivity.
Qed.

(** The lock, read off the code: two rejections, then the mapping when
    the CPU is involved, then the bookkeeping. *)
Lemma bo_lock_eq s bo b hd d u x y w h :
  bo <> NULL -> bos s !! bo = Some b ->
  handle b <> NULL -> handles s !! handle b = Some hd ->
  drm b <> NULL -> drms s !! drm b = Some d -> drv d <> NULL ->
  gralloc_drm_bo_lock p bo u x y w h s
  = if negb (Z.land (usage hd) u =? u)
       && (Z.land (usage hd) lock_exception_flags =? 0)
    then Ok (- EINVAL, None) s
    else if negb (lock_count b =? 0) && negb (Z.land (locked_for b) u =? u)
    then Ok (- EINVAL, None) s
    else if cpu_access (Z.lor u (locked_for b)) then
      let r := drv_map p (trace s) (drv d) bo x y w h
                 (write_flag (Z.lor u (locked_for b))) in
      let s1 := with_trace
                  (trace s ++ [EvMap (drv d) bo x y w h
                                 (write_flag (Z.lor u (locked_for b)))]) s in
      if fst r =? 0
      then Ok (0, Some (snd r))
              (with_bos (<[bo := locked_bo u b]> (bos s)) s1)
      else Ok (fst r, None) s1
    else Ok (0, None) (with_bos (<[bo := locked_bo u b]> (bos s)) s).
Proof.
  intros Hn Hl Hh Hhl Hd Hdm Hdv. unfold gralloc_drm_bo_lock.
  mstep load_bo_Ok. mstep load_handle_Ok.
  destruct (negb (Z.land (usage hd) u =? u)
            && (Z.land (usage hd) lock_exception_flags =? 0));
    [reflexivity|].
  destruct (negb (lock_count b =? 0) && negb (Z.land (locked_for b) u =? u));
    [reflexivity|].
  unfold cpu_access.
  destruct (negb (Z.land (Z.lor u (locked_for b)) sw_access_mask =? 0)).
  - erewrite bind_Ok by (eapply call_map_eq; side). norm. cbn zeta.
    fold (write_flag (Z.lor u (locked_for b))).
    destruct (fst (drv_map p (trace s) (drv d) bo x y w h
                     (write_flag (Z.lor u (locked_for b)))) =? 0) eqn:E.
    + cbn [fst snd Z.eqb negb]. mstep load_bo_Ok.
      mstep store_bo_Ok. mstep store_bo_Ok.
      unfold ret, locked_bo. now rewrite insert_insert_eq.
    + cbn [fst]. rewrite E. reflexivity.
  - rewrite ret_bind. cbn [fst snd Z.eqb negb]. mstep load_bo_Ok.
    mstep store_bo_Ok. mstep store_bo_Ok.
    unfold ret, locked_bo. now rewrite insert_insert_eq.
Qed.

(** The unlock, read off the code. *)
Lemma bo_unlock_eq s bo b d :
  bo <> NULL -> bos s !! bo = Some b ->
  (cpu_access (locked_for b) = true ->
   drm b <> NULL /\ drms s !! drm b = Some d /\ drv d <> NULL) ->
  gralloc_drm_bo_unlock bo s
  = if lock_count b =? 0 then Ok tt s
    else Ok tt
           (with_bos (<[bo := unlocked_bo b]> (bos s))
              (with_trace
                 (trace s ++ (if cpu_access (locked_for b)
                              then [EvUnmap (drv d) bo] else [])) s)).
Proof.
  intros Hn Hl Hmap. unfold gralloc_drm_bo_unlock.
  mstep load_bo_Ok. destruct (lock_count b =? 0); [reflexivity|].
  unfold cpu_access in *.
  destruct (negb (Z.land (locked_for b) sw_access_mask =? 0)).
  - destruct Hmap as (Hd & Hdm & Hdv); [reflexivity|].
    erewrite bind_Ok by (eapply call_unmap_eq; side). norm.
    mstep load_bo_Ok. mstep store_bo_Ok. mstep load_bo_Ok.
    unfold unlocked_bo. cbn [lock_count set_lock_count].
    destruct (wrap_int (lock_count b - 1) =? 0).
    + erewrite store_bo_Ok by side. norm. now rewrite insert_insert_eq.
    + reflexivity.
  - rewrite ret_bind. mstep load_bo_Ok. mstep store_bo_Ok. mstep load_bo_Ok.
    unfold unlocked_bo. cbn [lock_count set_lock_count].
    rewrite app_nil_r.
    destruct (wrap_int (lock_count b - 1) =? 0).
    + erewrite store_bo_Ok by side. norm. now rewrite insert_insert_eq.
    + unfold ret. reflexivity.
Qed.

End Lock.

Lemma wrap_int_small z : - 2 ^ 31 <= z < 2 ^ 31 -> wrap_int z = z.
Proof. intros H. unfold wrap_int. rewrite Z.mod_small; lia. Qed.

Lemma map_calls_app tr tr' :
  map_calls (tr ++ tr') = (map_calls tr + map_calls tr')%nat.
Proof. unfold map_calls. now rewrite List.filter_app, length_app. Qed.

Lemma unmap_calls_app tr tr' :
  unmap_calls (tr ++ tr') = (unmap_calls tr + unmap_calls tr')%nat.
Proof. unfold unmap_calls. now rewrite List.filter_app, length_app. Qed.

(** C5. Unlocking an object that is not locked changes nothing and calls
    nothing.  Unlocking a locked object calls the backend's [unmap] exactly
    when the accumulated usage has a CPU read/write bit, takes one off the
    lock count and clears the accumulated usage exactly when the count
    reaches zero; nothing else changes. *)
Theorem unlock_behaviour (s : state) (bo : Z) (b : gralloc_drm_bo_t)
    (d : gralloc_drm_t) :
  bo <> NULL -> bos s !! bo = Some b ->
  (cpu_access (locked_for b) = true ->
   drm b <> NULL /\ drms s !! drm b = Some d /\ drv d <> NULL) ->
  (lock_count b = 0 -> gralloc_drm_bo_unlock bo s = Ok tt s) /\
  (0 < lock_count b < 2 ^ 31 ->
   exists s' b',
     gralloc_drm_bo_unlock bo s = Ok tt s' /\
     trace s' = trace s ++ (if cpu_access (locked_for b)
                            then [EvUnmap (drv d) bo] else []) /\
     bos s' = <[bo := b']> (bos s) /\ handles s' = handles s /\
     lock_count b' = lock_count b - 1 /\
     locked_for b' = (if lock_count b - 1 =? 0 then 0 else locked_for b) /\
     refcount b' = refcount b /\ imported b' = imported b /\
     handle b' = handle b /\ drm b' = drm b /\ fb_id b' = fb_id b /\
     fb_handle b' = fb_handle b).
Proof.
  intros Hn Hl Hmap.
  rewrite (bo_unlock_eq s bo b d Hn Hl Hmap). split.
  - intros ->. reflexivity.
  - intros Hc. destruct (Z.eqb_spec (lock_count b) 0); [lia|].
    eexists _, (unlocked_bo b). split; [reflexivity|]. norm.
    unfold unlocked_bo. rewrite wrap_int_small by lia.
    destruct (lock_count b - 1 =? 0); repeat split.
Qed.

(** C4, as the code has it.  For a live object that is not locked a
    negative number of times, the lock fails exactly in three cases: (1)
    with invalid-argument when the requested usage is not contained in the
    handle's usage and the handle's usage has no bit of the exception set,
    which is CPU-read-often, framebuffer, texture and video encoder; (2)
    with invalid-argument when the object is locked and the requested bits
    are not all in the accumulated usage; (3) with the backend's error when
    the usage union has a CPU read/write bit and [map] fails.  In all three
    the objects and handles, so lock count and accumulated usage, are as
    before. *)
Theorem lock_failure_cases (p : platform) (s : state) (bo : Z)
    (b : gralloc_drm_bo_t) (hd : gralloc_drm_handle_t) (d : gralloc_drm_t)
    (u x y w h : Z) :
  bo <> NULL -> bos s !! bo = Some b ->
  handle b <> NULL -> handles s !! handle b = Some hd ->
  drm b <> NULL -> drms s !! drm b = Some d -> drv d <> NULL ->
  0 <= lock_count b ->
  let union := Z.lor u (locked_for b) in
  let err := fst (drv_map p (trace s) (drv d) bo x y w h (write_flag union)) in
  let case1 := Z.land (usage hd) u <> u /\
               Z.land (usage hd) lock_exception_flags = 0 in
  let case2 := 0 < lock_count b /\ Z.land (locked_for b) u <> u in
  let case3 := cpu_access union = true /\ err <> 0 in
  exists r s',
    gralloc_drm_bo_lock p bo u x y w h s = Ok r s' /\
    (fst r <> 0 <-> case1 \/ case2 \/ case3) /\
    (case1 \/ case2 -> r = (- EINVAL, None) /\ s' = s) /\
    (~ case1 -> ~ case2 -> case3 -> r = (err, None)) /\
    (fst r <> 0 -> bos s' = bos s /\ handles s' = handles s).
Proof.
  intros Hn Hl Hh Hhl Hd Hdm Hdv Hc union err case1 case2 case3.
  rewrite (bo_lock_eq p s bo b hd d u x y w h Hn Hl Hh Hhl Hd Hdm Hdv).
  fold union. cbn zeta. fold err.
  destruct (Z.eqb_spec (Z.land (usage hd) u) u) as [E1|E1];
    destruct (Z.eqb_spec (Z.land (usage hd) lock_exception_flags) 0)
      as [E2|E2]; cbn [negb andb];
    try (eexists _, _; split; [reflexivity|]; cbn [fst];
         subst case1 case2 case3; repeat split; auto;
         solve [intuition (discriminate || lia || congruence)]).
  all: destruct (Z.eqb_spec (lock_count b) 0) as [E3|E3];
    destruct (Z.eqb_spec (Z.land (locked_for b) u) u) as [E4|E4];
    cbn [negb andb];
    try (eexists _, _; split; [reflexivity|]; cbn [fst];
         subst case1 case2 case3; repeat split; auto;
         solve [intuition (discriminate || lia || congruence)]).
  all: destruct (cpu_access union) eqn:E5;
    [destruct (Z.eqb_spec err 0) as [E6|E6]|];
    eexists _, _; (split; [reflexivity|]); cbn [fst];
    subst case1 case2 case3; repeat split; auto;
    try solve [intuition (discriminate || lia || congruence)].
Qed.

(** C3, as the code has it.  A successful lock whose usage union has no CPU
    read/write bit does not call the backend's [map]; a successful lock
    whose union has one calls [map] exactly once, on every such call and
    not only when the object goes from unmapped to mapped; and every unlock
    of a locked object whose accumulated usage has a CPU read/write bit
    calls [unmap] exactly once, not only the release of the last lock. *)
Theorem map_unmap_per_call (p : platform) (s : state) (bo : Z)
    (b : gralloc_drm_bo_t) (hd : gralloc_drm_handle_t) (d : gralloc_drm_t)
    (u x y w h : Z) :
  bo <> NULL -> bos s !! bo = Some b ->
  handle b <> NULL -> handles s !! handle b = Some hd ->
  drm b <> NULL -> drms s !! drm b = Some d -> drv d <> NULL ->
  (exists r s',
     gralloc_drm_bo_lock p bo u x y w h s = Ok r s' /\
     (fst r = 0 ->
      if cpu_access (Z.lor u (locked_for b))
      then trace s' = trace s ++ [EvMap (drv d) bo x y w h
                                    (write_flag (Z.lor u (locked_for b)))] /\
           map_calls (trace s') = S (map_calls (trace s))
      else trace s' = trace s)) /\
  (0 < lock_count b ->
   exists s',
     gralloc_drm_bo_unlock bo s = Ok tt s' /\
     if cpu_access (locked_for b)
     then trace s' = trace s ++ [EvUnmap (drv d) bo] /\
          unmap_calls (trace s') = S (unmap_calls (trace s))
     else trace s' = trace s).
Proof.
  intros Hn Hl Hh Hhl Hd Hdm Hdv. split.
  - rewrite (bo_lock_eq p s bo b hd d u x y w h Hn Hl Hh Hhl Hd Hdm Hdv).
    destruct (negb (Z.land (usage hd) u =? u)
              && (Z.land (usage hd) lock_exception_flags =? 0)).
    { eexists _, _. split; [reflexivity|]. discriminate. }
    destruct (negb (lock_count b =? 0)
              && negb (Z.land (locked_for b) u =? u)).
    { eexists _, _. split; [reflexivity|]. discriminate. }
    destruct (cpu_access (Z.lor u (locked_for b))); cbn zeta.
    + destruct (Z.eqb_spec
                  (fst (drv_map p (trace s) (drv d) bo x y w h
                          (write_flag (Z.lor u (locked_for b))))) 0).
      * eexists _, _. split; [reflexivity|]. intros _. norm.
        rewrite map_calls_app. cbn. split; [reflexivity|lia].
      * eexists _, _. split; [reflexivity|]. cbn [fst]. contradiction.
    + eexists _, _. split; [reflexivity|]. reflexivity.
  - intros Hc.
    rewrite (bo_unlock_eq s bo b d Hn Hl) by auto.
    destruct (Z.eqb_spec (lock_count b) 0); [lia|].
    eexists. split; [reflexivity|]. norm.
    destruct (cpu_access (locked_for b)).
    + rewrite unmap_calls_app. cbn. split; [reflexivity|lia].
    + apply app_nil_r.
Qed.

(** ** Registration *)

Section Register.

Variable p : platform.

Lemma owns_rc_state s h hd bo b r :
  owns p s h hd bo b ->
  owns p (rc_state p s bo b r) h hd bo (set_refcount r b).
Proof.
  intros (Hn & Hl & Hc & Ho & Hdata & Hb & Hbl). unfold owns, rc_state. norm.
  rewrite lookup_insert_eq. repeat split; auto.
Qed.




(** Unregistering when the first decrement leaves a reference: the flag
    [imported] is read from the live object. *)
Lemma unregister_referenced s h hd bo b :
  owns p s h hd bo b -> wrap_uint (refcount b - 1) <> 0 ->
  gralloc_drm_handle_unregister p h s
  = if imported b =? 0
    then Ok 0 (rc_state p s bo b (wrap_uint (refcount b - 1)))
    else bind (gralloc_drm_bo_decref bo) (fun _ => ret 0)
           (rc_state p s bo b (wrap_uint (refcount b - 1))).
Proof.
  intros (Hn & Hl & Hc & Ho & Hdata & Hb & Hbl) Hr.
  unfold gralloc_drm_handle_unregister.
  rewrite (bind_Ok _ _ _ _ _ (validate_owned p s h hd NULL Hn Hl Hc Ho)).
  rewrite Hdata. destruct (Z.eqb_spec bo NULL); [contradiction|].
  erewrite bind_Ok by (eapply bo_decref_keep; side). norm.
  mstep load_bo_Ok. cbn [imported set_refcount].
  destruct (imported b =? 0); reflexivity.
Qed.

(** Unregistering when the first decrement takes the last reference: the
    object is destroyed, and the flag [imported] is then read from it. *)
Lemma unregister_last_reference s h hd bo b d hd' :
  owns p s h hd bo b -> wrap_uint (refcount b - 1) = 0 ->
  drm b <> NULL -> drms s !! drm b = Some d -> drv d <> NULL ->
  handle b <> NULL -> handles s !! handle b = Some hd' ->
  gralloc_drm_handle_unregister p h s = Fault InvalidDeref.
Proof.
  intros (Hn & Hl & Hc & Ho & Hdata & Hb & Hbl) Hr Hd Hdm Hdv Hh Hhl.
  unfold gralloc_drm_handle_unregister.
  rewrite (bind_Ok _ _ _ _ _ (validate_owned p s h hd NULL Hn Hl Hc Ho)).
  rewrite Hdata. destruct (Z.eqb_spec bo NULL); [contradiction|].
  erewrite bind_Ok by (eapply bo_decref_last; side).
  erewrite bind_Fault; [reflexivity|].
  apply load_bo_freed; [assumption|].
  unfold destroyed. norm. apply lookup_delete_eq.
Qed.

(** A local object that stays referenced loses one reference. *)
Lemma unregister_local s h hd bo b :
  owns p s h hd bo b -> imported b = 0 -> 2 <= refcount b < 2 ^ 32 ->
  gralloc_drm_handle_unregister p h s
  = Ok 0 (rc_state p s bo b (refcount b - 1)).
Proof.
  intros Ho Hi Hr.
  assert (Hw : wrap_uint (refcount b - 1) = refcount b - 1)
    by (apply wrap_uint_small; lia).
  rewrite (unregister_referenced s h hd bo b Ho) by (rewrite Hw; lia).
  now rewrite Hi, Hw.
Qed.

(** The second decrement of an imported object. *)
Lemma unregister_imported s h hd bo b d hd' :
  owns p s h hd bo b -> destructible s b d hd' ->
  imported b <> 0 -> 2 <= refcount b < 2 ^ 32 ->
  gralloc_drm_handle_unregister p h s
  = Ok 0 (if refcount b - 2 =? 0
          then destroyed bo (set_refcount 1 b) d hd'
                 (rc_state p s bo b 1)
          else rc_state p s bo b (refcount b - 2)).
Proof.
  intros Ho (Hd & Hdm & Hdv & Hh & Hhl) Hi Hr.
  assert (Hw : wrap_uint (refcount b - 1) = refcount b - 1)
    by (apply wrap_uint_small; lia).
  rewrite (unregister_referenced s h hd bo b Ho) by (rewrite Hw; lia).
  rewrite Hw. destruct (Z.eqb_spec (imported b) 0); [contradiction|].
  pose proof (owns_rc_state s h hd bo b (refcount b - 1) Ho)
    as (_ & _ & _ & _ & _ & Hb & Hbl).
  destruct (Z.eqb_spec (refcount b - 2) 0) as [E|E].
  - replace (refcount b - 1) with 1 in * by lia.
    erewrite bind_Ok; [reflexivity|].
    eapply bo_decref_last; try eassumption; reflexivity.
  - erewrite bind_Ok; [|eapply bo_decref_keep; try eassumption].
    + unfold ret. f_equal. cbn [refcount set_refcount].
      rewrite wrap_uint_small by lia.
      replace (refcount b - 1 - 1) with (refcount b - 2) by lia.
      unfold rc_state. norm. cbn [set_refcount imported handle drm fb_id
        fb_handle lock_count locked_for]. now rewrite insert_insert_eq.
    + cbn [refcount set_refcount]. rewrite wrap_uint_small by lia. lia.
Qed.



(** Validation with a context imports a handle from another process. *)
Lemma validate_imports s h hd drm d out :
  importable p s h hd drm d out ->
  validate_handle p h drm s
  = Ok (Z.pos (brk s))
      (mk_state (current_pid p s)
         (<[h := imported_handle (current_pid p s) (Z.pos (brk s)) out hd]>
            (handles s))
         (<[Z.pos (brk s) := imported_bo drm h out 1]> (bos s))
         (drms s) (Pos.succ (brk s))
         (trace s ++ [EvAlloc (drv d) h (Z.pos (brk s))])).
Proof.
  intros (Hn & Hl & Hc & Ho & Hname & Hd & Hdm & Hdv & Hal).
  pose proof (Zpos_not_NULL (brk s)) as Hb.
  unfold validate_handle.
  mstep gralloc_drm_handle_good.
  destruct (Z.eqb_spec h NULL); [contradiction|].
  mstep load_handle_Ok. mpid p.
  destruct (Z.eqb_spec (data_owner hd) (current_pid p s)); [contradiction|].
  destruct (Z.eqb_spec drm NULL); [contradiction|].
  destruct (Z.eqb_spec (name hd) 0); [contradiction|]. cbn [negb].
  erewrite bind_Ok by (eapply call_alloc_Some; side). norm.
  destruct (Z.eqb_spec (Z.pos (brk s)) NULL) as [E|_]; [discriminate E|].
  cbn [negb].
  erewrite bind_Ok.
  2:{ mstep store_bo_Ok. mstep store_bo_Ok. mstep store_bo_Ok.
      erewrite store_bo_Ok by side. norm. reflexivity. }
  mpid p. mstep store_handle_Ok. mstep store_handle_Ok.
  mstep load_handle_Ok. cbn [data set_data].
  unfold ret, imported_handle, imported_bo. rewrite !insert_insert_eq.
  reflexivity.
Qed.

(** The first registration of a handle from another process: one reference
    from the import, one from the registration. *)
Lemma register_imports s h hd drm d out :
  importable p s h hd drm d out ->
  gralloc_drm_handle_register p h drm s
  = Ok 0
      (mk_state (current_pid p s)
         (<[h := imported_handle (current_pid p s) (Z.pos (brk s)) out hd]>
            (handles s))
         (<[Z.pos (brk s) := imported_bo drm h out 2]> (bos s))
         (drms s) (Pos.succ (brk s))
         (trace s ++ [EvAlloc (drv d) h (Z.pos (brk s))])).
Proof.
  intros Hi. pose proof (Zpos_not_NULL (brk s)) as Hb.
  unfold gralloc_drm_handle_register.
  rewrite (bind_Ok _ _ _ _ _ (validate_imports s h hd drm d out Hi)).
  destruct (Z.eqb_spec (Z.pos (brk s)) NULL) as [E|_]; [discriminate E|].
  mstep load_bo_Ok. mstep store_bo_Ok.
  unfold ret, imported_bo. rewrite !insert_insert_eq.
  reflexivity.
Qed.

End Register.


(** C1. [gralloc_drm_handle_unregister] on a handle whose object is found
    takes one reference and then, for an imported object, a second one,
    in that order, as long as the first decrement leaves a reference.  When
    the first decrement takes the last reference the object is destroyed,
    and the test of its [imported] flag that follows reads the destroyed
    object: the call does not complete. *)
Theorem unregister_decrement_order (p : platform) (s : state) (_handle : Z)
    (hd : gralloc_drm_handle_t) (bo : Z) (b : gralloc_drm_bo_t)
    (d : gralloc_drm_t) (hd' : gralloc_drm_handle_t) :
  owns p s _handle hd bo b -> destructible s b d hd' ->
  1 <= refcount b < 2 ^ 32 ->
  (2 <= refcount b -> imported b = 0 ->
   gralloc_drm_handle_unregister p _handle s
   = Ok 0 (rc_state p s bo b (refcount b - 1))) /\
  (2 <= refcount b -> imported b <> 0 ->
   gralloc_drm_handle_unregister p _handle s
   = Ok 0 (if refcount b - 2 =? 0
           then destroyed bo (set_refcount 1 b) d hd' (rc_state p s bo b 1)
           else rc_state p s bo b (refcount b - 2))) /\
  (refcount b = 1 ->
   gralloc_drm_handle_unregister p _handle s = Fault InvalidDeref).
Proof.
  intros Ho Hdes Hr. split; [|split].
  - intros H2 Hi. eapply unregister_local; eauto. lia.
  - intros H2 Hi. eapply unregister_imported; eauto. lia.
  - intros H1. destruct Hdes as (Hd & Hdm & Hdv & Hh & Hhl).
    eapply unregister_last_reference; eauto. now rewrite H1.
Qed.


(** ** The statements at concrete inputs *)

(** Side conditions at a concrete input are settled by evaluation. *)
Ltac ev :=
  intros; repeat split;
  first [discriminate | reflexivity | (vm_compute; reflexivity) | (cbn; lia)].

Lemma query_sentinels_witness :
  gralloc_drm_get_gem_handle demo_platform NULL
    (arrived_state (demo_handle 3 7 999 77))
  = Ok 0 (arrived_state (demo_handle 3 7 999 77)) /\
  gralloc_drm_get_prime_fd demo_platform NULL
    (arrived_state (demo_handle 3 7 999 77))
  = Ok (-1) (arrived_state (demo_handle 3 7 999 77)) /\
  gralloc_drm_get_gem_handle demo_platform 1
    (arrived_state (demo_handle 3 7 999 77))
  = Ok 7 (arrived_state (demo_handle 3 7 999 77)) /\
  gralloc_drm_get_prime_fd demo_platform 1
    (arrived_state (demo_handle 3 7 999 77))
  = Ok (-1) (arrived_state (demo_handle 3 7 999 77)).
Proof.
  pose proof (query_sentinels demo_platform
                (arrived_state (demo_handle 3 7 999 77)) NULL) as [H0 _].
  pose proof (query_sentinels demo_platform
                (arrived_state (demo_handle 3 7 999 77)) 1) as [_ H1].
  destruct (H0 _ eq_refl) as [G0 F0].
  destruct (H1 (demo_handle 3 7 999 77) ltac:(discriminate) eq_refl eq_refl)
    as [G1 F1].
  repeat split; assumption.
Defined.

Lemma resolve_format_null_deref_witness :
  gralloc_drm_resolve_format demo_platform NULL
    (arrived_state (demo_handle 3 7 999 77)) = Fault NullDeref.
Proof.
  exact (proj1 (resolve_format_null_deref demo_platform
                  (arrived_state (demo_handle 3 7 999 77)) NULL) _ eq_refl).
Defined.

Lemma validate_cached_and_lookup_only_witness :
  (exists s',
     validate_handle demo_platform 1 100
       (demo_state (demo_handle 3 7 1234 2) (demo_bo 0 1 0 0)) = Ok 2 s' /\
     trace s' = []) /\
  (exists s',
     validate_handle demo_platform 1 NULL
       (arrived_state (demo_handle 3 7 999 77)) = Ok NULL s' /\
     handles s' = {[ 1 := demo_handle 3 7 999 77 ]}) /\
  (exists s',
     validate_handle demo_platform 1 NULL
       (demo_state (demo_handle 3 7 1234 2) (demo_bo 0 1 0 0)) = Ok 2 s' /\
     handles s' = {[ 1 := demo_handle 3 7 1234 2 ]}).
Proof.
  split; [|split].
  - destruct (proj1 (validate_cached_and_lookup_only demo_platform
                       (demo_state (demo_handle 3 7 1234 2) (demo_bo 0 1 0 0))
                       1)
                (demo_handle 3 7 1234 2) 100
                ltac:(discriminate) eq_refl eq_refl eq_refl)
      as (s' & Hv & Ht & _).
    exists s'. split; [exact Hv|exact Ht].
  - destruct (proj2 (proj2 (validate_cached_and_lookup_only demo_platform
                              (arrived_state (demo_handle 3 7 999 77)) 1))
                (or_intror (ex_intro _ (demo_handle 3 7 999 77) eq_refl)))
      as (r & s' & Hv).
    destruct (proj1 (proj2 (validate_cached_and_lookup_only demo_platform
                              (arrived_state (demo_handle 3 7 999 77)) 1))
                r s' Hv) as (_ & Hh & _ & _ & _ & _ & Hr).
    pose proof (Hr (demo_handle 3 7 999 77) ltac:(discriminate) eq_refl)
      as Er.
    exists s'. split; [rewrite Hv, Er; reflexivity|exact Hh].
  - destruct (proj2 (proj2 (validate_cached_and_lookup_only demo_platform
                              (demo_state (demo_handle 3 7 1234 2)
                                 (demo_bo 0 1 0 0)) 1))
                (or_intror (ex_intro _ (demo_handle 3 7 1234 2) eq_refl)))
      as (r & s' & Hv).
    destruct (proj1 (proj2 (validate_cached_and_lookup_only demo_platform
                              (demo_state (demo_handle 3 7 1234 2)
                                 (demo_bo 0 1 0 0)) 1))
                r s' Hv) as (_ & Hh & _ & _ & _ & _ & Hr).
    pose proof (Hr (demo_handle 3 7 1234 2) ltac:(discriminate) eq_refl)
      as Er.
    exists s'. split; [rewrite Hv, Er; reflexivity|exact Hh].
Defined.

Lemma failed_import_sticks_witness :
  exists s1 s2,
    gralloc_drm_handle_register demo_platform 1 100
      (arrived_state (demo_handle 3 0 999 77)) = Ok (- EINVAL) s1 /\
    handles s1 !! 1 = Some (demo_handle 3 0 1234 NULL) /\
    run_calls demo_platform 1 [CallRegister 100; CallValidate 100] s1
    = Ok [- EINVAL; NULL] s2 /\
    trace s2 = trace s1.
Proof.
  destruct (failed_import_sticks demo_platform
              (arrived_state (demo_handle 3 0 999 77)) 1 100
              (demo_handle 3 0 999 77) [CallRegister 100; CallValidate 100]
              ltac:(discriminate) eq_refl eq_refl ltac:(discriminate)
              ltac:(discriminate) (or_introl eq_refl))
    as (s1 & s2 & _ & Hr & Hh & _ & _ & Hrun & Ht & _).
  exists s1, s2. repeat split; assumption.
Defined.

Lemma decref_destroys_at_zero_witness :
  gralloc_drm_bo_decref 2
    (demo_state (demo_handle 3 7 1234 2) (demo_bo 0 1 0 0))
  = Ok tt (destroyed 2 (demo_bo 0 1 0 0) demo_drm (demo_handle 3 7 1234 2)
             (demo_state (demo_handle 3 7 1234 2) (demo_bo 0 1 0 0))) /\
  (exists bo s1,
     gralloc_drm_bo_create demo_platform 100 640 480 1 3
       (arrived_state (demo_handle 3 7 999 77)) = Ok bo s1) /\
  gralloc_drm_bo_destroy 2
    (demo_state (demo_handle 3 7 1234 2) (demo_bo 0 1 0 0))
  = Ok tt (demo_state (demo_handle 3 7 1234 2) (demo_bo 0 1 0 0)).
Proof.
  split; [|split].
  - exact (proj1 (decref_destroys_at_zero demo_platform
                    (demo_state (demo_handle 3 7 1234 2) (demo_bo 0 1 0 0)))
             2 (demo_bo 0 1 0 0) demo_drm (demo_handle 3 7 1234 2)
             ltac:(discriminate) eq_refl ltac:(cbn; lia)
             ltac:(discriminate) eq_refl ltac:(discriminate)
             ltac:(discriminate) eq_refl).
  - destruct (proj1 (proj2 (decref_destroys_at_zero demo_platform
                              (arrived_state (demo_handle 3 7 999 77))))
                100 demo_drm 640 480 1 3
                ltac:(discriminate) eq_refl ltac:(discriminate))
      as (bo & s1 & Hc & _).
    exists bo, s1. exact Hc.
  - exact (proj2 (proj2 (decref_destroys_at_zero demo_platform
                           (demo_state (demo_handle 3 7 1234 2)
                              (demo_bo 0 1 0 0))))
             2 (demo_bo 0 1 0 0) ltac:(discriminate) eq_refl
             ltac:(discriminate)).
Defined.

Lemma unlock_behaviour_witness :
  gralloc_drm_bo_unlock 2
    (demo_state (demo_handle 3 7 1234 2) (demo_bo 0 1 0 0))
  = Ok tt (demo_state (demo_handle 3 7 1234 2) (demo_bo 0 1 0 0)) /\
  exists s',
    gralloc_drm_bo_unlock 2
      (demo_state (demo_handle 3 7 1234 2) (demo_bo 0 1 2 3)) = Ok tt s' /\
    trace s' = [EvUnmap 200 2].
Proof.
  split.
  - unshelve epose proof
      (unlock_behaviour
         (demo_state (demo_handle 3 7 1234 2) (demo_bo 0 1 0 0))
         2 (demo_bo 0 1 0 0) demo_drm _ _ _) as [H _]; [ev | ev | ev |].
    apply H. reflexivity.
  - unshelve epose proof
      (unlock_behaviour
         (demo_state (demo_handle 3 7 1234 2) (demo_bo 0 1 2 3))
         2 (demo_bo 0 1 2 3) demo_drm _ _ _) as [_ H]; [ev | ev | ev |].
    destruct H as (s' & b' & Hu & Ht & _); [ev|].
    exists s'. split; [exact Hu|exact Ht].
Defined.

Lemma lock_failure_cases_witness :
  exists r s',
    gralloc_drm_bo_lock demo_platform 2 0x30 0 0 640 480
      (demo_state (demo_handle 0x200 7 1234 2) (demo_bo 0 1 0 0))
    = Ok r s' /\
    r = (- EINVAL, None) /\
    s' = demo_state (demo_handle 0x200 7 1234 2) (demo_bo 0 1 0 0).
Proof.
  unshelve epose proof
    (lock_failure_cases demo_platform
       (demo_state (demo_handle 0x200 7 1234 2) (demo_bo 0 1 0 0))
       2 (demo_bo 0 1 0 0) (demo_handle 0x200 7 1234 2) demo_drm
       0x30 0 0 640 480 _ _ _ _ _ _ _ _) as H;
    [ev | ev | ev | ev | ev | ev | ev | ev |].
  destruct H as (r & s' & Hl & _ & H12 & _).
  exists r, s'. split; [exact Hl|]. apply H12. left. ev.
Defined.

Lemma map_unmap_per_call_witness :
  (exists r s',
     gralloc_drm_bo_lock demo_platform 2 3 0 0 640 480
       (demo_state (demo_handle 3 7 1234 2) (demo_bo 0 1 1 3)) = Ok r s') /\
  (exists s',
     gralloc_drm_bo_unlock 2
       (demo_state (demo_handle 3 7 1234 2) (demo_bo 0 1 2 3)) = Ok tt s' /\
     unmap_calls (trace s') = 1%nat).
Proof.
  split.
  - unshelve epose proof
      (map_unmap_per_call demo_platform
         (demo_state (demo_handle 3 7 1234 2) (demo_bo 0 1 1 3))
         2 (demo_bo 0 1 1 3) (demo_handle 3 7 1234 2) demo_drm
         3 0 0 640 480 _ _ _ _ _ _ _) as [H _];
      [ev | ev | ev | ev | ev | ev | ev |].
    destruct H as (r & s' & Hl & _). exists r, s'. exact Hl.
  - unshelve epose proof
      (map_unmap_per_call demo_platform
         (demo_state (demo_handle 3 7 1234 2) (demo_bo 0 1 2 3))
         2 (demo_bo 0 1 2 3) (demo_handle 3 7 1234 2) demo_drm
         3 0 0 640 480 _ _ _ _ _ _ _) as [_ H];
      [ev | ev | ev | ev | ev | ev | ev |].
    destruct H as (s' & Hu & Ht); [ev|].
    exists s'. split; [exact Hu|]. exact (proj2 Ht).
Defined.

Lemma unregister_decrement_order_witness :
  gralloc_drm_handle_unregister demo_platform 1
    (demo_state (demo_handle 3 7 1234 2) (demo_bo 0 2 0 0))
  = Ok 0 (rc_state demo_platform
            (demo_state (demo_handle 3 7 1234 2) (demo_bo 0 2 0 0))
            2 (demo_bo 0 2 0 0) 1) /\
  gralloc_drm_handle_unregister demo_platform 1
    (demo_state (demo_handle 3 7 1234 2) (demo_bo 0 1 0 0))
  = Fault InvalidDeref.
Proof.
  split.
  - unshelve epose proof
      (unregister_decrement_order demo_platform
         (demo_state (demo_handle 3 7 1234 2) (demo_bo 0 2 0 0)) 1
         (demo_handle 3 7 1234 2) 2 (demo_bo 0 2 0 0) demo_drm
         (demo_handle 3 7 1234 2) _ _ _) as (H & _ & _); [ev | ev | ev |].
    apply H; ev.
  - unshelve epose proof
      (unregister_decrement_order demo_platform
         (demo_state (demo_handle 3 7 1234 2) (demo_bo 0 1 0 0)) 1
         (demo_handle 3 7 1234 2) 2 (demo_bo 0 1 0 0) demo_drm
         (demo_handle 3 7 1234 2) _ _ _) as (_ & _ & H); [ev | ev | ev |].
    apply H; ev.
Defined.


(** ** Where the specification and the code part *)


(** C3 at a concrete input.  Two locks for CPU reading, then two unlocks:
    the first unlock already calls [unmap] although a lock for CPU reading
    is still held, and the second calls it again, twice in all. *)
Lemma unmap_once_counterexample :
  let lock := gralloc_drm_bo_lock demo_platform 2
                GRALLOC_USAGE_SW_READ_OFTEN 0 0 640 480 in
  let s0 := demo_state (demo_handle 3 7 1234 2) (demo_bo 0 1 0 0) in
  let first_unlock :=
    bind lock (fun _ => bind lock (fun _ => gralloc_drm_bo_unlock 2)) s0 in
  let second_unlock :=
    bind lock (fun _ => bind lock (fun _ =>
      bind (gralloc_drm_bo_unlock 2) (fun _ => gralloc_drm_bo_unlock 2))) s0 in
  lock_count_after 2 first_unlock = Some 1 /\
  unmap_calls_after first_unlock = Some 1%nat /\
  lock_count_after 2 second_unlock = Some 0 /\
  unmap_calls_after second_unlock = Some 2%nat.
Proof. vm_compute. repeat split. Qed.

(** C4 at a concrete input.  The handle's usage is CPU-read-often only: the
    requested CPU-write usage is not contained in it, and it has none of the
    framebuffer, texture and video-encoder bits; yet the lock of the
    unlocked object succeeds. *)
Lemma lock_exception_counterexample :
  let hd := demo_handle GRALLOC_USAGE_SW_READ_OFTEN 7 1234 2 in
  Z.land (usage hd) 0x30 <> 0x30 /\
  Z.land (usage hd)
    (Z.lor GRALLOC_USAGE_HW_FB
       (Z.lor GRALLOC_USAGE_HW_TEXTURE GRALLOC_USAGE_HW_VIDEO_ENCODER)) = 0 /\
  returned
    (gralloc_drm_bo_lock demo_platform 2 0x30 0 0 640 480
       (demo_state hd (demo_bo 0 1 0 0)))
  = Some (0, Some 28672).
Proof. vm_compute. repeat split. discriminate. Qed.

(** * Further properties of the code *)

(** ** Bit masks *)

Lemma lor_absorb a u : Z.lor a (Z.lor u a) = Z.lor u a.
Proof.
  apply Z.bits_inj'. intros n _. rewrite !Z.lor_spec.
  now destruct (Z.testbit a n), (Z.testbit u n).
Qed.

Lemma lor_covered a u : Z.land a u = u -> Z.lor u a = a.
Proof.
  intros H. apply Z.bits_inj'. intros n _.
  apply (f_equal (fun z => Z.testbit z n)) in H.
  rewrite Z.land_spec in H. rewrite Z.lor_spec.
  destruct (Z.testbit a n), (Z.testbit u n); cbn in *; congruence.
Qed.

Lemma land_lor_cover a u : Z.land (Z.lor u a) u = u.
Proof.
  apply Z.bits_inj'. intros n _. rewrite Z.land_spec, Z.lor_spec.
  now destruct (Z.testbit a n), (Z.testbit u n).
Qed.

(** ** Handles that fail the check, imports and lookups *)

Lemma cache_pid_cached (p : platform) s h b d k t :
  cache_pid p (mk_state (current_pid p s) h b d k t)
  = mk_state (current_pid p s) h b d k t.
Proof. unfold cache_pid, with_pid. norm. reflexivity. Qed.

(** A null handle, or one that fails the structural check, is refused by
    registration, unregistration and lookup alike, and nothing at all
    changes: not even the process id is looked up. *)
Theorem malformed_handle_refused (p : platform) (s s' : state)
    (_handle drm : Z) :
  gralloc_drm_handle p _handle s = Ok NULL s' ->
  gralloc_drm_handle_register p _handle drm s = Ok (- EINVAL) s /\
  gralloc_drm_handle_unregister p _handle s = Ok (- EINVAL) s /\
  gralloc_drm_bo_from_handle p _handle s = Ok NULL s.
Proof.
  intros H.
  pose proof (validate_malformed p s _handle s' drm H) as Hv.
  pose proof (validate_malformed p s _handle s' NULL H) as Hv0.
  unfold gralloc_drm_handle_register, gralloc_drm_handle_unregister,
    gralloc_drm_bo_from_handle.
  rewrite (bind_Ok _ _ _ _ _ Hv), (bind_Ok _ _ _ _ _ Hv0). auto.
Qed.

(** The first validation of a handle from another process imports it: the
    backend is asked once, the new object is bound to the context and the
    handle, marked imported and holds one reference, and the handle is
    stamped with the process and the object.  From then on the handle is a
    cache: validating it again, with any context or none, returns the same
    object and changes nothing. *)
Theorem import_then_cached (p : platform) (s : state) (_handle drm : Z)
    (hd : gralloc_drm_handle_t) (d : gralloc_drm_t) (out : alloc_out)
    (drm' : Z) :
  importable p s _handle hd drm d out ->
  exists s1,
    validate_handle p _handle drm s = Ok (Z.pos (brk s)) s1 /\
    bos s1 !! Z.pos (brk s) = Some (imported_bo drm _handle out 1) /\
    handles s1 !! _handle
    = Some (imported_handle (current_pid p s) (Z.pos (brk s)) out hd) /\
    trace s1 = trace s ++ [EvAlloc (drv d) _handle (Z.pos (brk s))] /\
    validate_handle p _handle drm' s1 = Ok (Z.pos (brk s)) s1.
Proof.
  intros Hi. pose proof Hi as (Hn & Hl & Hc & _).
  eexists. split; [apply (validate_imports p s _handle hd drm d out Hi)|].
  norm. rewrite !lookup_insert_eq. repeat split.
  erewrite validate_owned
    by (norm; rewrite ?lookup_insert_eq; first [reflexivity | assumption]).
  now rewrite cache_pid_cached.
Qed.

(** A registration without a context cannot import: for an importable
    handle it fails with invalid-argument, but unlike a failed import it
    leaves the handle as it was, so that a registration with a context
    still imports it, with two references. *)
Theorem register_needs_context (p : platform) (s : state) (_handle drm : Z)
    (hd : gralloc_drm_handle_t) (d : gralloc_drm_t) (out : alloc_out) :
  importable p s _handle hd drm d out ->
  gralloc_drm_handle_register p _handle NULL s
  = Ok (- EINVAL) (cache_pid p s) /\
  exists s2,
    gralloc_drm_handle_register p _handle drm (cache_pid p s) = Ok 0 s2 /\
    bos s2 !! Z.pos (brk s) = Some (imported_bo drm _handle out 2) /\
    trace s2 = trace s ++ [EvAlloc (drv d) _handle (Z.pos (brk s))].
Proof.
  intros Hi.
  pose proof Hi as (Hn & Hl & Hc & Ho & Hname & Hd & Hdm & Hdv & Hal).
  split.
  - unfold gralloc_drm_handle_register.
    now rewrite (bind_Ok _ _ _ _ _
                   (validate_foreign_lookup p s _handle hd Hn Hl Hc Ho)).
  - eexists. split.
    + apply (register_imports p (cache_pid p s) _handle hd drm d out).
      unfold importable. rewrite current_pid_cache. repeat split; auto.
    + norm. rewrite lookup_insert_eq. auto.
Qed.

(** ** Creation and the handle of an object *)

Lemma handle_check_new (p : platform) width height format usage :
  handle_check p (new_handle p width height format usage) = true.
Proof. unfold handle_check. cbn. now rewrite !Z.eqb_refl. Qed.

Lemma queries_good (p : platform) s h hd :
  h <> NULL -> handles s !! h = Some hd -> handle_check p hd = true ->
  gralloc_drm_get_gem_handle p h s = Ok (name hd) s /\
  gralloc_drm_get_prime_fd p h s = Ok (prime_fd hd) s.
Proof.
  intros Hn Hl Hc.
  unfold gralloc_drm_get_gem_handle, gralloc_drm_get_prime_fd.
  rewrite !(bind_Ok _ _ _ _ _ (gralloc_drm_handle_good p s h hd Hn Hl Hc)).
  destruct (Z.eqb_spec h NULL); [contradiction|]. cbn [negb].
  now rewrite !(bind_Ok _ _ _ _ _ (load_handle_Ok _ _ _ Hn Hl)).
Qed.

(** What a successful creation hands out can be looked up again: the
    handle of the new object is the fresh handle, with the stride the
    backend stored; the lookup of that handle returns the new object; and
    the queries return the backend's name and prime descriptor.  The
    object holds one reference, is not imported and not locked by the
    core. *)
Theorem create_then_lookup (p : platform) (s : state) (drm : Z)
    (d : gralloc_drm_t) (width height format usage : Z) (out : alloc_out) :
  drm <> NULL -> drms s !! drm = Some d -> drv d <> NULL ->
  calloc_ok p (brk s) = true ->
  drv_alloc p (trace s) (drv d)
    (set_plane_mask (planes_for_format p drm format)
       (new_handle p width height format usage)) = Some out ->
  let h := Z.pos (brk s) in
  let bo := Z.pos (Pos.succ (brk s)) in
  exists s1 b1,
    gralloc_drm_bo_create p drm width height format usage s = Ok bo s1 /\
    bos s1 !! bo = Some b1 /\
    refcount b1 = 1 /\ imported b1 = 0 /\ fb_id b1 = 0 /\
    lock_count b1 = lock_count (out_bo out) /\
    gralloc_drm_bo_get_handle bo true s1
    = Ok (h, Some (out_stride out)) s1 /\
    gralloc_drm_bo_from_handle p h s1 = Ok bo s1 /\
    gralloc_drm_get_gem_handle p h s1 = Ok (out_name out) s1 /\
    gralloc_drm_get_prime_fd p h s1 = Ok (out_prime_fd out) s1.
Proof.
  intros Hd Hdm Hdv Hc Hal h bo.
  pose proof (Zpos_not_NULL (brk s)) as Hh. fold h in Hh.
  pose proof (Zpos_not_NULL (Pos.succ (brk s))) as Hb. fold bo in Hb.
  eexists _, _. split; [eapply bo_create_Some; eassumption|].
  fold h bo. norm. rewrite lookup_insert_eq.
  split; [reflexivity|]. do 4 (split; [reflexivity|]).
  split.
  { unfold gralloc_drm_bo_get_handle. mstep load_bo_Ok.
    cbn [handle set_refcount set_fb_id set_handle].
    erewrite bind_Ok; [reflexivity|].
    mstep load_handle_Ok. reflexivity. }
  split.
  { unfold gralloc_drm_bo_from_handle.
    erewrite validate_owned
      by (norm; rewrite ?lookup_insert_eq;
          first [assumption | reflexivity | apply handle_check_new]).
    now rewrite cache_pid_cached. }
  match goal with
  | |- context [gralloc_drm_get_gem_handle p h ?S] =>
      exact (queries_good p S h _ Hh (lookup_insert_eq _ _ _)
               (handle_check_new p width height format usage))
  end.
Qed.

(** A creation that returns nothing is all or nothing: with an allocator
    that hands out an unused address, handles, objects and contexts are as
    before, and the backend holds no new allocation. *)
Theorem failed_create_changes_nothing (p : platform) (s s1 : state)
    (drm : Z) (d : gralloc_drm_t) (width height format usage : Z) :
  drm <> NULL -> drms s !! drm = Some d -> drv d <> NULL ->
  handles s !! Z.pos (brk s) = None ->
  gralloc_drm_bo_create p drm width height format usage s = Ok NULL s1 ->
  handles s1 = handles s /\ bos s1 = bos s /\ drms s1 = drms s /\
  gralloc_drm_pid s1 = gralloc_drm_pid s /\
  live_allocations (trace s1) = live_allocations (trace s).
Proof.
  intros Hd Hdm Hdv Hfresh Hcreate.
  destruct (calloc_ok p (brk s)) eqn:Hc.
  2:{ rewrite bo_create_calloc_fails in Hcreate by assumption.
      injection Hcreate as <-. repeat split. }
  destruct (drv_alloc p (trace s) (drv d)
              (set_plane_mask (planes_for_format p drm format)
                 (new_handle p width height format usage)))
    as [out|] eqn:Hal.
  - erewrite bo_create_Some in Hcreate by eassumption. discriminate.
  - erewrite bo_create_alloc_fails in Hcreate by eassumption.
    injection Hcreate as <-. norm.
    rewrite delete_id by assumption. rewrite live_allocations_app. cbn.
    repeat split. lia.
Qed.

(** ** The handle after the last reference is gone *)

Lemma queries_dangling (p : platform) s h :
  h <> NULL -> handles s !! h = None ->
  gralloc_drm_get_gem_handle p h s = Fault InvalidDeref /\
  gralloc_drm_get_prime_fd p h s = Fault InvalidDeref.
Proof.
  intros Hn Hl.
  unfold gralloc_drm_get_gem_handle, gralloc_drm_get_prime_fd,
    gralloc_drm_handle.
  destruct (Z.eqb_spec h NULL); [contradiction|].
  unfold bind, load_handle.
  destruct (Z.eqb_spec h NULL); [contradiction|]. now rewrite Hl.
Qed.

(** When [gralloc_drm_bo_decref] takes the last reference, the object is
    gone, and the fate of its handle depends on where the object came
    from.  The handle of a locally created object is freed with it: every
    later validation or query of that handle reads freed memory.  The
    handle of an imported object stays, with its process-local fields
    zeroed: a lookup finds no object, and the backend name is still
    there. *)
Theorem last_reference_handle_fate (p : platform) (s : state) (_handle : Z)
    (hd : gralloc_drm_handle_t) (bo : Z) (b : gralloc_drm_bo_t)
    (d : gralloc_drm_t) (drm' : Z) :
  owns p s _handle hd bo b -> handle b = _handle ->
  destructible s b d hd -> refcount b = 1 -> current_pid p s <> 0 ->
  exists s',
    gralloc_drm_bo_decref bo s = Ok tt s' /\
    bos s' !! bo = None /\
    (imported b = 0 ->
     handles s' !! _handle = None /\
     validate_handle p _handle drm' s' = Fault InvalidDeref /\
     gralloc_drm_get_gem_handle p _handle s' = Fault InvalidDeref) /\
    (imported b <> 0 ->
     handles s' !! _handle = Some (set_data 0 (set_data_owner 0 hd)) /\
     gralloc_drm_bo_from_handle p _handle s' = Ok NULL (cache_pid p s') /\
     gralloc_drm_get_gem_handle p _handle s' = Ok (name hd) s').
Proof.
  intros (Hn & Hl & Hc & Ho & Hdata & Hb & Hbl) Hh
    (Hd & Hdm & Hdv & Hhn & Hhl) Hr Hpid.
  eexists. split.
  { eapply bo_decref_last; try eassumption. now rewrite Hr. }
  unfold destroyed, release_handle. norm. rewrite lookup_delete_eq, Hh.
  split; [reflexivity|]. split.
  - intros Hi. rewrite Hi. cbn [Z.eqb]. rewrite lookup_delete_eq.
    split; [reflexivity|]. split.
    + apply validate_dangling; [assumption|]. norm. apply lookup_delete_eq.
    + apply queries_dangling; [assumption|]. norm. apply lookup_delete_eq.
  - intros Hi. destruct (Z.eqb_spec (imported b) 0); [contradiction|].
    rewrite lookup_insert_eq. split; [reflexivity|]. split.
    + unfold gralloc_drm_bo_from_handle.
      rewrite (validate_foreign_lookup p _ _handle
                 (set_data 0 (set_data_owner 0 hd)) Hn).
      * norm. reflexivity.
      * norm. apply lookup_insert_eq.
      * exact Hc.
      * norm. cbn [data_owner set_data set_data_owner]. congruence.
    + apply (queries_good p _ _handle
               (set_data 0 (set_data_owner 0 hd)) Hn);
        [norm; apply lookup_insert_eq|exact Hc].
Qed.

(** The store after a handle was imported by one registration and
    unregistered once. *)
Lemma import_unregister_state (p : platform) s h hd dm d out :
  importable p s h hd dm d out ->
  exists s1,
    gralloc_drm_handle_register p h dm s = Ok 0 s1 /\
    gralloc_drm_handle_unregister p h s1
    = Ok 0
        (mk_state (current_pid p s)
           (<[h := set_data 0 (set_data_owner 0
                     (imported_handle (current_pid p s) (Z.pos (brk s))
                        out hd))]> (handles s))
           (delete (Z.pos (brk s)) (bos s))
           (drms s) (Pos.succ (brk s))
           (trace s ++ [EvAlloc (drv d) h (Z.pos (brk s))]
              ++ rm_fb_events (Z.pos (brk s)) (out_bo out)
              ++ [EvFree (drv d) (Z.pos (brk s))])).
Proof.
  intros Hi.
  pose proof Hi as (Hn & Hl & Hc & Ho & Hname & Hd & Hdm & Hdv & Hal).
  pose proof (Zpos_not_NULL (brk s)) as Hb.
  eexists. split; [apply (register_imports p s h hd dm d out Hi)|].
  rewrite (unregister_imported p _ h
             (imported_handle (current_pid p s) (Z.pos (brk s)) out hd)
             (Z.pos (brk s)) (imported_bo dm h out 2) d
             (imported_handle (current_pid p s) (Z.pos (brk s)) out hd)).
  - change (refcount (imported_bo dm h out 2) - 2 =? 0) with true.
    cbn iota. unfold destroyed, release_handle, rc_state. norm.
    cbn [imported handle imported_bo set_refcount set_handle set_imported
         Z.eqb].
    rewrite !delete_insert_eq, !insert_insert_eq, <- !app_assoc.
    reflexivity.
  - unfold owns. norm. rewrite !lookup_insert_eq.
    repeat split; try reflexivity; assumption.
  - unfold destructible. norm. cbn [drm handle imported_bo set_refcount
      set_handle set_imported set_drm]. rewrite lookup_insert_eq.
    repeat split; try reflexivity; assumption.
  - discriminate.
  - cbn. lia.
Qed.

(** The handle of a destroyed imported object can be imported again: after
    one registration and one unregistration, a new registration with a
    context asks the backend once more and, when the backend allocates,
    binds a fresh object with two references to the handle. *)
Theorem reimport_after_destroy (p : platform) (s : state) (_handle drm : Z)
    (hd : gralloc_drm_handle_t) (d : gralloc_drm_t) (out out2 : alloc_out) :
  let bo := Z.pos (brk s) in
  let hd2 := set_data 0 (set_data_owner 0
               (imported_handle (current_pid p s) bo out hd)) in
  let tr2 := trace s ++ [EvAlloc (drv d) _handle bo]
               ++ rm_fb_events bo (out_bo out) ++ [EvFree (drv d) bo] in
  importable p s _handle hd drm d out ->
  current_pid p s <> 0 -> out_name out <> 0 ->
  drv_alloc p tr2 (drv d) hd2 = Some out2 ->
  exists s1 s2 s3,
    gralloc_drm_handle_register p _handle drm s = Ok 0 s1 /\
    gralloc_drm_handle_unregister p _handle s1 = Ok 0 s2 /\
    bos s2 !! bo = None /\ handles s2 !! _handle = Some hd2 /\
    gralloc_drm_handle_register p _handle drm s2 = Ok 0 s3 /\
    bos s3 !! Z.pos (Pos.succ (brk s))
    = Some (imported_bo drm _handle out2 2) /\
    trace s3 = tr2 ++ [EvAlloc (drv d) _handle (Z.pos (Pos.succ (brk s)))].
Proof.
  intros bo hd2 tr2 Hi Hpid Hname2 Hal2.
  pose proof Hi as (Hn & Hl & Hc & Ho & Hname & Hd & Hdm & Hdv & Hal).
  destruct (import_unregister_state p s _handle hd drm d out Hi)
    as (s1 & Hreg & Hunreg).
  eexists s1, _, _. split; [exact Hreg|]. split; [exact Hunreg|].
  norm. rewrite lookup_delete_eq, lookup_insert_eq.
  split; [reflexivity|]. split; [reflexivity|].
  split.
  - apply (register_imports p _ _handle hd2 drm d out2).
    unfold importable. norm. rewrite lookup_insert_eq.
    repeat split; try assumption.
    cbn. congruence.
  - norm. rewrite lookup_insert_eq. split; reflexivity.
Qed.

(** ** The lock as a state machine *)

Lemma lor_lor_absorb a u : Z.lor u (Z.lor a (Z.lor u a)) = Z.lor u a.
Proof.
  apply Z.bits_inj'. intros n _. rewrite !Z.lor_spec.
  now destruct (Z.testbit a n), (Z.testbit u n).
Qed.

Lemma lor_lor_absorb_alt a u : Z.lor u (Z.lor u a) = Z.lor u a.
Proof. now rewrite Z.lor_assoc, Z.lor_diag. Qed.

Section LockMachine.

Variable p : platform.

(** A lock that the checks let through. *)
Lemma bo_lock_admitted s bo b hd d u x y w h :
  live_bo s bo b hd d -> lock_admitted hd b u ->
  gralloc_drm_bo_lock p bo u x y w h s
  = if cpu_access (Z.lor u (locked_for b)) then
      let r := drv_map p (trace s) (drv d) bo x y w h
                 (write_flag (Z.lor u (locked_for b))) in
      let s1 := with_trace
                  (trace s ++ [EvMap (drv d) bo x y w h
                                 (write_flag (Z.lor u (locked_for b)))]) s in
      if fst r =? 0
      then Ok (0, Some (snd r))
              (with_bos (<[bo := locked_bo u b]> (bos s)) s1)
      else Ok (fst r, None) s1
    else Ok (0, None) (with_bos (<[bo := locked_bo u b]> (bos s)) s).
Proof.
  intros (Hn & Hl & Hh & Hhl & Hd & Hdm & Hdv) (H1 & H2).
  rewrite (bo_lock_eq p s bo b hd d u x y w h Hn Hl Hh Hhl Hd Hdm Hdv).
  replace (negb (Z.land (usage hd) u =? u)
           && (Z.land (usage hd) lock_exception_flags =? 0)) with false.
  2:{ destruct H1 as [E|E].
      - now rewrite E, Z.eqb_refl.
      - apply Z.eqb_neq in E. rewrite E. now rewrite andb_false_r. }
  replace (negb (lock_count b =? 0)
           && negb (Z.land (locked_for b) u =? u)) with false.
  2:{ destruct H2 as [E|E]; rewrite E, Z.eqb_refl;
        [reflexivity|now rewrite andb_false_r]. }
  reflexivity.
Qed.

(** A lock that succeeded was let through by the checks. *)
Lemma bo_lock_success s bo b hd d u x y w h r s' :
  live_bo s bo b hd d ->
  gralloc_drm_bo_lock p bo u x y w h s = Ok r s' -> fst r = 0 ->
  lock_admitted hd b u /\
  s' = with_bos (<[bo := locked_bo u b]> (bos s))
         (with_trace
            (trace s ++
             (if cpu_access (Z.lor u (locked_for b))
              then [EvMap (drv d) bo x y w h
                      (write_flag (Z.lor u (locked_for b)))]
              else [])) s).
Proof.
  intros (Hn & Hl & Hh & Hhl & Hd & Hdm & Hdv) Hlock Hr.
  rewrite (bo_lock_eq p s bo b hd d u x y w h Hn Hl Hh Hhl Hd Hdm Hdv)
    in Hlock.
  unfold lock_admitted.
  destruct (Z.eqb_spec (Z.land (usage hd) u) u) as [E1|E1];
    destruct (Z.eqb_spec (Z.land (usage hd) lock_exception_flags) 0)
      as [E2|E2]; cbn [negb andb] in Hlock;
    try (injection Hlock as <- <-; discriminate Hr).
  all: destruct (Z.eqb_spec (lock_count b) 0) as [E3|E3];
    destruct (Z.eqb_spec (Z.land (locked_for b) u) u) as [E4|E4];
    cbn [negb andb] in Hlock;
    try (injection Hlock as <- <-; discriminate Hr).
  all: destruct (cpu_access (Z.lor u (locked_for b)));
    cbn zeta in Hlock;
    [destruct (Z.eqb_spec
                 (fst (drv_map p (trace s) (drv d) bo x y w h
                         (write_flag (Z.lor u (locked_for b))))) 0)
       as [E6|E6]|];
    injection Hlock as <- <-; cbn [fst] in Hr; try contradiction;
    (split; [split; auto|]); norm; rewrite ?app_nil_r;
    try reflexivity; now destruct s.
Qed.

Lemma locked_bo_fields u b :
  refcount (locked_bo u b) = refcount b /\
  imported (locked_bo u b) = imported b /\
  handle (locked_bo u b) = handle b /\ drm (locked_bo u b) = drm b /\
  fb_id (locked_bo u b) = fb_id b /\
  lock_count (locked_bo u b) = wrap_int (lock_count b + 1) /\
  locked_for (locked_bo u b) = Z.lor u (locked_for b).
Proof. unfold locked_bo. cbn. rewrite lor_absorb. repeat split. Qed.

(** Releasing the lock just taken gives the object back as it was. *)
Lemma unlocked_locked u b :
  lock_inv b -> lock_count b < 2 ^ 31 - 1 ->
  lock_count b = 0 \/ Z.land (locked_for b) u = u ->
  unlocked_bo (locked_bo u b) = b.
Proof.
  intros (H0 & Hz) Hmax Hadm. unfold unlocked_bo, locked_bo.
  cbn [lock_count set_lock_count set_locked_for].
  rewrite (wrap_int_small (lock_count b + 1)) by lia.
  replace (lock_count b + 1 - 1) with (lock_count b) by lia.
  rewrite wrap_int_small by lia.
  destruct (Z.eqb_spec (lock_count b) 0) as [E|E].
  - destruct b; cbn in *. rewrite Hz by assumption. now subst.
  - destruct Hadm as [?|Hsub]; [contradiction|].
    rewrite lor_absorb, (lor_covered _ _ Hsub). now destruct b.
Qed.

End LockMachine.

(** A lock touches nothing but the lock state of its object: handles,
    contexts and all other objects stay as they are, and so do the
    reference count and the bindings of the object.  A successful lock
    adds one to the lock count and makes the accumulated usage the union
    of the request and what was accumulated; a failed one leaves the
    object as it was. *)
Theorem lock_effect (p : platform) (s s' : state) (bo : Z)
    (b : gralloc_drm_bo_t) (hd : gralloc_drm_handle_t) (d : gralloc_drm_t)
    (u x y w h : Z) (r : Z * option Z) :
  live_bo s bo b hd d -> 0 <= lock_count b < 2 ^ 31 - 1 ->
  gralloc_drm_bo_lock p bo u x y w h s = Ok r s' ->
  handles s' = handles s /\ drms s' = drms s /\
  (forall bo', bo' <> bo -> bos s' !! bo' = bos s !! bo') /\
  exists b',
    bos s' !! bo = Some b' /\
    refcount b' = refcount b /\ imported b' = imported b /\
    handle b' = handle b /\ drm b' = drm b /\ fb_id b' = fb_id b /\
    (fst r = 0 ->
     lock_count b' = lock_count b + 1 /\
     locked_for b' = Z.lor u (locked_for b)) /\
    (fst r <> 0 -> b' = b).
Proof.
  intros Hlive Hc Hlock.
  destruct (Z.eq_dec (fst r) 0) as [Hr|Hr].
  - destruct (bo_lock_success p s bo b hd d u x y w h r s' Hlive Hlock Hr)
      as (_ & ->).
    norm. split; [reflexivity|]. split; [reflexivity|]. split.
    + intros bo' Hne. now rewrite lookup_insert_ne.
    + exists (locked_bo u b). rewrite lookup_insert_eq.
      destruct (locked_bo_fields u b) as (F1 & F2 & F3 & F4 & F5 & F6 & F7).
      rewrite wrap_int_small in F6 by lia.
      do 6 (split; [assumption || reflexivity|]).
      split; [intros _; split; assumption|contradiction].
  - pose proof Hlive as (Hn & Hl & Hh & Hhl & Hd & Hdm & Hdv).
    rewrite (bo_lock_eq p s bo b hd d u x y w h Hn Hl Hh Hhl Hd Hdm Hdv)
      in Hlock.
    assert (Hs : handles s' = handles s /\ drms s' = drms s /\
                 bos s' = bos s).
    { destruct (negb (Z.land (usage hd) u =? u)
                && (Z.land (usage hd) lock_exception_flags =? 0));
        [injection Hlock as <- <-; auto|].
      destruct (negb (lock_count b =? 0)
                && negb (Z.land (locked_for b) u =? u));
        [injection Hlock as <- <-; auto|].
      destruct (cpu_access (Z.lor u (locked_for b))); cbn zeta in Hlock.
      - destruct (fst (drv_map p (trace s) (drv d) bo x y w h
                         (write_flag (Z.lor u (locked_for b)))) =? 0);
          injection Hlock as <- <-; auto.
        cbn [fst] in Hr. contradiction.
      - injection Hlock as <- <-. cbn [fst] in Hr. contradiction. }
    destruct Hs as (-> & -> & ->).
    do 3 (split; [reflexivity || auto|]).
    exists b. do 6 (split; [assumption || reflexivity|]).
    split; [contradiction|reflexivity].
Qed.

(** The lock state stays sound: when the count is not negative and an
    unlocked object has no accumulated usage, the same holds after a lock,
    whatever it returns, and after an unlock. *)
Theorem lock_state_invariant (p : platform) (s : state) (bo : Z)
    (b : gralloc_drm_bo_t) (hd : gralloc_drm_handle_t) (d : gralloc_drm_t)
    (u x y w h : Z) :
  live_bo s bo b hd d -> lock_inv b -> lock_count b < 2 ^ 31 - 1 ->
  (forall r s' b',
     gralloc_drm_bo_lock p bo u x y w h s = Ok r s' ->
     bos s' !! bo = Some b' -> lock_inv b') /\
  (forall s' b',
     gralloc_drm_bo_unlock bo s = Ok tt s' ->
     bos s' !! bo = Some b' -> lock_inv b').
Proof.
  intros Hlive Hinv Hmax. pose proof Hinv as (H0 & Hz). split.
  - intros r s' b' Hlock Hb'.
    destruct (lock_effect p s s' bo b hd d u x y w h r Hlive
                ltac:(lia) Hlock)
      as (_ & _ & _ & b'' & Hb'' & _ & _ & _ & _ & _ & Hok & Hfail).
    rewrite Hb' in Hb''. injection Hb'' as <-.
    destruct (Z.eq_dec (fst r) 0) as [Hr|Hr].
    + destruct (Hok Hr) as (Hc & _). unfold lock_inv. rewrite Hc.
      split; lia.
    + now rewrite (Hfail Hr).
  - intros s' b' Hunlock Hb'.
    destruct Hlive as (Hn & Hl & _ & _ & Hd & Hdm & Hdv).
    rewrite (bo_unlock_eq s bo b d Hn Hl) in Hunlock by auto.
    destruct (Z.eqb_spec (lock_count b) 0) as [E|E].
    + injection Hunlock as <-. rewrite Hl in Hb'. now injection Hb' as <-.
    + injection Hunlock as <-. revert Hb'. norm. rewrite lookup_insert_eq.
      intros [= <-]. unfold unlocked_bo, lock_inv.
      rewrite wrap_int_small by lia.
      destruct (Z.eqb_spec (lock_count b - 1) 0); cbn; split; auto; lia.
Qed.

(** Lock and unlock are inverse: on an object with a sound lock state, a
    successful lock followed by an unlock leaves every object, handle and
    context as before the lock; the backend has seen one [map] and one
    [unmap] when the usage union asks for the CPU, and nothing
    otherwise. *)
Theorem lock_unlock_roundtrip (p : platform) (s s1 : state) (bo : Z)
    (b : gralloc_drm_bo_t) (hd : gralloc_drm_handle_t) (d : gralloc_drm_t)
    (u x y w h : Z) (r : Z * option Z) :
  live_bo s bo b hd d -> lock_inv b -> lock_count b < 2 ^ 31 - 1 ->
  gralloc_drm_bo_lock p bo u x y w h s = Ok r s1 -> fst r = 0 ->
  exists s2,
    gralloc_drm_bo_unlock bo s1 = Ok tt s2 /\
    bos s2 = bos s /\ handles s2 = handles s /\ drms s2 = drms s /\
    trace s2
    = trace s ++
      (if cpu_access (Z.lor u (locked_for b))
       then [EvMap (drv d) bo x y w h (write_flag (Z.lor u (locked_for b)));
             EvUnmap (drv d) bo]
       else []).
Proof.
  intros Hlive Hinv Hmax Hlock Hr.
  destruct (bo_lock_success p s bo b hd d u x y w h r s1 Hlive Hlock Hr)
    as ((_ & Hadm) & ->).
  pose proof Hlive as (Hn & Hl & _ & _ & Hd & Hdm & Hdv).
  destruct (locked_bo_fields u b) as (_ & _ & _ & F4 & _ & F6 & F7).
  pose proof Hinv as (H0 & _).
  rewrite wrap_int_small in F6 by lia.
  erewrite (bo_unlock_eq _ bo (locked_bo u b) d Hn).
  2:{ norm. apply lookup_insert_eq. }
  2:{ intros _. rewrite F4. norm. auto. }
  rewrite F6, F7. destruct (Z.eqb_spec (lock_count b + 1) 0); [lia|].
  eexists. split; [reflexivity|]. norm.
  rewrite (unlocked_locked u b Hinv Hmax Hadm), insert_insert_eq,
    insert_id by assumption.
  repeat split.
  destruct (cpu_access (Z.lor u (locked_for b)));
    now rewrite <- app_assoc.
Qed.

(** A lock that was granted can be taken again: a second lock for the same
    usage passes both checks, so it returns 0 when the usage union does not
    ask for the CPU and otherwise exactly what the backend's [map]
    returns, never an invalid-argument error of its own. *)
Theorem relock_same_usage (p : platform) (s s1 : state) (bo : Z)
    (b : gralloc_drm_bo_t) (hd : gralloc_drm_handle_t) (d : gralloc_drm_t)
    (u x y w h : Z) (r : Z * option Z) :
  live_bo s bo b hd d ->
  gralloc_drm_bo_lock p bo u x y w h s = Ok r s1 -> fst r = 0 ->
  exists r2 s2,
    gralloc_drm_bo_lock p bo u x y w h s1 = Ok r2 s2 /\
    fst r2
    = if cpu_access (Z.lor u (locked_for b))
      then fst (drv_map p (trace s1) (drv d) bo x y w h
                  (write_flag (Z.lor u (locked_for b))))
      else 0.
Proof.
  intros Hlive Hlock Hr.
  destruct (bo_lock_success p s bo b hd d u x y w h r s1 Hlive Hlock Hr)
    as ((Hcap & _) & ->).
  pose proof Hlive as (Hn & Hl & Hh & Hhl & Hd & Hdm & Hdv).
  destruct (locked_bo_fields u b) as (_ & _ & F3 & F4 & _ & _ & F7).
  rewrite (bo_lock_admitted p _ bo (locked_bo u b) hd d u x y w h).
  - rewrite F7, lor_lor_absorb_alt.
    destruct (cpu_access (Z.lor u (locked_for b))); cbn zeta.
    + destruct (Z.eqb_spec
                  (fst (drv_map p
                          (trace
                             (with_bos (<[bo:=locked_bo u b]> (bos s))
                                (with_trace
                                   (trace s ++
                                    [EvMap (drv d) bo x y w h
                                       (write_flag
                                          (Z.lor u (locked_for b)))]) s)))
                          (drv d) bo x y w h
                          (write_flag (Z.lor u (locked_for b))))) 0)
        as [E|E]; eexists _, _; (split; [reflexivity|]); cbn [fst]; auto.
    + eexists _, _. split; reflexivity.
  - unfold live_bo. rewrite F3, F4. norm. rewrite lookup_insert_eq.
    repeat split; auto.
  - split; [exact Hcap|]. right. rewrite F7. apply land_lor_cover.
Qed.

Lemma map_calls_snoc_map tr drv bo x y w h write :
  map_calls (tr ++ [EvMap drv bo x y w h write]) = S (map_calls tr) /\
  unmap_calls (tr ++ [EvMap drv bo x y w h write]) = unmap_calls tr.
Proof.
  rewrite map_calls_app, unmap_calls_app. cbn. split; lia.
Qed.

Lemma map_calls_snoc_unmap tr drv bo :
  map_calls (tr ++ [EvUnmap drv bo]) = map_calls tr /\
  unmap_calls (tr ++ [EvUnmap drv bo]) = S (unmap_calls tr).
Proof.
  rewrite map_calls_app, unmap_calls_app. cbn. split; lia.
Qed.

(** [n] locks and [n] unlocks against a backend whose [map] succeeds. *)
Lemma lock_session_balanced (p : platform) bo hd d u x y w h n :
  forall s b,
  live_bo s bo b hd d -> lock_inv b ->
  lock_count b + Z.of_nat n < 2 ^ 31 ->
  lock_admitted hd b u -> map_succeeds p d bo ->
  exists s',
    lock_session p bo u x y w h n s = Ok 0 s' /\
    bos s' = bos s /\ handles s' = handles s /\ drms s' = drms s /\
    map_calls (trace s')
    = (map_calls (trace s)
       + n * (if cpu_access (Z.lor u (locked_for b)) then 1 else 0))%nat /\
    unmap_calls (trace s')
    = (unmap_calls (trace s)
       + n * (if cpu_access (Z.lor u (locked_for b)) then 1 else 0))%nat.
Proof.
  induction n as [|n IH]; intros s b Hlive Hinv Hmax Hadm Hmap.
  - exists s. cbn. repeat split; lia.
  - pose proof Hlive as (Hn & Hl & Hh & Hhl & Hd & Hdm & Hdv).
    pose proof Hinv as (H0 & _).
    destruct (locked_bo_fields u b) as (_ & _ & F3 & F4 & _ & F6 & F7).
    rewrite wrap_int_small in F6 by lia.
    cbn [lock_session].
    set (c := cpu_access (Z.lor u (locked_for b))) in *.
    set (s1 := with_bos (<[bo := locked_bo u b]> (bos s))
                 (with_trace
                    (trace s ++
                     (if c then [EvMap (drv d) bo x y w h
                                   (write_flag (Z.lor u (locked_for b)))]
                      else [])) s)).
    assert (Hlock : exists a,
               gralloc_drm_bo_lock p bo u x y w h s = Ok (0, a) s1).
    { rewrite (bo_lock_admitted p s bo b hd d u x y w h Hlive Hadm).
      fold c. subst s1. destruct c; cbn zeta.
      - rewrite Hmap. cbn [Z.eqb]. eauto.
      - eexists. f_equal. norm. rewrite app_nil_r. now destruct s. }
    destruct Hlock as (a & Hlock).
    rewrite (bind_Ok _ _ _ _ _ Hlock). cbn [fst Z.eqb].
    destruct (IH s1 (locked_bo u b)) as (s2 & Hrun & Hb2 & Hh2 & Hd2 & Hm2 & Hu2).
    { unfold live_bo. rewrite F3, F4. subst s1. norm.
      rewrite lookup_insert_eq. repeat split; auto. }
    { unfold lock_inv. rewrite F6. split; lia. }
    { rewrite F6. lia. }
    { destruct Hadm as (Hcap & _). split; [exact Hcap|]. right.
      rewrite F7. apply land_lor_cover. }
    { exact Hmap. }
    rewrite (bind_Ok _ _ _ _ _ Hrun).
    rewrite F7, lor_lor_absorb_alt in Hm2, Hu2. fold c in Hm2, Hu2.
    erewrite bind_Ok.
    2:{ rewrite (bo_unlock_eq s2 bo (locked_bo u b) d Hn).
        - rewrite F6. destruct (Z.eqb_spec (lock_count b + 1) 0); [lia|].
          reflexivity.
        - rewrite Hb2. subst s1. norm. apply lookup_insert_eq.
        - intros _. rewrite F4, Hd2. subst s1. norm. auto. }
    eexists. split; [reflexivity|]. norm.
    rewrite Hb2, Hh2, Hd2. subst s1. norm.
    rewrite (unlocked_locked u b Hinv ltac:(lia) (proj2 Hadm)),
      insert_insert_eq, insert_id by assumption.
    do 3 (split; [reflexivity|]).
    rewrite F7. fold c. revert Hm2 Hu2. norm. destruct c.
    + rewrite (proj1 (map_calls_snoc_unmap _ _ _)),
        (proj2 (map_calls_snoc_unmap _ _ _)).
      rewrite (proj1 (map_calls_snoc_map _ _ _ _ _ _ _ _)),
        (proj2 (map_calls_snoc_map _ _ _ _ _ _ _ _)).
      intros -> ->. split; lia.
    + rewrite !app_nil_r. intros -> ->. split; lia.
Qed.

(** Locks nest and balance: from a sound lock state and against a backend
    whose [map] succeeds, [n] locks for an admitted usage followed by [n]
    unlocks all succeed and leave every object, handle and context as
    before; when the usage union asks for the CPU the backend has seen
    [n] calls of [map] and [n] calls of [unmap], and none otherwise. *)
Theorem lock_session_restores (p : platform) (s : state) (bo : Z)
    (b : gralloc_drm_bo_t) (hd : gralloc_drm_handle_t) (d : gralloc_drm_t)
    (u x y w h : Z) (n : nat) :
  live_bo s bo b hd d -> lock_inv b ->
  lock_count b + Z.of_nat n < 2 ^ 31 ->
  lock_admitted hd b u -> map_succeeds p d bo ->
  exists s',
    lock_session p bo u x y w h n s = Ok 0 s' /\
    bos s' = bos s /\ handles s' = handles s /\ drms s' = drms s /\
    map_calls (trace s')
    = (map_calls (trace s)
       + n * (if cpu_access (Z.lor u (locked_for b)) then 1 else 0))%nat /\
    unmap_calls (trace s') = 
    (unmap_calls (trace s) + (map_calls (trace s') - map_calls (trace s)))%nat.
Proof.
  intros Hlive Hinv Hmax Hadm Hmap.
  destruct (lock_session_balanced p bo hd d u x y w h n s b
              Hlive Hinv Hmax Hadm Hmap)
    as (s' & Hrun & Hb & Hh & Hd & Hm & Hu).
  exists s'. repeat split; auto. lia.
Qed.

(** ** The device context *)

Lemma wbind_WOk {A B} (m : W A) (k : A -> W B) w a w' :
  m w = WOk a w' -> wbind m k w = k a w'.
Proof. intros H. unfold wbind. now rewrite H. Qed.

Lemma wbind_WFault {A B} (m : W A) (k : A -> W B) w f :
  m w = WFault f -> wbind m k w = WFault f.
Proof. intros H. unfold wbind. now rewrite H. Qed.

Lemma lift_Ok {A} (m : M A) w a s :
  m (core w) = Ok a s -> lift m w = WOk a (mk_world s (calls w)).
Proof. intros H. unfold lift. now rewrite H. Qed.

Lemma lift_Fault {A} (m : M A) w f :
  m (core w) = Fault f -> lift m w = WFault f.
Proof. intros H. unfold lift. now rewrite H. Qed.

Lemma sys_eq e w : sys e w = WOk tt (mk_world (core w) (calls w ++ [e])).
Proof. reflexivity. Qed.

Lemma get_calls_eq w : get_calls w = WOk (calls w) w.
Proof. reflexivity. Qed.

Lemma call_drv_create_eq (t : transport) k fd nm w :
  call_drv_create t k fd nm w
  = WOk (drv_create t (calls w) k fd nm)
      (mk_world (core w)
         (calls w ++ [SysDrvCreate k fd (drv_create t (calls w) k fd nm)])).
Proof. reflexivity. Qed.

Section InitDrv.

Variable t : transport.
Variable cfg : build_config.

(** The run of [init_drv_from_fd] once the kernel has named its module. *)
Lemma init_drv_named fd w nm :
  drmGetVersion t (calls w) fd = Some (Some nm) ->
  init_drv_from_fd t cfg fd w
  = wbind
      (if ENABLE_FREEDRENO cfg && String.eqb nm "msm" then
         call_drv_create t Freedreno fd nm
       else if ENABLE_INTEL cfg && String.eqb nm "i915" then
         call_drv_create t Intel fd nm
       else if ENABLE_RADEON cfg && String.eqb nm "radeon" then
         call_drv_create t Radeon fd nm
       else if ENABLE_NOUVEAU cfg && String.eqb nm "nouveau" then
         call_drv_create t Nouveau fd nm
       else if ENABLE_PIPE cfg then call_drv_create t Pipe fd nm
       else wret NULL)
      (fun drv => wbind (sys (SysFreeVersion fd)) (fun _ => wret drv))
      (mk_world (core w) (calls w ++ [SysGetVersion fd])).
Proof.
  intros Hv. unfold init_drv_from_fd.
  rewrite (wbind_WOk _ _ _ _ _ (get_calls_eq w)).
  rewrite (wbind_WOk _ _ _ _ _ (sys_eq _ w)). now rewrite Hv.
Qed.

Lemma init_drv_built fd w nm k :
  call_drv_create t k fd nm
    (mk_world (core w) (calls w ++ [SysGetVersion fd]))
  = WOk (drv_create t (calls w ++ [SysGetVersion fd]) k fd nm)
      (mk_world (core w)
         ((calls w ++ [SysGetVersion fd])
          ++ [SysDrvCreate k fd
                (drv_create t (calls w ++ [SysGetVersion fd]) k fd nm)])).
Proof. reflexivity. Qed.

End InitDrv.

Lemma init_drv_from_fd_cases (t : transport) (cfg : build_config)
    (fd : Z) (w : world) :
  exists r cs,
    init_drv_from_fd t cfg fd w
    = WOk r (mk_world (core w) (calls w ++ SysGetVersion fd :: cs)) /\
    ((drmGetVersion t (calls w) fd = None /\ cs = [] /\ r = NULL) \/
     (drmGetVersion t (calls w) fd <> None /\
      cs = [SysFreeVersion fd] /\ r = NULL) \/
     (exists k nm,
        drmGetVersion t (calls w) fd = Some (Some nm) /\
        enabled cfg k = true /\
        r = drv_create t (calls w ++ [SysGetVersion fd]) k fd nm /\
        cs = [SysDrvCreate k fd r; SysFreeVersion fd])).
Proof.
  destruct (drmGetVersion t (calls w) fd) as [[nm|]|] eqn:Hv.
  - rewrite (init_drv_named t cfg fd w nm Hv).
    assert (Hbuilt : forall k, enabled cfg k = true ->
      exists r cs,
        wbind (call_drv_create t k fd nm)
          (fun drv => wbind (sys (SysFreeVersion fd)) (fun _ => wret drv))
          (mk_world (core w) (calls w ++ [SysGetVersion fd]))
        = WOk r (mk_world (core w) (calls w ++ SysGetVersion fd :: cs)) /\
        ((Some (Some nm) = None /\ cs = [] /\ r = NULL) \/
         (Some (Some nm) <> None /\ cs = [SysFreeVersion fd] /\ r = NULL) \/
         (exists k' nm',
            Some (Some nm) = Some (Some nm') /\ enabled cfg k' = true /\
            r = drv_create t (calls w ++ [SysGetVersion fd]) k' fd nm' /\
            cs = [SysDrvCreate k' fd r; SysFreeVersion fd]))).
    { intros k Hk. eexists _, _. split.
      - rewrite (wbind_WOk _ _ _ _ _ (init_drv_built t fd w nm k)).
        rewrite (wbind_WOk _ _ _ _ _ (sys_eq _ _)). unfold wret.
        cbn [core calls]. rewrite <- !app_assoc. reflexivity.
      - right; right. exists k, nm. auto. }
    destruct (ENABLE_FREEDRENO cfg && String.eqb nm "msm") eqn:E1.
    { apply (Hbuilt Freedreno). now apply andb_prop in E1. }
    destruct (ENABLE_INTEL cfg && String.eqb nm "i915") eqn:E2.
    { apply (Hbuilt Intel). now apply andb_prop in E2. }
    destruct (ENABLE_RADEON cfg && String.eqb nm "radeon") eqn:E3.
    { apply (Hbuilt Radeon). now apply andb_prop in E3. }
    destruct (ENABLE_NOUVEAU cfg && String.eqb nm "nouveau") eqn:E4.
    { apply (Hbuilt Nouveau). now apply andb_prop in E4. }
    destruct (ENABLE_PIPE cfg) eqn:E5.
    { apply (Hbuilt Pipe). exact E5. }
    eexists _, _. split.
    + unfold wbind, wret, sys. cbn [core calls].
      rewrite <- app_assoc. reflexivity.
    + right; left. repeat split. discriminate.
  - eexists _, _. split.
    + unfold init_drv_from_fd.
      rewrite (wbind_WOk _ _ _ _ _ (get_calls_eq w)).
      rewrite (wbind_WOk _ _ _ _ _ (sys_eq _ w)). rewrite Hv.
      unfold wbind, wret, sys. cbn [core calls].
      rewrite <- app_assoc. reflexivity.
    + right; left. repeat split. discriminate.
  - eexists _, _. split.
    + unfold init_drv_from_fd.
      rewrite (wbind_WOk _ _ _ _ _ (get_calls_eq w)).
      rewrite (wbind_WOk _ _ _ _ _ (sys_eq _ w)). rewrite Hv.
      reflexivity.
    + left. auto.
Qed.

(** [init_drv_from_fd] never touches the store and frees the version
    exactly when it got one.  It calls at most one backend constructor,
    one that the build enables, and only when the kernel names its module;
    it returns what that constructor returned, and [NULL] when none was
    called. *)
Theorem init_drv_from_fd_calls (t : transport) (cfg : build_config)
    (fd : Z) (w : world) :
  exists r cs,
    init_drv_from_fd t cfg fd w
    = WOk r (mk_world (core w) (calls w ++ SysGetVersion fd :: cs)) /\
    ((drmGetVersion t (calls w) fd = None /\ cs = [] /\ r = NULL) \/
     (drmGetVersion t (calls w) fd <> None /\
      cs = [SysFreeVersion fd] /\ r = NULL) \/
     (exists k nm,
        drmGetVersion t (calls w) fd = Some (Some nm) /\
        enabled cfg k = true /\
        r = drv_create t (calls w ++ [SysGetVersion fd]) k fd nm /\
        cs = [SysDrvCreate k fd r; SysFreeVersion fd])).
Proof. apply init_drv_from_fd_cases. Qed.

(** A kernel module that has a dedicated backend in the build gets that
    backend and no other: what its constructor returns is the result, also
    when that is [NULL] and the pipe backend is enabled. *)
Theorem dedicated_backend_no_fallback (t : transport) (cfg : build_config)
    (fd : Z) (w : world) (k : backend_kind) (nm : string) :
  drmGetVersion t (calls w) fd = Some (Some nm) ->
  enabled cfg k = true -> dedicated_name k = Some nm ->
  let drv := drv_create t (calls w ++ [SysGetVersion fd]) k fd nm in
  init_drv_from_fd t cfg fd w
  = WOk drv
      (mk_world (core w)
         (calls w ++ [SysGetVersion fd; SysDrvCreate k fd drv;
                      SysFreeVersion fd])).
Proof.
  intros Hv Hk Hname drv. rewrite (init_drv_named t cfg fd w nm Hv).
  assert (Hrun :
    wbind (call_drv_create t k fd nm)
      (fun drv => wbind (sys (SysFreeVersion fd)) (fun _ => wret drv))
      (mk_world (core w) (calls w ++ [SysGetVersion fd]))
    = WOk drv
        (mk_world (core w)
           (calls w ++ [SysGetVersion fd; SysDrvCreate k fd drv;
                        SysFreeVersion fd]))).
  { rewrite (wbind_WOk _ _ _ _ _ (init_drv_built t fd w nm k)).
    rewrite (wbind_WOk _ _ _ _ _ (sys_eq _ _)). unfold wret.
    cbn [core calls]. rewrite <- !app_assoc. reflexivity. }
  destruct k; cbn in Hk, Hname; try discriminate;
    injection Hname as <-; rewrite Hk; cbn [String.eqb Ascii.eqb Bool.eqb
      andb]; rewrite ?andb_false_r; exact Hrun.
Qed.

(** Any other module name goes to the pipe backend when the build has it,
    and to no backend at all when it has not. *)
Theorem pipe_is_the_fallback (t : transport) (cfg : build_config)
    (fd : Z) (w : world) (nm : string) :
  drmGetVersion t (calls w) fd = Some (Some nm) ->
  no_dedicated cfg nm ->
  let cs := calls w ++ [SysGetVersion fd] in
  init_drv_from_fd t cfg fd w
  = if ENABLE_PIPE cfg then
      WOk (drv_create t cs Pipe fd nm)
        (mk_world (core w)
           (cs ++ [SysDrvCreate Pipe fd (drv_create t cs Pipe fd nm);
                   SysFreeVersion fd]))
    else WOk NULL (mk_world (core w) (cs ++ [SysFreeVersion fd])).
Proof.
  intros Hv Hno cs. rewrite (init_drv_named t cfg fd w nm Hv).
  assert (Hoff : forall k s,
            dedicated_name k = Some s ->
            enabled cfg k && String.eqb nm s = false).
  { intros k s Hs. destruct (enabled cfg k) eqn:Hk; [|reflexivity].
    cbn [andb]. apply String.eqb_neq. intros ->. now apply (Hno k). }
  pose proof (Hoff Freedreno "msm"%string eq_refl) as H1.
  pose proof (Hoff Intel "i915"%string eq_refl) as H2.
  pose proof (Hoff Radeon "radeon"%string eq_refl) as H3.
  pose proof (Hoff Nouveau "nouveau"%string eq_refl) as H4.
  cbn [enabled] in H1, H2, H3, H4. rewrite H1, H2, H3, H4.
  destruct (ENABLE_PIPE cfg).
  - rewrite (wbind_WOk _ _ _ _ _ (init_drv_built t fd w nm Pipe)).
    rewrite (wbind_WOk _ _ _ _ _ (sys_eq _ _)). unfold wret.
    cbn [core calls]. fold cs. rewrite <- !app_assoc. reflexivity.
  - reflexivity.
Qed.

(** ** Creating and destroying a context *)

Lemma load_drm_Ok s drm d :
  drm <> NULL -> drms s !! drm = Some d -> load_drm drm s = Ok d s.
Proof.
  intros Hn Hl. unfold load_drm.
  destruct (Z.eqb_spec drm NULL); [contradiction|]. now rewrite Hl.
Qed.

Lemma load_drm_freed s drm :
  drm <> NULL -> drms s !! drm = None -> load_drm drm s = Fault InvalidDeref.
Proof.
  intros Hn Hl. unfold load_drm.
  destruct (Z.eqb_spec drm NULL); [contradiction|]. now rewrite Hl.
Qed.

Lemma store_drm_Ok s drm d f :
  drm <> NULL -> drms s !! drm = Some d ->
  store_drm drm f s = Ok tt (with_drms (<[drm := f d]> (drms s)) s).
Proof.
  intros Hn Hl. unfold store_drm.
  now rewrite (bind_Ok _ _ _ _ _ (load_drm_Ok _ _ _ Hn Hl)).
Qed.

Lemma free_drm_Ok s drm d :
  drm <> NULL -> drms s !! drm = Some d ->
  free_drm drm s = Ok tt (with_drms (delete drm (drms s)) s).
Proof.
  intros Hn Hl. unfold free_drm.
  destruct (Z.eqb_spec drm NULL); [contradiction|]. now rewrite Hl.
Qed.

Ltac wnorm :=
  cbn [core calls]; try unfold with_drms; norm.

Ltac wside :=
  wnorm; rewrite ?lookup_insert_eq;
  first [eassumption | reflexivity | discriminate | congruence].

Ltac wlift lem :=
  (erewrite wbind_WOk by (apply lift_Ok; eapply lem; wside)); wnorm.

(** The run of [gralloc_drm_create] from the open of the device on, for a
    context allocated at [a], in terms of what [init_drv_from_fd]
    returns. *)
Lemma create_after_calloc (p : platform) (t : transport)
    (cfg : build_config) (w : world) :
  calloc_ok p (brk (core w)) = true ->
  let a := Z.pos (brk (core w)) in
  let fd0 := drmOpenByFB t (calls w) in
  let s1 := mk_state (gralloc_drm_pid (core w)) (handles (core w))
              (bos (core w)) (delete a (drms (core w)))
              (Pos.succ (brk (core w))) (trace (core w)) in
  (fd0 < 0 ->
   gralloc_drm_create p t cfg w
   = WOk NULL (mk_world s1 (calls w ++ [SysOpenByFB fd0; SysClose fd0]))) /\
  (0 <= fd0 ->
   forall r cs,
     init_drv_from_fd t cfg fd0
       (mk_world
          (mk_state (gralloc_drm_pid (core w)) (handles (core w))
             (bos (core w)) (<[a := mk_drm fd0 0 0]> (drms (core w)))
             (Pos.succ (brk (core w))) (trace (core w)))
          (calls w ++ [SysOpenByFB fd0]))
     = WOk r
         (mk_world
            (mk_state (gralloc_drm_pid (core w)) (handles (core w))
               (bos (core w)) (<[a := mk_drm fd0 0 0]> (drms (core w)))
               (Pos.succ (brk (core w))) (trace (core w)))
            ((calls w ++ [SysOpenByFB fd0]) ++ SysGetVersion fd0 :: cs)) ->
     gralloc_drm_create p t cfg w
     = if r =? NULL then
         WOk NULL
           (mk_world s1
              (calls w ++ SysOpenByFB fd0 :: (SysGetVersion fd0 :: cs)
                 ++ [SysClose fd0]))
       else
         WOk a
           (mk_world
              (mk_state (gralloc_drm_pid (core w)) (handles (core w))
                 (bos (core w)) (<[a := mk_drm fd0 r 0]> (drms (core w)))
                 (Pos.succ (brk (core w))) (trace (core w)))
              (calls w ++ SysOpenByFB fd0 :: SysGetVersion fd0 :: cs))).
Proof.
  intros Hc a fd0 s1.
  pose proof (Zpos_not_NULL (brk (core w))) as Ha. fold a in Ha.
  split.
  - intros Hneg. unfold gralloc_drm_create.
    erewrite wbind_WOk.
    2:{ apply lift_Ok. unfold calloc_drm. rewrite Hc. reflexivity. }
    fold a. destruct (Z.eqb_spec a NULL); [contradiction|].
    erewrite wbind_WOk by apply get_calls_eq. cbn zeta. wnorm.
    fold fd0.
    erewrite wbind_WOk by apply sys_eq. wnorm.
    wlift store_drm_Ok. cbn [set_fd set_drv fd drv first_post].
    destruct (Z.ltb_spec fd0 0); [|lia].
    rewrite (wbind_WOk _ _ _ _ _ eq_refl).
    wlift load_drm_Ok. rewrite insert_insert_eq.
    cbn [set_fd set_drv fd drv first_post Z.eqb NULL].
    erewrite wbind_WOk by apply sys_eq. wnorm.
    wlift free_drm_Ok. unfold wret, s1. cbn [fd].
    rewrite delete_insert_eq, <- app_assoc. reflexivity.
  - intros Hpos r cs Hinit. unfold gralloc_drm_create.
    erewrite wbind_WOk.
    2:{ apply lift_Ok. unfold calloc_drm. rewrite Hc. reflexivity. }
    fold a. destruct (Z.eqb_spec a NULL); [contradiction|].
    erewrite wbind_WOk by apply get_calls_eq. cbn zeta. wnorm.
    fold fd0.
    erewrite wbind_WOk by apply sys_eq. wnorm.
    wlift store_drm_Ok. cbn [set_fd set_drv fd drv first_post].
    destruct (Z.ltb_spec fd0 0); [lia|].
    rewrite insert_insert_eq.
    erewrite wbind_WOk.
    2:{ rewrite (wbind_WOk _ _ _ _ _ Hinit).
        apply lift_Ok. eapply store_drm_Ok; wside. }
    wnorm. rewrite insert_insert_eq. cbn [set_drv fd first_post].
    wlift load_drm_Ok. cbn [set_fd set_drv fd drv first_post].
    destruct (Z.eqb_spec r NULL) as [E|E].
    + erewrite wbind_WOk by apply sys_eq. wnorm.
      wlift free_drm_Ok. unfold wret, s1. cbn [fd].
      rewrite delete_insert_eq, <- !app_assoc. reflexivity.
    + unfold wret. rewrite <- !app_assoc. reflexivity.
Qed.

Lemma create_calloc_fails (p : platform) (t : transport)
    (cfg : build_config) (w : world) :
  calloc_ok p (brk (core w)) = false ->
  gralloc_drm_create p t cfg w
  = WOk NULL
      (mk_world (with_brk (Pos.succ (brk (core w))) (core w)) (calls w)).
Proof.
  intros Hc. unfold gralloc_drm_create. erewrite wbind_WOk.
  2:{ apply lift_Ok. unfold calloc_drm. rewrite Hc. reflexivity. }
  reflexivity.
Qed.

(** [gralloc_drm_create] returns a context only when it is complete: the
    device opened (descriptor not negative), an enabled backend built a
    driver, [first_post] is clear, and the descriptor stays open.  In
    every other case it returns [NULL], the context it had allocated is
    freed again, and the descriptor it got from the open, valid or not, has
    been passed to [close].  Handles, objects and the other contexts are
    never touched. *)
Theorem create_valid_or_nothing (p : platform) (t : transport)
    (cfg : build_config) (w : world) :
  let a := Z.pos (brk (core w)) in
  let fd0 := drmOpenByFB t (calls w) in
  exists r w',
    gralloc_drm_create p t cfg w = WOk r w' /\
    handles (core w') = handles (core w) /\ bos (core w') = bos (core w) /\
    (forall a', a' <> a -> drms (core w') !! a' = drms (core w) !! a') /\
    (r = NULL ->
     (calloc_ok p (brk (core w)) = false /\
      drms (core w') = drms (core w) /\ calls w' = calls w) \/
     (drms (core w') !! a = None /\
      exists mid,
        calls w' = calls w ++ SysOpenByFB fd0 :: mid ++ [SysClose fd0])) /\
    (r <> NULL ->
     r = a /\ 0 <= fd0 /\
     exists k drv,
       enabled cfg k = true /\ drv <> NULL /\
       drms (core w') !! a = Some (mk_drm fd0 drv 0) /\
       calls w' = calls w ++ [SysOpenByFB fd0; SysGetVersion fd0;
                              SysDrvCreate k fd0 drv; SysFreeVersion fd0]).
Proof.
  intros a fd0.
  destruct (calloc_ok p (brk (core w))) eqn:Hc.
  2:{ eexists _, _. split; [apply create_calloc_fails; exact Hc|].
      wnorm. do 3 (split; [auto|]). split; [auto|]. intros []. reflexivity. }
  destruct (create_after_calloc p t cfg w Hc) as [Hneg Hpos].
  fold a fd0 in Hneg, Hpos.
  destruct (Z.lt_ge_cases fd0 0) as [Hfd|Hfd].
  - eexists _, _. split; [apply (Hneg Hfd)|]. wnorm.
    do 2 (split; [reflexivity|]).
    split; [intros a' Ha'; now rewrite lookup_delete_ne|].
    split; [|intros []; reflexivity].
    intros _. right. rewrite lookup_delete_eq. split; [reflexivity|].
    exists []. reflexivity.
  - destruct (init_drv_from_fd_cases t cfg fd0
                (mk_world
                   (mk_state (gralloc_drm_pid (core w)) (handles (core w))
                      (bos (core w))
                      (<[a := mk_drm fd0 0 0]> (drms (core w)))
                      (Pos.succ (brk (core w))) (trace (core w)))
                   (calls w ++ [SysOpenByFB fd0])))
      as (r & cs & Hinit & Hcases).
    cbn [core calls] in Hinit, Hcases.
    pose proof (Hpos Hfd r cs Hinit) as Hrun.
    destruct (Z.eqb_spec r NULL) as [E|E].
    + eexists _, _. split; [exact Hrun|]. wnorm.
      do 2 (split; [reflexivity|]).
      split; [intros a' Ha'; now rewrite lookup_delete_ne|].
      split; [|intros []; reflexivity].
      intros _. right. rewrite lookup_delete_eq. split; [reflexivity|].
      exists (SysGetVersion fd0 :: cs). reflexivity.
    + eexists _, _. split; [exact Hrun|]. wnorm.
      do 2 (split; [reflexivity|]).
      split; [intros a' Ha'; now rewrite lookup_insert_ne|].
      split; [intros Ea; discriminate Ea|].
      intros _. split; [reflexivity|]. split; [exact Hfd|].
      destruct Hcases as [(_ & _ & Hr)|[(_ & _ & Hr)|
        (k & nm & _ & Hk & Hr & ->)]]; try contradiction.
      exists k, r. rewrite lookup_insert_eq.
      repeat split; auto.
Qed.

Lemma destroy_drv_step (d : gralloc_drm_t) (w : world) :
  (if negb (drv d =? NULL) then sys (SysDrvDestroy (drv d)) else wret tt) w
  = WOk tt
      (mk_world (core w)
         (calls w ++ (if drv d =? NULL then []
                      else [SysDrvDestroy (drv d)]))).
Proof.
  destruct (drv d =? NULL); cbn [negb].
  - unfold wret. rewrite app_nil_r. now destruct w.
  - apply sys_eq.
Qed.

Lemma destroy_context_run (w : world) (dm : Z) (d : gralloc_drm_t) :
  dm <> NULL -> drms (core w) !! dm = Some d ->
  gralloc_drm_destroy dm w
  = WOk tt
      (mk_world (with_drms (delete dm (drms (core w))) (core w))
         (calls w ++ (if drv d =? NULL then []
                      else [SysDrvDestroy (drv d)])
            ++ [SysClose (fd d)])).
Proof.
  intros Hn Hl. unfold gralloc_drm_destroy.
  erewrite wbind_WOk by (apply lift_Ok; apply load_drm_Ok; eassumption).
  erewrite wbind_WOk by apply destroy_drv_step.
  erewrite wbind_WOk by apply sys_eq.
  cbn [core calls]. rewrite <- app_assoc.
  apply lift_Ok. cbn [core calls]. eapply free_drm_Ok; eassumption.
Qed.

(** [gralloc_drm_destroy] of a live context destroys its driver, closes
    its descriptor and frees it, in that order, and touches nothing else:
    in particular the objects of the context stay where they are.  After
    it the context is gone: asking for its descriptor reads freed
    memory. *)
Theorem destroy_releases_context (w : world) (dm : Z) (d : gralloc_drm_t) :
  dm <> NULL -> drms (core w) !! dm = Some d ->
  exists w',
    gralloc_drm_destroy dm w = WOk tt w' /\
    calls w'
    = calls w ++ (if drv d =? NULL then [] else [SysDrvDestroy (drv d)])
        ++ [SysClose (fd d)] /\
    drms (core w') = delete dm (drms (core w)) /\
    handles (core w') = handles (core w) /\ bos (core w') = bos (core w) /\
    trace (core w') = trace (core w) /\
    gralloc_drm_get_fd dm (core w') = Fault InvalidDeref.
Proof.
  intros Hn Hl. eexists. split; [apply destroy_context_run; eassumption|].
  wnorm. repeat split.
  unfold gralloc_drm_get_fd. erewrite bind_Fault; [reflexivity|].
  apply load_drm_freed; [assumption|]. wnorm. apply lookup_delete_eq.
Qed.

(** Destroying a context does not release its objects, and they cannot be
    released afterwards: the last [gralloc_drm_bo_decref] of an object of
    the destroyed context reaches for the backend through the freed
    context. *)
Theorem destroy_strands_objects (w : world) (dm : Z) (d : gralloc_drm_t)
    (bo : Z) (b : gralloc_drm_bo_t) :
  dm <> NULL -> drms (core w) !! dm = Some d ->
  bo <> NULL -> bos (core w) !! bo = Some b -> drm_of b = dm ->
  refcount b = 1 ->
  exists w',
    gralloc_drm_destroy dm w = WOk tt w' /\
    bos (core w') !! bo = Some b /\
    gralloc_drm_bo_decref bo (core w') = Fault InvalidDeref.
Proof.
  intros Hn Hl Hbn Hbl Hdrm Hr.
  eexists. split; [apply destroy_context_run; eassumption|].
  wnorm. split; [exact Hbl|].
  unfold gralloc_drm_bo_decref.
  erewrite bind_Ok by (apply load_bo_Ok; [|norm]; eassumption).
  rewrite Hr. change (wrap_uint (1 - 1)) with 0.
  erewrite bind_Ok by (eapply store_bo_Ok; [|norm]; eassumption).
  norm. cbn [Z.eqb]. unfold gralloc_drm_bo_destroy.
  erewrite bind_Ok
    by (apply load_bo_Ok; [assumption|norm; apply lookup_insert_eq]).
  cbn [refcount set_refcount Z.eqb negb handle imported].
  erewrite bind_Ok
    by (eapply rm_fb_eq; [assumption|norm; apply lookup_insert_eq]).
  erewrite bind_Fault; [reflexivity|].
  unfold call_free.
  erewrite bind_Ok
    by (apply load_bo_Ok; [assumption|norm; apply lookup_insert_eq]).
  erewrite bind_Fault; [reflexivity|].
  unfold load_drv. erewrite bind_Fault; [reflexivity|].
  apply load_drm_freed; cbn [drm_of set_fb_id set_refcount];
    [rewrite Hdrm; assumption|].
  norm. rewrite Hdrm. apply lookup_delete_eq.
Qed.

(** A context that [gralloc_drm_create] returned gives back everything in
    [gralloc_drm_destroy]: the descriptor that was opened is the one
    [gralloc_drm_get_fd] reports and the one that is closed, the driver
    that was built is the one that is destroyed, and the store is as it was
    before the context was created. *)
Theorem create_destroy_roundtrip (p : platform) (t : transport)
    (cfg : build_config) (w w' : world) (r : Z) :
  gralloc_drm_create p t cfg w = WOk r w' -> r <> NULL ->
  drms (core w) !! r = None ->
  let fd0 := drmOpenByFB t (calls w) in
  exists k drv w'',
    gralloc_drm_get_fd r (core w') = Ok fd0 (core w') /\
    gralloc_drm_destroy r w' = WOk tt w'' /\
    handles (core w'') = handles (core w) /\
    bos (core w'') = bos (core w) /\
    drms (core w'') = drms (core w) /\
    trace (core w'') = trace (core w) /\
    calls w''
    = calls w ++ [SysOpenByFB fd0; SysGetVersion fd0;
                  SysDrvCreate k fd0 drv; SysFreeVersion fd0;
                  SysDrvDestroy drv; SysClose fd0].
Proof.
  intros Hrun Hr Hfresh fd0.
  destruct (calloc_ok p (brk (core w))) eqn:Hc.
  2:{ rewrite (create_calloc_fails p t cfg w Hc) in Hrun.
      injection Hrun as <- _. now contradiction Hr. }
  destruct (create_after_calloc p t cfg w Hc) as [Hneg Hpos].
  fold fd0 in Hneg, Hpos.
  destruct (Z.lt_ge_cases fd0 0) as [Hfd|Hfd].
  { rewrite (Hneg Hfd) in Hrun. injection Hrun as <- _.
    now contradiction Hr. }
  destruct (init_drv_from_fd_cases t cfg fd0
              (mk_world
                 (mk_state (gralloc_drm_pid (core w)) (handles (core w))
                    (bos (core w))
                    (<[Z.pos (brk (core w)) := mk_drm fd0 0 0]>
                       (drms (core w)))
                    (Pos.succ (brk (core w))) (trace (core w)))
                 (calls w ++ [SysOpenByFB fd0])))
    as (r0 & cs & Hinit & Hcases).
  cbn [core calls] in Hinit, Hcases.
  rewrite (Hpos Hfd r0 cs Hinit) in Hrun.
  destruct (Z.eqb_spec r0 NULL) as [E|E].
  { injection Hrun as <- _. now contradiction Hr. }
  injection Hrun as <- <-.
  destruct Hcases as [(_ & _ & Hr0)|[(_ & _ & Hr0)|
    (k & nm & _ & Hk & Hr0 & ->)]]; try contradiction.
  assert (Hlive :
    drms (core (mk_world
       (mk_state (gralloc_drm_pid (core w)) (handles (core w))
          (bos (core w))
          (<[Z.pos (brk (core w)) := mk_drm fd0 r0 0]> (drms (core w)))
          (Pos.succ (brk (core w))) (trace (core w)))
       (calls w ++ [SysOpenByFB fd0; SysGetVersion fd0;
                    SysDrvCreate k fd0 r0; SysFreeVersion fd0])))
    !! Z.pos (brk (core w)) = Some (mk_drm fd0 r0 0)).
  { cbn [core drms]. apply lookup_insert_eq. }
  exists k, r0. eexists. split.
  { unfold gralloc_drm_get_fd.
    erewrite bind_Ok by (apply load_drm_Ok; [exact Hr|]; cbn [core drms];
                         apply lookup_insert_eq).
    reflexivity. }
  split.
  { apply (destroy_context_run _ _ _ Hr Hlive). }
  wnorm. cbn [drv fd]. destruct (Z.eqb_spec r0 NULL); [contradiction|].
  rewrite delete_insert_eq, delete_id by exact Hfresh.
  rewrite <- !app_assoc. repeat split.
Qed.

(** The operations on the device of a live context go to the context's own
    descriptor and leave the store alone: [gralloc_drm_get_magic],
    [gralloc_drm_auth_magic] and [gralloc_drm_drop_master] change nothing,
    [gralloc_drm_set_master] returns 0 and sets [first_post], keeping the
    descriptor and the driver, so that a second call leaves the same
    store; none of them touches a handle or an object. *)
Theorem device_calls_frame (t : transport) (w : world) (dm magic : Z)
    (d : gralloc_drm_t) :
  dm <> NULL -> drms (core w) !! dm = Some d ->
  let s1 := with_drms (<[dm := mk_drm (fd d) (drv d) 1]> (drms (core w)))
              (core w) in
  gralloc_drm_get_magic t dm w
  = WOk (drmGetMagic t (calls w) (fd d))
      (mk_world (core w) (calls w ++ [SysGetMagic (fd d)])) /\
  gralloc_drm_auth_magic t dm magic w
  = WOk (drmAuthMagic t (calls w) (fd d) magic)
      (mk_world (core w) (calls w ++ [SysAuthMagic (fd d) magic])) /\
  gralloc_drm_drop_master dm w
  = WOk tt (mk_world (core w) (calls w ++ [SysDropMaster (fd d)])) /\
  gralloc_drm_set_master dm w
  = WOk 0 (mk_world s1 (calls w ++ [SysSetMaster (fd d)])) /\
  gralloc_drm_set_master dm (mk_world s1 (calls w ++ [SysSetMaster (fd d)]))
  = WOk 0 (mk_world s1 (calls w ++ [SysSetMaster (fd d);
                                    SysSetMaster (fd d)])).
Proof.
  intros Hn Hl s1.
  assert (Hl1 : drms s1 !! dm = Some (mk_drm (fd d) (drv d) 1)).
  { unfold s1. wnorm. apply lookup_insert_eq. }
  split; [|split; [|split; [|split]]].
  - unfold gralloc_drm_get_magic.
    erewrite wbind_WOk by (apply lift_Ok; apply load_drm_Ok; eassumption).
    erewrite wbind_WOk by apply get_calls_eq.
    erewrite wbind_WOk by apply sys_eq. unfold wret. cbn [core calls]. reflexivity.
  - unfold gralloc_drm_auth_magic.
    erewrite wbind_WOk by (apply lift_Ok; apply load_drm_Ok; eassumption).
    erewrite wbind_WOk by apply get_calls_eq.
    erewrite wbind_WOk by apply sys_eq. unfold wret. cbn [core calls]. reflexivity.
  - unfold gralloc_drm_drop_master.
    erewrite wbind_WOk by (apply lift_Ok; apply load_drm_Ok; eassumption).
    reflexivity.
  - unfold gralloc_drm_set_master.
    erewrite wbind_WOk by (apply lift_Ok; apply load_drm_Ok; eassumption).
    erewrite wbind_WOk by apply sys_eq.
    erewrite wbind_WOk
      by (apply lift_Ok; cbn [core calls]; eapply store_drm_Ok; eassumption).
    unfold wret, set_first_post. cbn [core calls]. reflexivity.
  - unfold gralloc_drm_set_master.
    erewrite wbind_WOk
      by (apply lift_Ok; cbn [core]; apply load_drm_Ok; eassumption).
    erewrite wbind_WOk by apply sys_eq.
    erewrite wbind_WOk
      by (apply lift_Ok; cbn [core calls]; eapply store_drm_Ok; eassumption).
    unfold wret, set_first_post, s1, with_drms. cbn [core calls fd drv drms
      gralloc_drm_pid handles bos brk trace].
    rewrite insert_insert_eq, <- app_assoc. reflexivity.
Qed.

(** ** The format query *)

(** [gralloc_drm_resolve_format] does not validate the handle it is given:
    it never asks which process stamped it and follows [handle->data] as it
    is.  For a well-formed handle without an object (never registered in
    this process, or left behind by a failed import) it dereferences a null
    pointer; for one whose [data] points at no live object it reads
    invalid memory; and when [data] points at a live object of a live
    context it calls the backend's [resolve_format], if the backend has
    one, and changes nothing else. *)
Theorem resolve_format_trusts_data (p : platform) (s : state) (_handle : Z)
    (hd : gralloc_drm_handle_t) :
  _handle <> NULL -> handles s !! _handle = Some hd ->
  handle_check p hd = true ->
  (data hd = NULL ->
   gralloc_drm_resolve_format p _handle s = Fault NullDeref) /\
  (data hd <> NULL -> bos s !! data hd = None ->
   gralloc_drm_resolve_format p _handle s = Fault InvalidDeref) /\
  (forall b d,
     data hd <> NULL -> bos s !! data hd = Some b ->
     drm_of b <> NULL -> drms s !! drm_of b = Some d -> drv d <> NULL ->
     gralloc_drm_resolve_format p _handle s
     = Ok tt
         (with_trace
            (trace s ++ (if drv_resolve_format p (drv d)
                         then [EvResolveFormat (drv d) (data hd)]
                         else [])) s)).
Proof.
  intros Hn Hl Hc.
  unfold gralloc_drm_resolve_format.
  rewrite (bind_Ok _ _ _ _ _ (gralloc_drm_handle_good p s _ _ Hn Hl Hc)).
  rewrite (bind_Ok _ _ _ _ _ (load_handle_Ok _ _ _ Hn Hl)).
  split; [|split].
  - intros ->. reflexivity.
  - intros Hd Hb. apply bind_Fault. unfold load_bo.
    destruct (Z.eqb_spec (data hd) NULL); [contradiction|]. now rewrite Hb.
  - intros b d Hd Hb Hdn Hdl Hdrv.
    rewrite (bind_Ok _ _ _ _ _ (load_bo_Ok _ _ _ Hd Hb)).
    destruct (Z.eqb_spec _handle NULL); [contradiction|]. cbn [negb].
    rewrite (bind_Ok _ _ _ _ _ (load_drv_Ok _ _ _ Hdn Hdl Hdrv)).
    destruct (drv_resolve_format p (drv d)); [reflexivity|].
    unfold ret, with_trace. rewrite app_nil_r. now destruct s.
Qed.

(** ** The further properties at concrete inputs *)

Lemma malformed_handle_refused_witness :
  gralloc_drm_handle_register demo_platform 1 100
    (arrived_state foreign_handle)
  = Ok (- EINVAL) (arrived_state foreign_handle) /\
  gralloc_drm_handle_unregister demo_platform 1
    (arrived_state foreign_handle)
  = Ok (- EINVAL) (arrived_state foreign_handle) /\
  gralloc_drm_bo_from_handle demo_platform 1 (arrived_state foreign_handle)
  = Ok NULL (arrived_state foreign_handle).
Proof.
  unshelve epose proof
    (malformed_handle_refused demo_platform (arrived_state foreign_handle)
       (arrived_state foreign_handle) 1 100 _) as H; [ev|].
  exact H.
Defined.

Lemma import_then_cached_witness :
  exists s1,
    validate_handle demo_platform 1 100
      (arrived_state (demo_handle 3 7 999 77)) = Ok 2 s1 /\
    bos s1 !! 2 = Some (imported_bo 100 1 (demo_out 7) 1) /\
    validate_handle demo_platform 1 NULL s1 = Ok 2 s1.
Proof.
  unshelve epose proof
    (import_then_cached demo_platform
       (arrived_state (demo_handle 3 7 999 77)) 1 100
       (demo_handle 3 7 999 77) demo_drm (demo_out 7) NULL _)
    as (s1 & H1 & H2 & _ & _ & H5); [ev|].
  exists s1. split; [exact H1|]. split; [exact H2|exact H5].
Defined.

Lemma register_needs_context_witness :
  gralloc_drm_handle_register demo_platform 1 NULL
    (arrived_state (demo_handle 3 7 999 77))
  = Ok (- EINVAL)
      (cache_pid demo_platform (arrived_state (demo_handle 3 7 999 77))) /\
  exists s2,
    gralloc_drm_handle_register demo_platform 1 100
      (cache_pid demo_platform (arrived_state (demo_handle 3 7 999 77)))
    = Ok 0 s2 /\
    bos s2 !! 2 = Some (imported_bo 100 1 (demo_out 7) 2).
Proof.
  unshelve epose proof
    (register_needs_context demo_platform
       (arrived_state (demo_handle 3 7 999 77)) 1 100
       (demo_handle 3 7 999 77) demo_drm (demo_out 7) _)
    as (H1 & s2 & H2 & H3 & _); [ev|].
  split; [exact H1|]. exists s2. split; [exact H2|exact H3].
Defined.

Lemma create_then_lookup_witness :
  exists s1,
    gralloc_drm_bo_create demo_platform 100 640 480 1 3
      (arrived_state (demo_handle 3 7 999 77)) = Ok 3 s1 /\
    gralloc_drm_bo_get_handle 3 true s1 = Ok (2, Some 2560) s1 /\
    gralloc_drm_bo_from_handle demo_platform 2 s1 = Ok 3 s1 /\
    gralloc_drm_get_gem_handle demo_platform 2 s1 = Ok 7 s1.
Proof.
  unshelve epose proof
    (create_then_lookup demo_platform
       (arrived_state (demo_handle 3 7 999 77)) 100 demo_drm 640 480 1 3
       (demo_out 7) _ _ _ _ _)
    as (s1 & b1 & H1 & _ & _ & _ & _ & _ & H2 & H3 & H4 & _);
    [ev | ev | ev | ev | ev |].
  exists s1. split; [exact H1|]. split; [exact H2|].
  split; [exact H3|exact H4].
Defined.

Lemma failed_create_changes_nothing_witness :
  exists s1,
    gralloc_drm_bo_create exhausted_platform 100 640 480 1 3
      (arrived_state (demo_handle 3 7 999 77)) = Ok NULL s1 /\
    handles s1 = handles (arrived_state (demo_handle 3 7 999 77)) /\
    bos s1 = bos (arrived_state (demo_handle 3 7 999 77)) /\
    live_allocations (trace s1) = 0.
Proof.
  destruct (gralloc_drm_bo_create exhausted_platform 100 640 480 1 3
              (arrived_state (demo_handle 3 7 999 77)))
    as [r s1|f] eqn:E; [|vm_compute in E; discriminate E].
  assert (Hr : r = NULL)
    by (vm_compute in E; injection E as <- _; reflexivity).
  subst r. exists s1. split; [reflexivity|].
  unshelve epose proof
    (failed_create_changes_nothing exhausted_platform
       (arrived_state (demo_handle 3 7 999 77)) s1 100 demo_drm
       640 480 1 3 _ _ _ _ E) as (H1 & H2 & _ & _ & H5);
    [ev | ev | ev | ev |].
  split; [exact H1|]. split; [exact H2|exact H5].
Defined.

Lemma last_reference_handle_fate_witness :
  exists s',
    gralloc_drm_bo_decref 2
      (demo_state (demo_handle 3 7 1234 2) (demo_bo 0 1 0 0)) = Ok tt s' /\
    bos s' !! 2 = None /\ handles s' !! 1 = None /\
    validate_handle demo_platform 1 100 s' = Fault InvalidDeref.
Proof.
  unshelve epose proof
    (last_reference_handle_fate demo_platform
       (demo_state (demo_handle 3 7 1234 2) (demo_bo 0 1 0 0)) 1
       (demo_handle 3 7 1234 2) 2 (demo_bo 0 1 0 0) demo_drm 100
       _ _ _ _ _) as (s' & H1 & H2 & H3 & _);
    [ev | ev | ev | ev | ev |].
  destruct (H3 eq_refl) as (H4 & H5 & _).
  exists s'. split; [exact H1|]. split; [exact H2|].
  split; [exact H4|exact H5].
Defined.

Lemma reimport_after_destroy_witness :
  exists s1 s2 s3,
    gralloc_drm_handle_register demo_platform 1 100
      (arrived_state (demo_handle 3 7 999 77)) = Ok 0 s1 /\
    gralloc_drm_handle_unregister demo_platform 1 s1 = Ok 0 s2 /\
    bos s2 !! 2 = None /\
    gralloc_drm_handle_register demo_platform 1 100 s2 = Ok 0 s3 /\
    bos s3 !! 3 = Some (imported_bo 100 1 (demo_out 7) 2).
Proof.
  unshelve epose proof
    (reimport_after_destroy demo_platform
       (arrived_state (demo_handle 3 7 999 77)) 1 100
       (demo_handle 3 7 999 77) demo_drm (demo_out 7) (demo_out 7)
       _ _ _ _)
    as (s1 & s2 & s3 & H1 & H2 & H3 & _ & H4 & H5 & _);
    [ev | ev | ev | ev |].
  exists s1, s2, s3. split; [exact H1|]. split; [exact H2|].
  split; [exact H3|]. split; [exact H4|exact H5].
Defined.

Lemma lock_effect_witness :
  exists r s' b',
    gralloc_drm_bo_lock demo_platform 2 0x33 0 0 640 480
      (demo_state (demo_handle 0x33 7 1234 2) (demo_bo 0 1 0 0))
    = Ok r s' /\
    bos s' !! 2 = Some b' /\ refcount b' = 1 /\
    (fst r = 0 -> lock_count b' = 1 /\ locked_for b' = 0x33).
Proof.
  destruct (gralloc_drm_bo_lock demo_platform 2 0x33 0 0 640 480
              (demo_state (demo_handle 0x33 7 1234 2) (demo_bo 0 1 0 0)))
    as [r s'|f] eqn:E; [|vm_compute in E; discriminate E].
  unshelve epose proof
    (lock_effect demo_platform
       (demo_state (demo_handle 0x33 7 1234 2) (demo_bo 0 1 0 0)) s' 2
       (demo_bo 0 1 0 0) (demo_handle 0x33 7 1234 2) demo_drm
       0x33 0 0 640 480 r _ _ E)
    as (_ & _ & _ & b' & H1 & H2 & _ & _ & _ & _ & H3 & _); [ev | ev |].
  exists r, s', b'. split; [reflexivity|]. split; [exact H1|].
  split; [exact H2|exact H3].
Defined.

Lemma lock_state_invariant_witness :
  exists s' b',
    gralloc_drm_bo_unlock 2
      (demo_state (demo_handle 0x33 7 1234 2) (demo_bo 0 1 1 0x33))
    = Ok tt s' /\
    bos s' !! 2 = Some b' /\ lock_inv b'.
Proof.
  unshelve epose proof
    (lock_state_invariant demo_platform
       (demo_state (demo_handle 0x33 7 1234 2) (demo_bo 0 1 1 0x33)) 2
       (demo_bo 0 1 1 0x33) (demo_handle 0x33 7 1234 2) demo_drm
       0x33 0 0 640 480 _ _ _) as (_ & H); [ev | | ev |].
  { split; [cbn; lia|intros E; discriminate E]. }
  destruct (gralloc_drm_bo_unlock 2
              (demo_state (demo_handle 0x33 7 1234 2) (demo_bo 0 1 1 0x33)))
    as [[] s'|f] eqn:E; [|vm_compute in E; discriminate E].
  destruct (bos s' !! 2) as [b'|] eqn:Eb.
  - exists s', b'. split; [reflexivity|]. split; [exact Eb|].
    exact (H s' b' eq_refl Eb).
  - exfalso. vm_compute in E. injection E as <-. vm_compute in Eb.
    discriminate Eb.
Defined.

Lemma lock_unlock_roundtrip_witness :
  exists r s1 s2,
    gralloc_drm_bo_lock demo_platform 2 0x33 0 0 640 480
      (demo_state (demo_handle 0x33 7 1234 2) (demo_bo 0 1 0 0))
    = Ok r s1 /\
    gralloc_drm_bo_unlock 2 s1 = Ok tt s2 /\
    bos s2 = bos (demo_state (demo_handle 0x33 7 1234 2) (demo_bo 0 1 0 0)) /\
    trace s2 = [EvMap 200 2 0 0 640 480 1; EvUnmap 200 2].
Proof.
  destruct (gralloc_drm_bo_lock demo_platform 2 0x33 0 0 640 480
              (demo_state (demo_handle 0x33 7 1234 2) (demo_bo 0 1 0 0)))
    as [r s1|f] eqn:E; [|vm_compute in E; discriminate E].
  assert (Hr : fst r = 0)
    by (vm_compute in E; injection E as <- _; reflexivity).
  unshelve epose proof
    (lock_unlock_roundtrip demo_platform
       (demo_state (demo_handle 0x33 7 1234 2) (demo_bo 0 1 0 0)) s1 2
       (demo_bo 0 1 0 0) (demo_handle 0x33 7 1234 2) demo_drm
       0x33 0 0 640 480 r _ _ _ E Hr)
    as (s2 & H1 & H2 & _ & _ & H3); [ev | | ev |].
  { split; [cbn; lia|reflexivity]. }
  exists r, s1, s2. split; [reflexivity|]. split; [exact H1|].
  split; [exact H2|exact H3].
Defined.

Lemma relock_same_usage_witness :
  exists r s1 r2 s2,
    gralloc_drm_bo_lock demo_platform 2 0x33 0 0 640 480
      (demo_state (demo_handle 0x33 7 1234 2) (demo_bo 0 1 0 0))
    = Ok r s1 /\
    gralloc_drm_bo_lock demo_platform 2 0x33 0 0 640 480 s1 = Ok r2 s2 /\
    fst r2 = 0.
Proof.
  destruct (gralloc_drm_bo_lock demo_platform 2 0x33 0 0 640 480
              (demo_state (demo_handle 0x33 7 1234 2) (demo_bo 0 1 0 0)))
    as [r s1|f] eqn:E; [|vm_compute in E; discriminate E].
  assert (Hr : fst r = 0)
    by (vm_compute in E; injection E as <- _; reflexivity).
  unshelve epose proof
    (relock_same_usage demo_platform
       (demo_state (demo_handle 0x33 7 1234 2) (demo_bo 0 1 0 0)) s1 2
       (demo_bo 0 1 0 0) (demo_handle 0x33 7 1234 2) demo_drm
       0x33 0 0 640 480 r _ E Hr)
    as (r2 & s2 & H1 & H2); [ev |].
  exists r, s1, r2, s2. split; [reflexivity|]. split; [exact H1|exact H2].
Defined.

Lemma lock_session_restores_witness :
  exists s',
    lock_session demo_platform 2 0x33 0 0 640 480 3
      (demo_state (demo_handle 0x33 7 1234 2) (demo_bo 0 1 0 0)) = Ok 0 s' /\
    bos s' = bos (demo_state (demo_handle 0x33 7 1234 2) (demo_bo 0 1 0 0)) /\
    map_calls (trace s') = 3%nat /\ unmap_calls (trace s') = 3%nat.
Proof.
  unshelve epose proof
    (lock_session_restores demo_platform
       (demo_state (demo_handle 0x33 7 1234 2) (demo_bo 0 1 0 0)) 2
       (demo_bo 0 1 0 0) (demo_handle 0x33 7 1234 2) demo_drm
       0x33 0 0 640 480 3 _ _ _ _ _)
    as (s' & H1 & H2 & _ & _ & H3 & H4); [ev | | ev | | ev |].
  { split; [cbn; lia|reflexivity]. }
  { split; left; reflexivity. }
  exists s'. split; [exact H1|]. split; [exact H2|]. split; [exact H3|].
  rewrite H4, H3. reflexivity.
Defined.

Lemma dedicated_backend_no_fallback_witness :
  init_drv_from_fd demo_transport demo_config 5 demo_world
  = WOk 200
      (mk_world (core demo_world)
         [SysGetVersion 5; SysDrvCreate Intel 5 200; SysFreeVersion 5]).
Proof.
  unshelve epose proof
    (dedicated_backend_no_fallback demo_transport demo_config 5 demo_world
       Intel "i915"%string _ _ _) as H; [ev | ev | ev |].
  exact H.
Defined.

Lemma pipe_is_the_fallback_witness :
  init_drv_from_fd demo_transport pipe_only_config 5 demo_world
  = WOk 200
      (mk_world (core demo_world)
         [SysGetVersion 5; SysDrvCreate Pipe 5 200; SysFreeVersion 5]).
Proof.
  unshelve epose proof
    (pipe_is_the_fallback demo_transport pipe_only_config 5 demo_world
       "i915"%string _ _) as H; [ev | |].
  { intros k Hk. destruct k; try discriminate Hk. discriminate. }
  exact H.
Defined.

Lemma destroy_releases_context_witness :
  exists w',
    gralloc_drm_destroy 100
      (live_world (demo_handle 3 7 1234 2) (demo_bo 0 1 0 0)) = WOk tt w' /\
    calls w' = [SysDrvDestroy 200; SysClose 3] /\
    gralloc_drm_get_fd 100 (core w') = Fault InvalidDeref.
Proof.
  unshelve epose proof
    (destroy_releases_context
       (live_world (demo_handle 3 7 1234 2) (demo_bo 0 1 0 0)) 100
       demo_drm _ _) as (w' & H1 & H2 & _ & _ & _ & _ & H3); [ev | ev |].
  exists w'. split; [exact H1|]. split; [exact H2|exact H3].
Defined.

Lemma destroy_strands_objects_witness :
  exists w',
    gralloc_drm_destroy 100
      (live_world (demo_handle 3 7 1234 2) (demo_bo 0 1 0 0)) = WOk tt w' /\
    bos (core w') !! 2 = Some (demo_bo 0 1 0 0) /\
    gralloc_drm_bo_decref 2 (core w') = Fault InvalidDeref.
Proof.
  unshelve epose proof
    (destroy_strands_objects
       (live_world (demo_handle 3 7 1234 2) (demo_bo 0 1 0 0)) 100
       demo_drm 2 (demo_bo 0 1 0 0) _ _ _ _ _ _) as H;
    [ev | ev | ev | ev | ev | ev |].
  exact H.
Defined.

Lemma create_destroy_roundtrip_witness :
  exists w' w'' k drv,
    gralloc_drm_create demo_platform demo_transport demo_config demo_world
    = WOk 100 w' /\
    gralloc_drm_get_fd 100 (core w') = Ok 5 (core w') /\
    gralloc_drm_destroy 100 w' = WOk tt w'' /\
    drms (core w'') = drms (core demo_world) /\
    calls w''
    = [SysOpenByFB 5; SysGetVersion 5; SysDrvCreate k 5 drv;
       SysFreeVersion 5; SysDrvDestroy drv; SysClose 5].
Proof.
  destruct (gralloc_drm_create demo_platform demo_transport demo_config
              demo_world) as [r w'|f] eqn:E;
    [|vm_compute in E; discriminate E].
  assert (Hr : r = 100)
    by (vm_compute in E; injection E as <- _; reflexivity).
  subst r.
  unshelve epose proof
    (create_destroy_roundtrip demo_platform demo_transport demo_config
       demo_world w' 100 E _ _)
    as (k & drv & w'' & H1 & H2 & _ & _ & H3 & _ & H4); [ev | ev |].
  exists w', w'', k, drv. split; [reflexivity|]. split; [exact H1|].
  split; [exact H2|]. split; [exact H3|exact H4].
Defined.

Lemma device_calls_frame_witness :
  gralloc_drm_get_magic demo_transport 100
    (live_world (demo_handle 3 7 1234 2) (demo_bo 0 1 0 0))
  = WOk (0, 77)
      (mk_world (demo_state (demo_handle 3 7 1234 2) (demo_bo 0 1 0 0))
         [SysGetMagic 3]) /\
  gralloc_drm_drop_master 100
    (live_world (demo_handle 3 7 1234 2) (demo_bo 0 1 0 0))
  = WOk tt
      (mk_world (demo_state (demo_handle 3 7 1234 2) (demo_bo 0 1 0 0))
         [SysDropMaster 3]).
Proof.
  unshelve epose proof
    (device_calls_frame demo_transport
       (live_world (demo_handle 3 7 1234 2) (demo_bo 0 1 0 0)) 100 77
       demo_drm _ _) as (H1 & _ & H2 & _); [ev | ev |].
  split; [exact H1|exact H2].
Defined.

Lemma resolve_format_trusts_data_witness :
  gralloc_drm_resolve_format demo_platform 1
    (arrived_state (demo_handle 3 7 1234 NULL)) = Fault NullDeref /\
  gralloc_drm_resolve_format demo_platform 1
    (arrived_state (demo_handle 3 7 999 77)) = Fault InvalidDeref /\
  gralloc_drm_resolve_format demo_platform 1
    (demo_state (demo_handle 3 7 999 2) (demo_bo 0 1 0 0))
  = Ok tt (demo_state (demo_handle 3 7 999 2) (demo_bo 0 1 0 0)).
Proof.
  split; [|split].
  - unshelve epose proof
      (resolve_format_trusts_data demo_platform
         (arrived_state (demo_handle 3 7 1234 NULL)) 1
         (demo_handle 3 7 1234 NULL) _ _ _) as (H & _); [ev | ev | ev |].
    exact (H eq_refl).
  - unshelve epose proof
      (resolve_format_trusts_data demo_platform
         (arrived_state (demo_handle 3 7 999 77)) 1
         (demo_handle 3 7 999 77) _ _ _) as (_ & H & _); [ev | ev | ev |].
    apply H; [discriminate|reflexivity].
  - unshelve epose proof
      (resolve_format_trusts_data demo_platform
         (demo_state (demo_handle 3 7 999 2) (demo_bo 0 1 0 0)) 1
         (demo_handle 3 7 999 2) _ _ _) as (_ & _ & H); [ev | ev | ev |].
    unshelve epose proof (H (demo_bo 0 1 0 0) demo_drm _ _ _ _ _) as H';
      [ev | ev | ev | ev | ev |].
    exact H'.
Defined.
